(** * NmapAI-gility: a shallow embedding of the scan pipeline

    The development follows the repository layout:

    - [PyText]        the Python string operations the sources rely on;
    - [Gnmap]         [summarize_gnmap] of [nmapai.py];
    - [Py]            dictionary fields, exceptions and results;
    - [Vulnerability] the vulnerability dictionaries;
    - [Dedup]         the de-duplication loop of
                      [ScannerManager._extract_vulnerabilities];
    - [Correlate]     [AIEngine.correlate_vulnerabilities];
    - [NmapXml]       [NmapScanner._parse_xml] and [_parse_host];
    - [Nikto]         [NiktoScanner]: targets, output parsing, [scan] and
                      the fan-out of [_scan_single] as a transition system;
    - [Scoring]       the priority score of the vulnerability engine;
    - [Orchestrator]  [ScannerManager.run_scan];
    - [Cli]           [main_async] of [nmapai.py];
    - [FanoutRuns], [SeenLoop], [NiktoReading], [ExtractReading],
      [PhaseReading], [SortedSet]
                      runs of the fan-out, and readings of the loops above
                      used by the further properties;
    - [Script]        [read_nonempty_lines] and the chunks of [ai_analyze];
    - [DursVuln]      [extract_dursvuln_blocks];
    - [NiktoRunner]   the targets of the script's nikto runner;
    - [NmapCommand]   [normalize_dashes], [NmapRunner.build_cmd] and
                      [NmapScanner._build_command];
    - [Enrichers], [NvdPlugin], [Epss]
                      [NVDEnricher.enrich] and [EPSSEnricher.enrich];
    - [Initialize]    [ScannerManager.initialize];
    - [AiProviders], [AiPhase]
                      the prompt and [_prepare_context] of the providers;
    - [ConfigMerge]   [ConfigManager.merge_configs];
    - [GnmapMarkdown] the Markdown summary of [summarize_gnmap];
    - [CliTargets]    the targets file in [main_async].

    The properties follow the definitions, one section per module.

    Text is modelled as [string], read as a sequence of code points below
    256; numbers that Python holds as floats are exact rationals. *)

From Stdlib Require Import ZArith QArith Qminmax Lia Lqa Bool Ascii Sorted.
From stdpp Require Import base option list strings pretty gmap.

Set Warnings "-register-all".

(** ** Python text operations *)

Module PyText.

(** [str.isspace] on the code points below 256. *)
Definition py_isspace (c : ascii) : bool :=
  let n := nat_of_ascii c in
  (((9 <=? n) && (n <=? 13)) || ((28 <=? n) && (n <=? 32))
   || (n =? 133) || (n =? 160)).

(** [str.lower] on one code point: [A-Z] and the Latin-1 capitals. *)
Definition py_lower_char (c : ascii) : ascii :=
  let n := nat_of_ascii c in
  if (((65 <=? n) && (n <=? 90))
      || ((192 <=? n) && (n <=? 222) && negb (n =? 215)))
  then ascii_of_nat (n + 32) else c.

Fixpoint py_lower (s : string) : string :=
  match s with
  | EmptyString => EmptyString
  | String c s' => String (py_lower_char c) (py_lower s')
  end.

Fixpoint drop_chars (n : nat) (s : string) : string :=
  match n, s with
  | O, _ => s
  | S n', String _ s' => drop_chars n' s'
  | S _, EmptyString => EmptyString
  end.

(** [needle in hay] *)
Fixpoint py_in (needle hay : string) : bool :=
  String.prefix needle hay ||
  match hay with
  | EmptyString => false
  | String _ hay' => py_in needle hay'
  end.

Fixpoint lstrip (s : string) : string :=
  match s with
  | String c s' => if py_isspace c then lstrip s' else s
  | EmptyString => EmptyString
  end.

Fixpoint rstrip (s : string) : string :=
  match s with
  | EmptyString => EmptyString
  | String c s' =>
      match rstrip s' with
      | EmptyString => if py_isspace c then EmptyString else String c EmptyString
      | r => String c r
      end
  end.

(** [s.strip()] *)
Definition strip (s : string) : string := rstrip (lstrip s).

(** The loop of [s.split(sep)] for a one-character separator: [cur] is the
    field being read, in reverse. *)
Fixpoint split_on_aux (sep : ascii) (cur : string) (s : string) : list string :=
  match s with
  | EmptyString => [String.rev cur]
  | String c s' =>
      if Ascii.eqb c sep then String.rev cur :: split_on_aux sep EmptyString s'
      else split_on_aux sep (String c cur) s'
  end.

(** [s.split(sep)]: never empty, keeps empty fields. *)
Definition split_on (sep : ascii) (s : string) : list string :=
  split_on_aux sep EmptyString s.

Definition flush (cur : string) (acc : list string) : list string :=
  match cur with
  | EmptyString => acc
  | _ => String.rev cur :: acc
  end.

Fixpoint split_ws_aux (cur : string) (s : string) : list string :=
  match s with
  | EmptyString => flush cur []
  | String c s' =>
      if py_isspace c then flush cur (split_ws_aux EmptyString s')
      else split_ws_aux (String c cur) s'
  end.

(** [s.split()]: fields between runs of white space, none empty. *)
Definition split_ws (s : string) : list string := split_ws_aux EmptyString s.

Definition newline : ascii := ascii_of_nat 10.

(** The text after the match of [^.*Ports:] (greedy, [.] excludes the line
    feed), when the pattern matches at the start of [s]. *)
Fixpoint after_last_ports (s : string) : option string :=
  match s with
  | EmptyString => None
  | String c s' =>
      if Ascii.eqb c newline then None
      else match after_last_ports s' with
           | Some r => Some r
           | None =>
               if String.prefix "Ports:" s then Some (drop_chars 6 s) else None
           end
  end.

(** [re.sub(r"^.*Ports:\s*", "", s)] *)
Definition sub_ports (s : string) : string :=
  match after_last_ports s with
  | Some r => lstrip r
  | None => s
  end.

End PyText.

(** ** The greppable summary: [summarize_gnmap] *)

Module Gnmap.
Import PyText.

(** A summary row [(host, port, proto, svc)]; every field is text. *)
Definition row : Type := string * string * string * string.

(** [bits[i]] once [len(bits) >= 5] is known. *)
Definition bit (bits : list string) (i : nat) : string := nth i bits "".

(** The body of the loop over [ports_str.split(",")]. *)
Definition seg_rows (host : string) (seg0 : string) : list row :=
  let seg := strip seg0 in
  if py_in "open" seg then
    let bits := split_on "/"%char seg in
    if (5 <=? List.length bits) then
      let port := bit bits 0 in
      let state := bit bits 1 in
      let proto := bit bits 2 in
      let svc := if String.eqb (bit bits 4) "" then "-" else bit bits 4 in
      if String.eqb state "open" then [(host, port, proto, svc)] else []
    else []
  else [].

(** The body of the loop over the lines of the file.  [parts.split()[1]]
    exists whenever the line holds both markers: the text before
    ["Ports: "] and the marker itself are two fields at least. *)
Definition line_rows (line : string) : list row :=
  if py_in "Host: " line && py_in "Ports: " line then
    let parts := strip line in
    let host := nth 1 (split_ws parts) "" in
    let ports_str := sub_ports parts in
    flat_map (seg_rows host) (split_on ","%char ports_str)
  else [].

Definition row_compare (a b : row) : comparison :=
  let '(h1, p1, pr1, s1) := a in
  let '(h2, p2, pr2, s2) := b in
  match String.compare h1 h2 with
  | Eq => match String.compare p1 p2 with
          | Eq => match String.compare pr1 pr2 with
                  | Eq => String.compare s1 s2
                  | o => o
                  end
          | o => o
          end
  | o => o
  end.

Fixpoint insert_row (r : row) (l : list row) : list row :=
  match l with
  | [] => [r]
  | x :: l' =>
      match row_compare r x with
      | Lt => r :: l
      | Eq => l
      | Gt => x :: insert_row r l'
      end
  end.

(** [sorted(set(rows))] *)
Definition sorted_set (rows : list row) : list row :=
  foldr insert_row [] rows.

(** The rows [summarize_gnmap] writes to its three summary files, from the
    lines of a non-empty greppable file. *)
Definition summarize_gnmap (lines : list string) : list row :=
  sorted_set (flat_map line_rows lines).

Definition sample_line : string :=
  "Host: 10.0.0.5 () Status: Up Ports: 80/open/tcp//http///, 22/closed/tcp//ssh///".

End Gnmap.

(** ** Python values: dictionary fields and exceptions *)

Module Py.

(** A key of a [dict]: absent, present with [None], or present with a
    value.  [d.get(k)] and [d.get(k, default)] tell the first two apart. *)
Inductive field (A : Type) : Type :=
| Missing
| PyNone
| Val (a : A).
Arguments Missing {A}.
Arguments PyNone {A}.
Arguments Val {A} a.

(** [d.get(k)]; [None] stands for Python's [None]. *)
Definition get {A} (f : field A) : option A :=
  match f with
  | Val a => Some a
  | _ => None
  end.

(** [d.get(k, default)] *)
Definition get_or {A} (f : field A) (default : A) : option A :=
  match f with
  | Missing => Some default
  | PyNone => None
  | Val a => Some a
  end.

Inductive exn : Type :=
| AttributeError
| TypeError
| ValueError
| KeyError
| FileNotFoundError
| ParseError
| RuntimeError (msg : string)
| CancelledError
| SystemExit (message : string).

(** [isinstance(e, Exception)]: [CancelledError] and [SystemExit] derive
    from [BaseException] only. *)
Definition is_Exception (e : exn) : bool :=
  match e with
  | CancelledError | SystemExit _ => false
  | _ => true
  end.

(** The result of running a piece of code: a value, an exception, or no
    result at all (a coroutine that is never resumed). *)
Inductive exc (A : Type) : Type :=
| Ok (a : A)
| Raise (e : exn)
| Blocked.
Arguments Ok {A} a.
Arguments Raise {A} e.
Arguments Blocked {A}.

Definition bind {A B} (m : exc A) (k : A -> exc B) : exc B :=
  match m with
  | Ok a => k a
  | Raise e => Raise e
  | Blocked => Blocked
  end.

(** A list comprehension with a filter that may raise. *)
Fixpoint filterM {A} (p : A -> exc bool) (l : list A) : exc (list A) :=
  match l with
  | [] => Ok []
  | x :: l' =>
      bind (p x) (fun b =>
      bind (filterM p l') (fun r =>
      Ok (if b then x :: r else r)))
  end.

(** A list comprehension whose element expression may raise. *)
Fixpoint mapM {A B} (f : A -> exc B) (l : list A) : exc (list B) :=
  match l with
  | [] => Ok []
  | x :: l' =>
      bind (f x) (fun y =>
      bind (mapM f l') (fun r =>
      Ok (y :: r)))
  end.

End Py.

Notation "x <~ m ;; k" := (Py.bind m (fun x => k))
(at level 100, m at level 99, right associativity, only parsing).

(** ** Vulnerability records *)

Module Vulnerability.
Import Py.

(** The dictionary built by [_extract_vulnerabilities] and extended by the
    enrichers and the engine; only the keys read below are kept. *)
Record Vuln : Type := mkVuln {
  cve_id : field string;
  host : field string;
  port : field (Z + string);
  service : field string;
  source : field string;
  description : field string;
  cvss_score : field Q;
  risk_level : field string;
}.

#[export] Instance field_eq_dec {A} `{EqDecision A} : EqDecision (field A).
Proof. solve_decision. Defined.

End Vulnerability.

(** ** De-duplication in [ScannerManager._extract_vulnerabilities] *)

Module Dedup.
Import Py Vulnerability.

(** [(vuln.get("cve_id"), vuln.get("host"))] *)
Definition key : Type := option string * option string.

Definition vuln_key (v : Vuln) : key := (get (cve_id v), get (host v)).

(** One iteration of [for vuln in vulnerabilities]; the state is
    [(seen, unique_vulns)]. *)
Definition dedup_step (st : gset key * list Vuln) (v : Vuln)
  : gset key * list Vuln :=
  let '(seen, unique_vulns) := st in
  if decide (vuln_key v ∈ seen) then st
  else ({[vuln_key v]} ∪ seen, unique_vulns ++ [v]).

Definition dedup_from (st : gset key * list Vuln) (vulnerabilities : list Vuln)
  : gset key * list Vuln :=
  fold_left dedup_step vulnerabilities st.

(** Lines 195-205: the value returned as [unique_vulns]. *)
Definition deduplicate (vulnerabilities : list Vuln) : list Vuln :=
  snd (dedup_from (∅, []) vulnerabilities).

(** The first element of [l] with key [k]. *)
Definition first_with (k : key) (l : list Vuln) : option Vuln :=
  List.find (fun v => bool_decide (vuln_key v = k)) l.

(** The loop read as a recursion: what it appends, given [seen]. *)
Fixpoint keep_new (seen : gset key) (l : list Vuln) : list Vuln :=
  match l with
  | [] => []
  | v :: rest =>
      if decide (vuln_key v ∈ seen) then keep_new seen rest
      else v :: keep_new ({[vuln_key v]} ∪ seen) rest
  end.

(** *** Samples *)

Definition log4shell_a : Vuln :=
  mkVuln (Val "CVE-2021-44228") (Val "192.168.1.1") (Val (inl 443%Z))
         (Val "https") (Val "nmap_script") Missing Missing Missing.
Definition log4shell_b : Vuln :=
  mkVuln (Val "CVE-2021-44228") (Val "192.168.1.1") (Val (inr "443"))
         (Val "http") (Val "nikto") (Val "Log4Shell") Missing Missing.
Definition log4shell_other_host : Vuln :=
  mkVuln (Val "CVE-2021-44228") (Val "192.168.1.2") (Val (inl 443%Z))
         (Val "https") (Val "nmap_script") Missing Missing Missing.

End Dedup.

(** ** [AIEngine.correlate_vulnerabilities] *)

Module Correlate.
Import PyText Py Vulnerability.

Record Chain : Type := mkChain {
  chain_type : string;
  chain_description : string;
  chain_vulnerabilities : list (option string);
  chain_risk : string;
}.

Record HighRisk : Type := mkHighRisk {
  hr_host : option string;
  critical_vulns : nat;
  high_vulns : nat;
  total_vulns : nat;
}.

(** [v.get("description", "").lower()]; [None] has no [lower]. *)
Definition lower_description (v : Vuln) : exc string :=
  match get_or (description v) "" with
  | Some d => Ok (py_lower d)
  | None => Raise AttributeError
  end.

(** [v.get("cvss_score", 0) >= 9.0]; [None >= 9.0] is a [TypeError]. *)
Definition cvss_at_least_9 (v : Vuln) : exc bool :=
  match get_or (cvss_score v) 0%Q with
  | Some c => Ok (Qle_bool 9 c)
  | None => Raise TypeError
  end.

(** The filter of [rce_vulns]; [or] evaluates its right side only when the
    left one is false. *)
Definition is_rce (v : Vuln) : exc bool :=
  d <~ lower_description v ;;
  if py_in "remote" d then Ok true else cvss_at_least_9 v.

(** The filter of [privesc_vulns]. *)
Definition is_privesc (v : Vuln) : exc bool :=
  d <~ lower_description v ;;
  Ok (py_in "privilege" d).

Definition rce_to_privesc (rce privesc : Vuln) : Chain :=
  {| chain_type := "rce_to_privesc";
     chain_description :=
       "Remote Code Execution can be chained with Privilege Escalation";
     chain_vulnerabilities := [get (cve_id rce); get (cve_id privesc)];
     chain_risk := "critical" |}.

Definition _identify_attack_chains (vulns : list Vuln) : exc (list Chain) :=
  rce_vulns <~ filterM is_rce vulns ;;
  privesc_vulns <~ filterM is_privesc vulns ;;
  match rce_vulns, privesc_vulns with
  | r :: _, p :: _ => Ok [rce_to_privesc r p]
  | _, _ => Ok []
  end.

(** [vuln.get("host", "unknown")]: the key of [by_host]. *)
Definition host_key (v : Vuln) : option string := get_or (host v) "unknown".

(** [by_host[host].append(vuln)], creating the entry at the end of the
    dictionary when the key is new. *)
Fixpoint add_to_host (h : option string) (v : Vuln)
    (by_host : list (option string * list Vuln))
  : list (option string * list Vuln) :=
  match by_host with
  | [] => [(h, [v])]
  | (k, l) :: rest =>
      if decide (k = h) then (k, l ++ [v]) :: rest
      else (k, l) :: add_to_host h v rest
  end.

(** The dictionary [by_host], in insertion order. *)
Definition group_by_host (vulnerabilities : list Vuln)
  : list (option string * list Vuln) :=
  fold_left (fun by_host v => add_to_host (host_key v) v by_host)
            vulnerabilities [].

(** The body of [for host, host_vulns in by_host.items()]. *)
Definition host_chains (host_vulns : list Vuln) : exc (list Chain) :=
  if (2 <=? List.length host_vulns)
  then _identify_attack_chains host_vulns
  else Ok [].

Fixpoint all_chains (by_host : list (option string * list Vuln))
  : exc (list Chain) :=
  match by_host with
  | [] => Ok []
  | (_, host_vulns) :: rest =>
      chains <~ host_chains host_vulns ;;
      more <~ all_chains rest ;;
      Ok (chains ++ more)
  end.

Definition count_level (level : string) (vulns : list Vuln) : nat :=
  List.length
    (List.filter (fun v => bool_decide (get (risk_level v) = Some level)) vulns).

Definition _identify_high_risk_hosts
    (by_host : list (option string * list Vuln)) : list HighRisk :=
  flat_map
    (fun '(h, vulns) =>
       let critical_count := count_level "critical" vulns in
       let high_count := count_level "high" vulns in
       if ((2 <=? critical_count)
           || ((1 <=? critical_count) && (2 <=? high_count)))
       then [mkHighRisk h critical_count high_count (List.length vulns)]
       else [])
    by_host.

Definition correlate_vulnerabilities (vulnerabilities : list Vuln)
  : exc (list Chain * list HighRisk) :=
  let by_host := group_by_host vulnerabilities in
  attack_chains <~ all_chains by_host ;;
  Ok (attack_chains, _identify_high_risk_hosts by_host).

(** *** Indicators, grouping invariant and samples *)

(** The values the filters can work with: neither [description] nor
    [cvss_score] is present with [None]. *)
Definition well_typed (v : Vuln) : Prop :=
  description v <> PyNone /\ cvss_score v <> PyNone.

(** The lower-cased description, empty when there is none. *)
Definition lowered (v : Vuln) : string :=
  py_lower (default "" (get (description v))).

(** The remote-exploitable indicator. *)
Definition remote_indicator (v : Vuln) : bool :=
  py_in "remote" (lowered v) || Qle_bool 9 (default 0%Q (get (cvss_score v))).

(** The privilege-escalation indicator. *)
Definition privilege_indicator (v : Vuln) : bool :=
  py_in "privilege" (lowered v).

(** What the chains of one host have to be. *)
Definition chains_for (host_vulns : list Vuln) (chains : list Chain) : Prop :=
  List.length chains <= 1
  /\ (chains <> [] <->
      2 <= List.length host_vulns
      /\ (exists v, v ∈ host_vulns /\ remote_indicator v = true)
      /\ (exists v, v ∈ host_vulns /\ privilege_indicator v = true))
  /\ (forall c, c ∈ chains ->
        exists r p,
          List.find remote_indicator host_vulns = Some r
          /\ List.find privilege_indicator host_vulns = Some p
          /\ chain_type c = "rce_to_privesc"
          /\ chain_risk c = "critical"
          /\ chain_vulnerabilities c = [get (cve_id r); get (cve_id p)]).

Definition same_host (h : option string) (v : Vuln) : bool :=
  bool_decide (host_key v = h).

(** An entry of [by_host] holds the vulnerabilities of its host, in
    order. *)
Definition group_of (l : list Vuln) (g : option string * list Vuln) : Prop :=
  g.2 = List.filter (same_host g.1) l /\ g.2 <> [].

(** The invariant of the grouping loop after the vulnerabilities [l]. *)
Definition grouped (l : list Vuln) (m : list (option string * list Vuln)) : Prop :=
  NoDup m.*1
  /\ Forall (group_of l) m
  /\ (forall v, v ∈ l -> host_key v ∈ m.*1).

Definition vuln_on (h cve : string) (d : field string) (c : field Q) : Vuln :=
  mkVuln (Val cve) (Val h) Missing Missing Missing d c Missing.

Definition sample_vulns : list Vuln :=
  [vuln_on "10.0.0.5" "CVE-2021-44228" (Val "Remote code execution in Log4j")
           (Val (10 # 1));
   vuln_on "10.0.0.7" "CVE-2020-0001" (Val "Information disclosure") Missing;
   vuln_on "10.0.0.5" "CVE-2021-4034" (Val "Local privilege escalation in pkexec")
           (Val (78 # 10))].

(** A host whose only vulnerability matches both indicators gets no
    chain. *)
Definition remote_privesc : Vuln :=
  vuln_on "10.0.0.5" "CVE-2021-3156"
          (Val "remote privilege escalation in sudo") (Val (98 # 10)).

End Correlate.

(** ** The structured report: [NmapScanner._parse_xml], [_parse_host] *)

Module NmapXml.
Import PyText Py.

(** An [xml.etree.ElementTree.Element]: tag, attribute dictionary and
    children in document order. *)
Inductive Element : Type :=
| Elem (tag : string) (attrib : gmap string string) (children : list Element).

Definition tag (e : Element) : string :=
  match e with Elem t _ _ => t end.
Definition attrib (e : Element) : gmap string string :=
  match e with Elem _ a _ => a end.
Definition children (e : Element) : list Element :=
  match e with Elem _ _ cs => cs end.

(** [elem.get(key)] *)
Definition attr (e : Element) (key : string) : option string :=
  attrib e !! key.

(** The proper descendants of [e] in document order: [e.iter()] without
    [e] itself. *)
Fixpoint descendants (e : Element) : list Element :=
  match e with
  | Elem _ _ cs =>
      (fix walk (l : list Element) : list Element :=
         match l with
         | [] => []
         | c :: l' => c :: descendants c ++ walk l'
         end) cs
  end.

Definition has_tag (t : string) (e : Element) : bool :=
  bool_decide (tag e = t).

Definition has_attr (key value : string) (e : Element) : bool :=
  bool_decide (attr e key = Some value).

(** [e.findall(".//t")] *)
Definition findall_desc (t : string) (e : Element) : list Element :=
  List.filter (has_tag t) (descendants e).

(** [e.findall("t")] *)
Definition findall_child (t : string) (e : Element) : list Element :=
  List.filter (has_tag t) (children e).

(** [e.find("t")] *)
Definition find_child (t : string) (e : Element) : option Element :=
  head (findall_child t e).

(** [e.find("t[@key='value']")] *)
Definition find_child_with (t key value : string) (e : Element)
  : option Element :=
  head (List.filter (has_attr key value) (findall_child t e)).

(** [e.find(".//t")] *)
Definition find_desc (t : string) (e : Element) : option Element :=
  head (findall_desc t e).

(** [e.find("hostnames/hostname[@type='user']")] *)
Definition find_user_hostname (e : Element) : option Element :=
  head (flat_map
          (fun hn => List.filter (has_attr "type" "user")
                                 (findall_child "hostname" hn))
          (findall_child "hostnames" e)).

Record Service : Type := mkService {
  service_name : string;
  product : option string;
  version : option string;
  extrainfo : option string;
}.

Record Script : Type := mkScript {
  script_id : option string;
  output : option string;
}.

(** [service] and [scripts] are keys that may be absent. *)
Record Port : Type := mkPort {
  port : Z;
  protocol : option string;
  state : option string;
  service : option Service;
  scripts : option (list Script);
}.

Record OsInfo : Type := mkOsInfo {
  os_name : option string;
  accuracy : Z;
}.

Record Host : Type := mkHost {
  ip : option string;
  hostname : option string;
  ports : list Port;
  os : option OsInfo;
  host_state : string;
}.

Definition digit_value (c : ascii) : option Z :=
  let n := nat_of_ascii c in
  if ((48 <=? n) && (n <=? 57)) then Some (Z.of_nat n - 48)%Z else None.

(** The digits of a decimal literal: groups of digits separated by single
    underscores.  [after_digit] tells whether the previous character was
    a digit. *)
Fixpoint parse_digits (acc : Z) (after_digit : bool) (s : string) : option Z :=
  match s with
  | EmptyString => if after_digit then Some acc else None
  | String c s' =>
      match digit_value c with
      | Some d => parse_digits (10 * acc + d)%Z true s'
      | None =>
          if Ascii.eqb c "_"%char && after_digit
          then parse_digits acc false s'
          else None
      end
  end.

Definition parse_signed (s : string) : option Z :=
  match s with
  | String "-"%char s' => Z.opp <$> parse_digits 0 false s'
  | String "+"%char s' => parse_digits 0 false s'
  | _ => parse_digits 0 false s
  end.

(** [int(x)] for [x] a string or [None]. *)
Definition py_int (x : option string) : exc Z :=
  match x with
  | None => Raise TypeError
  | Some s =>
      match parse_signed (strip s) with
      | Some z => Ok z
      | None => Raise ValueError
      end
  end.

Definition parse_service (service_elem : Element) : Service :=
  {| service_name := default "unknown" (attr service_elem "name");
     product := attr service_elem "product";
     version := attr service_elem "version";
     extrainfo := attr service_elem "extrainfo" |}.

Definition parse_script (script_elem : Element) : Script :=
  {| script_id := attr script_elem "id";
     output := attr script_elem "output" |}.

(** The test that lets a port element through:
    [state_elem is None or state_elem.get("state") != "open"] is false. *)
Definition is_open (port_elem : Element) : bool :=
  match find_child "state" port_elem with
  | None => false
  | Some state_elem => bool_decide (attr state_elem "state" = Some "open")
  end.

(** The body of [for port_elem in host_elem.findall(".//port")] for a
    port that is open. *)
Definition parse_port (port_elem : Element) : exc Port :=
  portid <~ py_int (attr port_elem "portid") ;;
  let scripts := parse_script <$> findall_child "script" port_elem in
  Ok {| port := portid;
        protocol := attr port_elem "protocol";
        state := find_child "state" port_elem ≫= fun st => attr st "state";
        service := parse_service <$> find_child "service" port_elem;
        scripts := match scripts with [] => None | _ => Some scripts end |}.

(** [int(os_elem.get("accuracy", 0))] *)
Definition parse_os (os_elem : Element) : exc OsInfo :=
  acc <~ match attr os_elem "accuracy" with
         | None => Ok 0%Z
         | Some a => py_int (Some a)
         end ;;
  Ok {| os_name := attr os_elem "name"; accuracy := acc |}.

(** The address element [_parse_host] settles on: IPv4 first. *)
Definition address_elem (host_elem : Element) : option Element :=
  match find_child_with "address" "addrtype" "ipv4" host_elem with
  | Some a => Some a
  | None => find_child_with "address" "addrtype" "ipv6" host_elem
  end.

Definition _parse_host (host_elem : Element) : exc (option Host) :=
  match address_elem host_elem with
  | None => Ok None
  | Some addr_elem =>
      let ip := attr addr_elem "addr" in
      let hostname := find_user_hostname host_elem ≫= fun h => attr h "name" in
      ports <~ mapM parse_port
                 (List.filter is_open (findall_desc "port" host_elem)) ;;
      os_info <~ match find_desc "osmatch" host_elem with
                 | None => Ok None
                 | Some os_elem => o <~ parse_os os_elem ;; Ok (Some o)
                 end ;;
      Ok (Some {| ip := ip; hostname := hostname; ports := ports;
                  os := os_info; host_state := "up" |})
  end.

(** The body of [for host_elem in root.findall(".//host")]: the hosts it
    appends.  A host element without a [status] child makes
    [host_elem.find("status").get] fail. *)
Definition host_step (host_elem : Element) : exc (list Host) :=
  match find_child "status" host_elem with
  | None => Raise AttributeError
  | Some status =>
      if bool_decide (attr status "state" = Some "up") then
        host_data <~ _parse_host host_elem ;;
        Ok (match host_data with Some h => [h] | None => [] end)
      else Ok []
  end.

Fixpoint host_loop (host_elems : list Element) : exc (list Host) :=
  match host_elems with
  | [] => Ok []
  | h :: rest =>
      hs <~ host_step h ;;
      more <~ host_loop rest ;;
      Ok (hs ++ more)
  end.

(** What [_parse_xml] finds at [xml_path]: no file, a file [ET.parse]
    rejects (truncated or otherwise not well-formed), or a document. *)
Inductive xml_file : Type :=
| NoFile
| Unparsable
| Document (root : Element).

(** A line printed by [_parse_xml]. *)
Inductive warning : Type :=
| FailedToParseXML (e : exn).

(** [try: ... except Exception as e: print(...); return []] around the
    parsing. *)
Definition or_empty (parsed : exc (list Host)) : exc (list Host) * list warning :=
  match parsed with
  | Raise e =>
      if is_Exception e then (Ok [], [FailedToParseXML e]) else (Raise e, [])
  | other => (other, [])
  end.

(** [_parse_xml]: its result and the lines printed. *)
Definition _parse_xml (f : xml_file) : exc (list Host) * list warning :=
  match f with
  | NoFile => (Ok [], [])
  | Unparsable => or_empty (Raise ParseError)
  | Document root => or_empty (host_loop (findall_desc "host" root))
  end.

(** *** Reading predicates and samples *)

(** [e.find("status").get("state") == "up"], when the [status] child is
    there. *)
Definition is_up (host_elem : Element) : bool :=
  match find_child "status" host_elem with
  | Some status => bool_decide (attr status "state" = Some "up")
  | None => false
  end.

Definition has_address (host_elem : Element) : bool :=
  bool_decide (is_Some (address_elem host_elem)).

(** A port record is the reading of an open port element. *)
Definition port_of (port_elem : Element) (p : Port) : Prop :=
  py_int (attr port_elem "portid") = Ok (port p)
  /\ protocol p = attr port_elem "protocol"
  /\ state p = Some "open"
  /\ service p = parse_service <$> find_child "service" port_elem
  /\ default [] (scripts p) = parse_script <$> findall_child "script" port_elem.

(** A host record is the reading of a host element: its address, its open
    ports in document order, and its first [osmatch]. *)
Definition host_of (host_elem : Element) (h : Host) : Prop :=
  (exists addr_elem,
      address_elem host_elem = Some addr_elem /\ ip h = attr addr_elem "addr")
  /\ hostname h = (find_user_hostname host_elem ≫= fun e => attr e "name")
  /\ Forall2 port_of
       (List.filter is_open (findall_desc "port" host_elem)) (ports h)
  /\ match find_desc "osmatch" host_elem with
     | None => os h = None
     | Some os_elem =>
         exists acc, os h = Some {| os_name := attr os_elem "name";
                                    accuracy := acc |}
     end
  /\ host_state h = "up".

(** The host elements that end up in the inventory. *)
Definition retained (host_elem : Element) : bool :=
  is_up host_elem && has_address host_elem.

Definition elem (t : string) (attrs : list (string * string))
    (cs : list Element) : Element :=
  Elem t (list_to_map attrs) cs.

Definition status_up : Element := elem "status" [("state", "up")] [].

(** A host that is up, with an IPv4 address, an open and a closed port and
    two OS matches. *)
Definition web_host : Element :=
  elem "host" []
    [status_up;
     elem "address" [("addr", "aa:bb:cc:dd:ee:ff"); ("addrtype", "mac")] [];
     elem "address" [("addr", "192.168.1.1"); ("addrtype", "ipv4")] [];
     elem "ports" []
       [elem "port" [("portid", "443"); ("protocol", "tcp")]
          [elem "state" [("state", "open")] [];
           elem "service" [("name", "https")] []];
        elem "port" [("portid", "22"); ("protocol", "tcp")]
          [elem "state" [("state", "closed")] []]];
     elem "os" []
       [elem "osmatch" [("name", "Linux 5.x"); ("accuracy", "98")] [];
        elem "osmatch" [("name", "FreeBSD 13"); ("accuracy", "90")] []]].

Definition down_host : Element :=
  elem "host" []
    [elem "status" [("state", "down")] [];
     elem "address" [("addr", "192.168.1.2"); ("addrtype", "ipv4")] []].

(** A host that is up and has a MAC address only. *)
Definition mac_only_host : Element :=
  elem "host" []
    [status_up;
     elem "address" [("addr", "aa:bb:cc:dd:ee:ff"); ("addrtype", "mac")] []].

(** A host that is up and whose address element has no [addr]. *)
Definition unaddressed_host : Element :=
  elem "host" [] [status_up; elem "address" [("addrtype", "ipv4")] []].

(** A host element without [status]. *)
Definition statusless_host : Element :=
  elem "host" []
    [elem "address" [("addr", "192.168.1.3"); ("addrtype", "ipv4")] []].

Definition sample_report : Element :=
  elem "nmaprun" [] [web_host; down_host; mac_only_host].

Definition sample_inventory : list Host :=
  [{| ip := Some "192.168.1.1";
      hostname := None;
      ports := [{| port := 443; protocol := Some "tcp"; state := Some "open";
                   service := Some (mkService "https" None None None);
                   scripts := None |}];
      os := Some {| os_name := Some "Linux 5.x"; accuracy := 98 |};
      host_state := "up" |}].

(** A file is malformed when [ET.parse] rejects it or when reading its host
    elements raises. *)
Definition malformed (f : xml_file) : Prop :=
  f = Unparsable
  \/ exists root e,
      f = Document root /\ host_loop (findall_desc "host" root) = Raise e.

End NmapXml.

(** ** The web scanner: [NiktoScanner] *)

Module Nikto.
Import PyText Py NmapXml.

Record Target : Type := mkTarget {
  target_host : option string;
  target_port : string;
  target_scheme : string;
  target_url : string;
}.

Record Finding : Type := mkFinding {
  finding_type : string;
  finding_description : string;
  severity : string;
}.

Definition web_ports : list string :=
  ["80"; "443"; "8000"; "8001"; "8080"; "8443"; "8888"; "5000"; "3000"; "9000"].

(** [str(x)] for a string or [None]. *)
Definition py_str (x : option string) : string := default "None" x.

(** The body of the inner loop of [_extract_web_targets]. *)
Definition web_target (ip : option string) (p : Port) : list Target :=
  let port_num := pretty (port p) in
  let service :=
    py_lower (match NmapXml.service p with
              | Some s => service_name s
              | None => ""
              end) in
  let is_web := py_in "http" service || bool_decide (port_num ∈ web_ports) in
  if is_web then
    let is_ssl := py_in "https" service || py_in "ssl" service
                  || bool_decide (port_num ∈ ["443"; "8443"]) in
    let scheme := if is_ssl then "https" else "http" in
    [mkTarget ip port_num scheme
              (scheme +:+ "://" +:+ py_str ip +:+ ":" +:+ port_num)]
  else [].

Definition target_key (t : Target) : option string * string * string :=
  (target_host t, target_port t, target_scheme t).

Definition unique_step
    (st : gset (option string * string * string) * list Target) (t : Target)
  : gset (option string * string * string) * list Target :=
  let '(seen, unique_targets) := st in
  if decide (target_key t ∈ seen) then st
  else ({[target_key t]} ∪ seen, unique_targets ++ [t]).

Definition _extract_web_targets (hosts : list Host) : list Target :=
  let targets :=
    flat_map (fun h => flat_map (web_target (ip h)) (ports h)) hosts in
  snd (fold_left unique_step targets (∅, [])).

Fixpoint take_chars (n : nat) (s : string) : string :=
  match n, s with
  | S n', String c s' => String c (take_chars n' s')
  | _, _ => EmptyString
  end.

(** The length of the run of white space that starts [s]. *)
Fixpoint ws_run (s : string) : nat :=
  match s with
  | String c s' => if py_isspace c then S (ws_run s') else 0
  | EmptyString => 0
  end.

(** The position of the first colon. *)
Fixpoint colon_index (s : string) : option nat :=
  match s with
  | EmptyString => None
  | String c s' =>
      if Ascii.eqb c ":"%char then Some 0 else S <$> colon_index s'
  end.

(** The match of [\s+([^:]+):\s+(.+)] on the text that follows a ["+"],
    in a line without line feed: both groups.  The first group ends at the
    first colon; each greedy [\s+] leaves one character to the group
    after it. *)
Definition match_after_plus (rest : string) : option (string * string) :=
  match colon_index rest with
  | None => None
  | Some j =>
      let k := Nat.min (ws_run rest) (j - 1) in
      if (1 <=? k) then
        let tail := drop_chars (S j) rest in
        let m := Nat.min (ws_run tail) (String.length tail - 1) in
        if (1 <=? m) then
          Some (take_chars (j - k) (drop_chars k rest), drop_chars m tail)
        else None
      else None
  end.

(** [vuln_pattern.search(line)]: the leftmost ["+"] where the rest
    matches. *)
Fixpoint search_vuln_pattern (line : string) : option (string * string) :=
  match line with
  | EmptyString => None
  | String c rest =>
      match (if Ascii.eqb c "+"%char then match_after_plus rest else None) with
      | Some g => Some g
      | None => search_vuln_pattern rest
      end
  end.

Definition any_keyword (keywords : list string) (text : string) : bool :=
  existsb (fun keyword => py_in keyword text) keywords.

Definition assess_severity (description : string) : string :=
  let d := py_lower description in
  if any_keyword ["critical"; "dangerous"; "exploit"] d then "high"
  else if any_keyword ["vulnerable"; "security"; "risk"] d then "medium"
  else if any_keyword ["warning"; "outdated"] d then "low"
  else "info".

Definition line_finding (line : string) : list Finding :=
  match search_vuln_pattern line with
  | Some (g1, g2) =>
      let description := strip g2 in
      [mkFinding (strip g1) description (assess_severity description)]
  | None => []
  end.

Definition _parse_nikto_output (output : string) : list Finding :=
  flat_map line_finding (split_on newline output).

(** What happens inside the [try] of [_scan_single] for one target: the
    process is spawned, its output read, the JSON file written and the
    progress call-back run, or one of these steps raises. *)
Inductive attempt : Type :=
| Completes (stdout : string)
| Fails (e : exn).

(** The dictionary a worker returns: with [output_files], or with
    [error] and empty [findings]. *)
Inductive ScanDict : Type :=
| ScanDone (target : Target) (findings : list Finding)
| ScanError (target : Target) (error : exn).

Definition scan_findings (d : ScanDict) : list Finding :=
  match d with
  | ScanDone _ fs => fs
  | ScanError _ _ => []
  end.

Definition scan_target (d : ScanDict) : Target :=
  match d with
  | ScanDone t _ | ScanError t _ => t
  end.

(** [_scan_single] once the semaphore is held.  [except Exception] lets
    through what is not an [Exception]. *)
Definition _scan_single (a : attempt) (target : Target) : exc ScanDict :=
  match a with
  | Completes stdout => Ok (ScanDone target (_parse_nikto_output stdout))
  | Fails e => if is_Exception e then Ok (ScanError target e) else Raise e
  end.

(** An entry of [scan_results]: [gather(..., return_exceptions=True)]
    returns the exception a task ended with in place of its result. *)
Definition is_exception_instance (r : exc ScanDict) : bool :=
  match r with
  | Raise e => is_Exception e
  | _ => false
  end.

Record ScanSummary : Type := mkScanSummary {
  scans : list (exc ScanDict);
  total : nat;
  successful : nat;
  failed : nat;
}.

(** [tasks] and [gather]: worker [idx] meets [world idx]. *)
Definition gather_scans (world : nat -> attempt) (targets : list Target)
  : list (exc ScanDict) :=
  imap (fun idx target => _scan_single (world idx) target) targets.

(** [NiktoScanner.scan].  [asyncio.Semaphore] rejects a negative value;
    with value 0 no worker ever enters its [async with sem] block. *)
Definition scan (concurrency : Z) (world : nat -> attempt)
    (targets : list Target) : exc ScanSummary :=
  if (concurrency <? 0)%Z then Raise ValueError
  else if (concurrency =? 0)%Z && negb (bool_decide (targets = []))
  then Blocked
  else
    let scan_results := gather_scans world targets in
    let successful_scans :=
      List.filter (fun r => negb (is_exception_instance r)) scan_results in
    let failed_scans := List.filter is_exception_instance scan_results in
    Ok {| scans := successful_scans;
          total := List.length targets;
          successful := List.length successful_scans;
          failed := List.length failed_scans |}.

(** The result of [execute]: the ["message"] dictionary or the summary. *)
Inductive NiktoResults : Type :=
| NoWebTargets
| Scanned (summary : ScanSummary).

(** [NiktoScanner.execute] on the hosts of [context["nmap_results"]]. *)
Definition execute (concurrency : Z) (world : nat -> attempt)
    (hosts : list Host) : exc NiktoResults :=
  let targets := _extract_web_targets hosts in
  match targets with
  | [] => Ok NoWebTargets
  | _ => results <~ scan concurrency world targets ;; Ok (Scanned results)
  end.

(** *** The fan-out as a transition system

    A worker waits for the semaphore, holds it without a child process,
    has its child process running, has finished with the child but is
    still inside [async with sem], or is done. *)
Inductive worker : Type :=
| Waiting
| Entered
| ChildRunning
| Leaving
| Finished.

#[export] Instance worker_eq_dec : EqDecision worker.
Proof. solve_decision. Defined.

Record fanout : Type := mkFanout {
  sem_value : nat;
  workers : list worker;
}.

(** The state after [sem = asyncio.Semaphore(self.concurrency)] and the
    creation of one task per target. *)
Definition fanout_init (concurrency : Z) (n : nat) : option fanout :=
  if (concurrency <? 0)%Z then None
  else Some (mkFanout (Z.to_nat concurrency) (replicate n Waiting)).

(** One step of the event loop on worker [i]. *)
Inductive fanout_step : fanout -> fanout -> Prop :=
| step_acquire v ws i :
    ws !! i = Some Waiting ->
    fanout_step (mkFanout (S v) ws) (mkFanout v (<[i := Entered]> ws))
| step_spawn v ws i :
    ws !! i = Some Entered ->
    fanout_step (mkFanout v ws) (mkFanout v (<[i := ChildRunning]> ws))
| step_spawn_fails v ws i :
    ws !! i = Some Entered ->
    fanout_step (mkFanout v ws) (mkFanout v (<[i := Leaving]> ws))
| step_child_exits v ws i :
    ws !! i = Some ChildRunning ->
    fanout_step (mkFanout v ws) (mkFanout v (<[i := Leaving]> ws))
| step_release v ws i :
    ws !! i = Some Leaving ->
    fanout_step (mkFanout v ws) (mkFanout (S v) (<[i := Finished]> ws)).

Inductive fanout_reachable (s0 : fanout) : fanout -> Prop :=
| reach_init : fanout_reachable s0 s0
| reach_step s s' :
    fanout_reachable s0 s -> fanout_step s s' -> fanout_reachable s0 s'.

Definition count_workers (w : worker) (ws : list worker) : nat :=
  List.length (List.filter (fun x => bool_decide (x = w)) ws).

(** The external child processes alive in a state. *)
Definition running_children (s : fanout) : nat :=
  count_workers ChildRunning (workers s).

(** The workers inside their [async with sem] block. *)
Definition holders (s : fanout) : nat :=
  count_workers Entered (workers s) + count_workers ChildRunning (workers s)
  + count_workers Leaving (workers s).

(** *** Invariant and samples *)

(** The invariant of the fan-out: every permit of the semaphore is either
    free or held by a worker inside its [async with sem] block. *)
Definition permits_accounted (cap : nat) (s : fanout) : Prop :=
  holders s + sem_value s = cap.

(** Cap 2, five targets: after the first two workers have spawned their
    children, two children run and no permit is left. *)
Definition two_of_five : fanout :=
  mkFanout 0 [ChildRunning; ChildRunning; Waiting; Waiting; Waiting].

Definition sample_targets : list Target :=
  [mkTarget (Some "10.0.0.1") "80" "http" "http://10.0.0.1:80";
   mkTarget (Some "10.0.0.2") "443" "https" "https://10.0.0.2:443";
   mkTarget (Some "10.0.0.3") "8080" "http" "http://10.0.0.3:8080"].

Definition sample_output : string :=
  "+ Server: Apache/2.4.1 appears to be outdated".

Definition sample_findings : list Finding :=
  [mkFinding "Server" "Apache/2.4.1 appears to be outdated" "low"].

(** Every attempt completes. *)
Definition all_complete (idx : nat) : attempt := Completes sample_output.

(** The attempt of worker 1 fails: the tool is not found. *)
Definition one_not_found (idx : nat) : attempt :=
  if (idx =? 1) then Fails FileNotFoundError else Completes sample_output.

End Nikto.

(** ** The priority score of the vulnerability engine *)

Module Scoring.

(** Modelled from the spec: [nmapai/core/vulnerability_engine.py], which
    holds [VulnerabilityEngine.analyze_vulnerabilities], is not among the
    sources; the factors of a vulnerability and the formula are those of
    the specification, section 4.4, over exact rationals.  A factor that
    is missing is [None]. *)
Record Factors : Type := mkFactors {
  cvss : option Q;
  epss : option Q;
  exploit_available : option Q;
  service_exposure : option Q;
  age_factor : option Q;
}.

Inductive RiskLevel : Type := critical | high | medium | low.

(** Modelled from the spec: a missing factor contributes 0. *)
Definition factor (x : option Q) : Q := default 0%Q x.

(** Modelled from the spec: [clip(x, lo, hi)]. *)
Definition clip (x lo hi : Q) : Q := Qmax lo (Qmin x hi).

(** Modelled from the spec: the weighted sum, with the default weights
    0.35, 0.25, 0.20, 0.10 and 0.10. *)
Definition weighted_sum (f : Factors) : Q :=
  ((35 # 100) * (factor (cvss f) / 10)
   + (25 # 100) * factor (epss f)
   + (20 # 100) * factor (exploit_available f)
   + (10 # 100) * factor (service_exposure f)
   + (10 # 100) * factor (age_factor f))%Q.

(** Modelled from the spec: [priorityScore]. *)
Definition priority_score (f : Factors) : Q :=
  (100 * clip (weighted_sum f) 0 1)%Q.

(** Modelled from the spec: the [riskLevel] buckets. *)
Definition risk_level_of (score : Q) : RiskLevel :=
  if Qle_bool 90 score then critical
  else if Qle_bool 70 score then high
  else if Qle_bool 40 score then medium
  else low.

Definition risk_level (f : Factors) : RiskLevel :=
  risk_level_of (priority_score f).

(** The factors of [f] with every missing one set to 0. *)
Definition filled (f : Factors) : Factors :=
  {| cvss := Some (factor (cvss f));
     epss := Some (factor (epss f));
     exploit_available := Some (factor (exploit_available f));
     service_exposure := Some (factor (service_exposure f));
     age_factor := Some (factor (age_factor f)) |}.

End Scoring.

(** ** The orchestrator: [ScannerManager] *)

Module Orchestrator.
Import PyText Py Vulnerability NmapXml.

(** The lines [ScannerManager] and its plugins print, one constructor per
    [print] call. *)
Inductive event : Type :=
| Starting (targets : nat)
| OutputDirectory
| PhaseNmap
| NmapNotAvailable
| NmapCompleted (hosts : nat)
| NmapFailed (e : exn)
| XmlWarning (w : warning)
| PhaseNikto
| NiktoNotAvailable
| NiktoCompleted (total : nat)
| NoWebServices
| NiktoFailed (e : exn)
| PhaseExtract
| Extracted (unique : nat)
| PhaseEnrich
| NoVulnsToEnrich
| RunningEnricher (name : string)
| EnricherFailed (name : string) (e : exn)
| EnrichmentCompleted
| PhaseAI
| AINotConfigured
| AICompleted (characters : nat)
| AIFailed (e : exn).

#[export] Instance exn_eq_dec : EqDecision exn.
Proof. solve_decision. Defined.
#[export] Instance warning_eq_dec : EqDecision warning.
Proof. solve_decision. Defined.
#[export] Instance event_eq_dec : EqDecision event.
Proof. solve_decision. Defined.

(** Code that prints: its result and the lines printed, in order. *)
Definition run (A : Type) : Type := exc A * list event.

Definition ret {A} (a : A) : run A := (Ok a, []).
Definition say (e : event) : run unit := (Ok tt, [e]).
Definition lift {A} (m : exc A) : run A := (m, []).

Definition bind_run {A B} (m : run A) (k : A -> run B) : run B :=
  match m with
  | (Ok a, out) => let '(r, out') := k a in (r, out ++ out')
  | (Raise e, out) => (Raise e, out)
  | (Blocked, out) => (Blocked, out)
  end.

(** [try: body except Exception as e: handler(e)] *)
Definition try_except {A} (body : run A) (handler : exn -> run A) : run A :=
  match body with
  | (Raise e, out) =>
      if is_Exception e
      then let '(r, out') := handler e in (r, out ++ out')
      else (Raise e, out)
  | other => other
  end.

Notation "x <~~ m ;; k" := (bind_run m (fun x => k))
  (at level 100, m at level 99, right associativity, only parsing).

(** What the nmap plugin meets: building the command, spawning [nmap] and
    draining its streams completes or raises; then the report file. *)
Record NmapWorld : Type := mkNmapWorld {
  nmap_process : exc unit;
  xml_report : xml_file;
}.

(** What the nikto plugin meets. *)
Record NiktoWorld : Type := mkNiktoWorld {
  concurrency : Z;
  attempts : nat -> Nikto.attempt;
}.

(** A plugin whose name ends in [_enricher]. *)
Record Enricher : Type := mkEnricher {
  enricher_name : string;
  enrich : list Vuln -> exc (list Vuln);
}.

(** [NmapScanner.execute]: the ["hosts"] of its result.  The adaptive
    mode returns the hosts as they are. *)
Definition nmap_execute (w : NmapWorld) : run (list Host) :=
  _ <~~ lift (nmap_process w) ;;
  let '(hosts, warnings) := _parse_xml (xml_report w) in
  (hosts, XmlWarning <$> warnings).

Definition is_digit (c : ascii) : bool :=
  match digit_value c with Some _ => true | None => false end.

Fixpoint digits_run (s : string) : nat :=
  match s with
  | String c s' => if is_digit c then S (digits_run s') else 0
  | EmptyString => 0
  end.

(** The length of the match of [CVE-\d{4}-\d+] at the start of [s]. *)
Definition match_cve (s : string) : option nat :=
  if String.prefix "CVE-" s then
    let year := drop_chars 4 s in
    if (4 <=? digits_run (Nikto.take_chars 4 year))
       && String.prefix "-" (drop_chars 4 year)
    then
      let d := digits_run (drop_chars 5 year) in
      if (1 <=? d) then Some (9 + d) else None
    else None
  else None.

(** [re.findall(cve_pattern, s)]; [skip] characters belong to the match
    just found. *)
Fixpoint findall_cve_from (skip : nat) (s : string) : list string :=
  match s with
  | EmptyString => []
  | String _ s' =>
      match skip with
      | S k => findall_cve_from k s'
      | O =>
          match match_cve s with
          | Some len => Nikto.take_chars len s :: findall_cve_from (len - 1) s'
          | None => findall_cve_from 0 s'
          end
      end
  end.

Definition findall_cve (s : string) : list string := findall_cve_from 0 s.

(** Nested [for] loops whose body may raise. *)
Fixpoint flat_mapM {A B} (f : A -> exc (list B)) (l : list A) : exc (list B) :=
  match l with
  | [] => Ok []
  | x :: l' =>
      ys <~ f x ;;
      more <~ flat_mapM f l' ;;
      Ok (ys ++ more)
  end.

(** A dictionary value taken from [d.get(k)]. *)
Definition of_get {A} (x : option A) : field A :=
  match x with Some a => Val a | None => PyNone end.

(** The body of [for script in port.get("scripts", [])]. *)
Definition script_vulns (h : Host) (p : Port) (script : Script)
  : exc (list Vuln) :=
  match script_id script with
  | None => Raise AttributeError
  | Some id =>
      if py_in "cve" (py_lower id) || py_in "vuln" (py_lower id) then
        match output script with
        | None => Raise TypeError
        | Some out =>
            Ok ((fun cve =>
                   {| cve_id := Val cve;
                      host := of_get (ip h);
                      Vulnerability.port := Val (inl (NmapXml.port p));
                      Vulnerability.service :=
                        Val (match NmapXml.service p with
                             | Some s => service_name s
                             | None => ""
                             end);
                      source := Val "nmap_script";
                      description := Missing;
                      cvss_score := Missing;
                      risk_level := Missing |}) <$> findall_cve out)
        end
      else Ok []
  end.

Definition nmap_vulns (hosts : list Host) : exc (list Vuln) :=
  flat_mapM (fun h =>
    flat_mapM (fun p =>
      flat_mapM (script_vulns h p) (default [] (scripts p)))
      (ports h))
    hosts.

(** The body of [for finding in scan.get("findings", [])]. *)
Definition finding_vulns (t : Nikto.Target) (f : Nikto.Finding) : list Vuln :=
  (fun cve =>
     {| cve_id := Val cve;
        host := of_get (Nikto.target_host t);
        Vulnerability.port := Val (inr (Nikto.target_port t));
        Vulnerability.service := Val "http";
        source := Val "nikto";
        description := Val (Nikto.take_chars 200 (Nikto.finding_description f));
        cvss_score := Missing;
        risk_level := Missing |})
  <$> findall_cve (Nikto.finding_description f).

(** The body of [for scan in nikto_scans]; an exception object among the
    scans has no [get]. *)
Definition scan_vulns (scan : exc Nikto.ScanDict) : exc (list Vuln) :=
  match scan with
  | Ok d => Ok (flat_map (finding_vulns (Nikto.scan_target d))
                         (Nikto.scan_findings d))
  | _ => Raise AttributeError
  end.

(** [context.get("nikto_results", {}).get("scans", [])] *)
Definition nikto_scans (nikto_results : option Nikto.NiktoResults)
  : list (exc Nikto.ScanDict) :=
  match nikto_results with
  | Some (Nikto.Scanned summary) => Nikto.scans summary
  | _ => []
  end.

(** [context.get("nmap_results", {}).get("hosts", [])]; [None] is the
    empty dictionary. *)
Definition hosts_of (nmap_results : option (list Host)) : list Host :=
  default [] nmap_results.

Definition _extract_vulnerabilities
    (nmap_results : option (list Host))
    (nikto_results : option Nikto.NiktoResults) : run (list Vuln) :=
  _ <~~ say PhaseExtract ;;
  from_nmap <~~ lift (nmap_vulns (hosts_of nmap_results)) ;;
  from_nikto <~~ lift (flat_mapM scan_vulns (nikto_scans nikto_results)) ;;
  let unique_vulns := Dedup.deduplicate (from_nmap ++ from_nikto) in
  _ <~~ say (Extracted (List.length unique_vulns)) ;;
  ret unique_vulns.

Section Manager.

(** [nmapai/core/vulnerability_engine.py] is not among the sources: the
    two methods [run_scan] calls are parameters. *)
Variable Scored Recommendation : Type.

Record Context : Type := mkContext {
  targets : list string;
  nmap_results : option (list Host);
  nikto_results : option Nikto.NiktoResults;
  vulnerabilities : list Vuln;
  scored_vulnerabilities : list Scored;
  recommendations : list Recommendation;
  ai_analysis : option string;
}.

Variable analyze_vulnerabilities : list Vuln -> Context -> exc (list Scored).
Variable generate_recommendations : list Scored -> exc (list Recommendation).

(** [self.plugins] after [initialize]: the first plugin of each kind,
    and the enrichers in order. *)
Record Plugins : Type := mkPlugins {
  nmap_plugin : option NmapWorld;
  nikto_plugin : option NiktoWorld;
  enrichers : list Enricher;
  ai_plugin : option (exc string);  (* what its [execute] comes to *)
}.

Variable plugins : Plugins.

Definition _run_nmap : run (option (list Host)) :=
  _ <~~ say PhaseNmap ;;
  match nmap_plugin plugins with
  | None => _ <~~ say NmapNotAvailable ;; ret None
  | Some w =>
      try_except
        (hosts <~~ nmap_execute w ;;
         _ <~~ say (NmapCompleted (List.length hosts)) ;;
         ret (Some hosts))
        (fun e => _ <~~ say (NmapFailed e) ;; ret None)
  end.

Definition _run_nikto (nmap_results : option (list Host))
  : run (option Nikto.NiktoResults) :=
  _ <~~ say PhaseNikto ;;
  match nikto_plugin plugins with
  | None => _ <~~ say NiktoNotAvailable ;; ret None
  | Some w =>
      try_except
        (results <~~ lift (Nikto.execute (concurrency w) (attempts w)
                                         (hosts_of nmap_results)) ;;
         _ <~~ say (match results with
                    | Nikto.Scanned s =>
                        match Nikto.scans s with
                        | [] => NoWebServices
                        | _ => NiktoCompleted (Nikto.total s)
                        end
                    | Nikto.NoWebTargets => NoWebServices
                    end) ;;
         ret (Some results))
        (fun e => _ <~~ say (NiktoFailed e) ;; ret None)
  end.

(** The loop over the enrichers; the state is [vulnerabilities]. *)
Fixpoint enrich_loop (es : list Enricher) (vulnerabilities : list Vuln)
  : run (list Vuln) :=
  match es with
  | [] => ret vulnerabilities
  | e :: rest =>
      vulnerabilities' <~~
        try_except
          (_ <~~ say (RunningEnricher (enricher_name e)) ;;
           lift (enrich e vulnerabilities))
          (fun err =>
             _ <~~ say (EnricherFailed (enricher_name e) err) ;;
             ret vulnerabilities) ;;
      enrich_loop rest vulnerabilities'
  end.

Definition _enrich_vulnerabilities (vulnerabilities : list Vuln)
  : run (list Vuln) :=
  _ <~~ say PhaseEnrich ;;
  match vulnerabilities with
  | [] => _ <~~ say NoVulnsToEnrich ;; ret []
  | _ =>
      enriched <~~ enrich_loop (enrichers plugins) vulnerabilities ;;
      _ <~~ say EnrichmentCompleted ;;
      ret enriched
  end.

Definition _run_ai_analysis : run (option string) :=
  _ <~~ say PhaseAI ;;
  match ai_plugin plugins with
  | None => _ <~~ say AINotConfigured ;; ret None
  | Some execute =>
      try_except
        (analysis <~~ lift execute ;;
         _ <~~ say (AICompleted (String.length analysis)) ;;
         ret (Some analysis))
        (fun e => _ <~~ say (AIFailed e) ;; ret None)
  end.

(** [ScannerManager.run_scan] *)
Definition run_scan (targets : list string) : run Context :=
  _ <~~ say (Starting (List.length targets)) ;;
  _ <~~ say OutputDirectory ;;
  nmap_results <~~ _run_nmap ;;
  nikto_results <~~ _run_nikto nmap_results ;;
  vulnerabilities <~~ _extract_vulnerabilities nmap_results nikto_results ;;
  enriched_vulns <~~ _enrich_vulnerabilities vulnerabilities ;;
  let context :=
    {| targets := targets;
       nmap_results := nmap_results;
       nikto_results := nikto_results;
       vulnerabilities := enriched_vulns;
       scored_vulnerabilities := [];
       recommendations := [];
       ai_analysis := None |} in
  scored_vulns <~~ lift (analyze_vulnerabilities enriched_vulns context) ;;
  recommendations <~~ lift (generate_recommendations scored_vulns) ;;
  ai_analysis <~~ _run_ai_analysis ;;
  ret {| targets := targets;
         nmap_results := nmap_results;
         nikto_results := nikto_results;
         vulnerabilities := enriched_vulns;
         scored_vulnerabilities := scored_vulns;
         recommendations := recommendations;
         ai_analysis := ai_analysis |}.

(** The primary scan fails when [NmapScanner.execute] raises. *)
Definition primary_scan_fails (e : exn) : Prop :=
  exists w out,
    nmap_plugin plugins = Some w /\ nmap_execute w = (Raise e, out).

End Manager.

Arguments mkContext {Scored Recommendation}.
Arguments targets {Scored Recommendation} _.
Arguments nmap_results {Scored Recommendation} _.
Arguments nikto_results {Scored Recommendation} _.
Arguments vulnerabilities {Scored Recommendation} _.
Arguments scored_vulnerabilities {Scored Recommendation} _.
Arguments recommendations {Scored Recommendation} _.
Arguments ai_analysis {Scored Recommendation} _.
Arguments run_scan {Scored Recommendation}.

(** *** A failed primary scan: contexts and samples *)

(** The context [run_scan] hands to the engine after a failed primary
    scan. *)
Definition context_without_hosts {Scored Recommendation : Type}
    (targets : list string) (nikto_results : option Nikto.NiktoResults)
  : Context Scored Recommendation :=
  {| targets := targets; nmap_results := None; nikto_results := nikto_results;
     vulnerabilities := []; scored_vulnerabilities := [];
     recommendations := []; ai_analysis := None |}.

(** The AI phase comes to an end: its plugin, if any, returns or raises an
    [Exception]. *)
Definition ai_phase_ends (plugins : Plugins) : Prop :=
  match ai_plugin plugins with
  | Some (Raise e) => is_Exception e = true
  | Some Blocked => False
  | _ => True
  end.

(** An engine with nothing to score, on records without content. *)
Definition no_scores (vulns : list Vuln) (context : Context unit unit)
  : exc (list unit) := Ok [].
Definition no_recommendations (scored : list unit) : exc (list unit) := Ok [].

(** The nmap binary cannot be started; nikto is there. *)
Definition nmap_not_found : Plugins :=
  {| nmap_plugin := Some (mkNmapWorld (Raise FileNotFoundError) NoFile);
     nikto_plugin := Some (mkNiktoWorld 2 (fun _ => Nikto.Completes ""));
     enrichers := [];
     ai_plugin := None |}.

End Orchestrator.

(** ** The stand-alone script: [main_async] of [nmapai.py] *)

Module Cli.
Import Py.

(** The stages that follow the Nmap stage. *)
Inductive stage : Type :=
| Summaries
| NiktoStage
| DursVulnExtraction
| AIAnalysis
| WrapUp.

(** The arguments and the surroundings [main_async] reads. *)
Record CliWorld : Type := mkCliWorld {
  nmap_installed : bool;                  (* [which("nmap")] *)
  nikto_installed : bool;                 (* [which("nikto")] *)
  no_nikto : bool;
  dry_run : bool;
  dursvuln : bool;
  ai : bool;
  target_lines : option (list string);    (* [None]: no targets file *)
  nmap_run : exc Z;                       (* [await nmap.run(...)] *)
  stage_result : stage -> exc unit;       (* what a later stage comes to *)
}.

(** A run of the script: its outcome and the later stages it entered. *)
Definition enter (w : CliWorld) (st : stage) (k : exc unit * list stage)
  : exc unit * list stage :=
  match stage_result w st with
  | Ok _ => let '(r, entered) := k in (r, st :: entered)
  | Raise e => (Raise e, [st])
  | Blocked => (Blocked, [st])
  end.

Definition enter_if (b : bool) (w : CliWorld) (st : stage)
    (k : exc unit * list stage) : exc unit * list stage :=
  if b then enter w st k else k.

Definition later_stages (w : CliWorld) (no_nikto' : bool)
  : exc unit * list stage :=
  enter w Summaries
    (enter_if (negb no_nikto' && negb (dry_run w)) w NiktoStage
      (enter_if (dursvuln w && negb (dry_run w)) w DursVulnExtraction
        (enter_if (ai w && negb (dry_run w)) w AIAnalysis
          (enter w WrapUp (Ok tt, []))))).

Definition main_async (w : CliWorld) : exc unit * list stage :=
  if negb (nmap_installed w)
  then (Raise (SystemExit "[!] Missing dependency: nmap. Install Nmap from https://nmap.org/download.html"), [])
  else
    let no_nikto' := no_nikto w || negb (nikto_installed w) in
    match target_lines w with
    | None => (Raise (SystemExit "[!] Targets file not found"), [])
    | Some [] => (Raise (SystemExit "[!] No valid targets in file."), [])
    | Some _ =>
        match nmap_run w with
        | Ok rc =>
            if bool_decide (rc ≠ 0%Z)
            then (Raise (SystemExit ("[!] Nmap failed with exit code "
                                     +:+ pretty rc)), [])
            else later_stages w no_nikto'
        | Raise e => (Raise e, [])
        | Blocked => (Blocked, [])
        end
    end.

(** *** Samples *)

(** A run of the script whose nmap exits with code 1. *)
Definition nmap_exits_1 : CliWorld :=
  {| nmap_installed := true; nikto_installed := true;
     no_nikto := false; dry_run := false; dursvuln := false;
     ai := false; target_lines := Some ["10.0.0.0/24"];
     nmap_run := Ok 1%Z; stage_result := fun _ => Ok tt |}.

End Cli.

(** ** Runs of the fan-out *)

Module FanoutRuns.
Import Nikto.

(** The steps a worker still has to take, at most. *)
Definition steps_left (w : worker) : nat :=
  match w with
  | Waiting => 4
  | Entered => 3
  | ChildRunning => 2
  | Leaving => 1
  | Finished => 0
  end.

Definition work_left (s : fanout) : nat :=
  list_sum (steps_left <$> workers s).

(** A run of [k] steps of the event loop. *)
Inductive fanout_run (s0 : fanout) : nat -> fanout -> Prop :=
| run_start : fanout_run s0 0 s0
| run_step k s s' :
    fanout_run s0 k s -> fanout_step s s' -> fanout_run s0 (S k) s'.

(** Every task has returned: [gather] has its results. *)
Definition all_finished (s : fanout) : Prop :=
  Forall (fun w => w = Finished) (workers s).

End FanoutRuns.

(** ** The seen-set loop, for any key *)

Module SeenLoop.

Section Loop.
Context {A K : Type} `{Countable K} (key : A -> K).

(** One iteration of [for x in xs: if key not in seen: seen.add(key);
    unique.append(x)]. *)
Definition seen_step (st : gset K * list A) (x : A) : gset K * list A :=
  let '(seen, unique) := st in
  if decide (key x ∈ seen) then st
  else ({[key x]} ∪ seen, unique ++ [x]).

(** The loop read as a recursion. *)
Fixpoint keep_fresh (seen : gset K) (l : list A) : list A :=
  match l with
  | [] => []
  | x :: rest =>
      if decide (key x ∈ seen) then keep_fresh seen rest
      else x :: keep_fresh ({[key x]} ∪ seen) rest
  end.

End Loop.

End SeenLoop.

(** ** Findings and targets of the web scanner: reading predicates *)

Module NiktoReading.
Import PyText Nikto.

(** The keywords of [_parse_nikto_output], in the order they are tried. *)
Definition all_keywords : list string :=
  ["critical"; "dangerous"; "exploit"; "vulnerable"; "security"; "risk";
   "warning"; "outdated"].

(** The f-string of the [url] key. *)
Definition url_of (t : Target) : string :=
  target_scheme t +:+ "://" +:+ py_str (target_host t) +:+ ":" +:+ target_port t.

End NiktoReading.

(** ** Extracted identifiers: reading predicates *)

Module ExtractReading.
Import Py Vulnerability Orchestrator.

(** The whole of [m] is one match of [CVE-\d{4}-\d+]. *)
Definition is_cve_id (m : string) : Prop := match_cve m = Some (String.length m).

(** A record as [_extract_vulnerabilities] builds them: an identifier, a
    host key that is present, and one of the two sources. *)
Definition extracted_record (v : Vuln) : Prop :=
  (exists cve, cve_id v = Val cve /\ is_cve_id cve)
  /\ host v <> Missing
  /\ (source v = Val "nmap_script" \/ source v = Val "nikto").

End ExtractReading.

(** ** Phases: reading predicates and samples *)

Module PhaseReading.
Import Py Vulnerability Orchestrator.

(** A phase lets no [Exception] out: what it raises, if anything, is not
    an instance of [Exception]. *)
Definition contained {A} (r : run A) : Prop :=
  match fst r with
  | Raise e => is_Exception e = false
  | _ => True
  end.


(** An enricher that answers with the list as it is, and one whose
    [execute] raises. *)
Definition passing_enricher : Enricher :=
  mkEnricher "epss_enricher" (fun l => Ok l).
Definition unreachable_enricher : Enricher :=
  mkEnricher "exploitdb_enricher"
             (fun _ => Raise (RuntimeError "connection refused")).

Definition two_enrichers : Plugins :=
  {| nmap_plugin := None; nikto_plugin := None;
     enrichers := [passing_enricher; unreachable_enricher];
     ai_plugin := None |}.

(** A host whose https port has a script output naming two identifiers,
    and the records extracted from it. *)
Definition vulners_host : NmapXml.Host :=
  {| NmapXml.ip := Some "192.168.1.1"; NmapXml.hostname := None;
     NmapXml.ports :=
       [{| NmapXml.port := 443; NmapXml.protocol := Some "tcp";
           NmapXml.state := Some "open";
           NmapXml.service := Some (NmapXml.mkService "https" None None None);
           NmapXml.scripts :=
             Some [NmapXml.mkScript (Some "vulners")
                     (Some "CVE-2021-44228 CVE-2022-1234 CVE-2021-44228")] |}];
     NmapXml.os := None; NmapXml.host_state := "up" |}.

Definition vulners_record (cve : string) : Vuln :=
  {| cve_id := Val cve; host := Val "192.168.1.1";
     port := Val (inl 443%Z); service := Val "https";
     source := Val "nmap_script"; description := Missing;
     cvss_score := Missing; risk_level := Missing |}.

End PhaseReading.

(** ** Sorting into a set: [sorted(set(xs))] for any comparison *)

Module SortedSet.

(** The order of Python tuples: the first component that differs
    decides. *)
Definition lex (c1 c2 : comparison) : comparison :=
  match c1 with
  | Eq => c2
  | o => o
  end.

Definition compare_pair {A B} (ca : A -> A -> comparison)
    (cb : B -> B -> comparison) (x y : A * B) : comparison :=
  lex (ca x.1 y.1) (cb x.2 y.2).

(** A comparison that decides equality and is a strict total order. *)
Record strict_compare {T} (cmp : T -> T -> comparison) : Prop := {
  cmp_eq : forall x y, cmp x y = Eq <-> x = y;
  cmp_antisym : forall x y, cmp y x = CompOpp (cmp x y);
  cmp_trans : forall x y z, cmp x y = Lt -> cmp y z = Lt -> cmp x z = Lt;
}.

Section Insert.
Context {T : Type} (cmp : T -> T -> comparison).

Fixpoint insert_by (r : T) (l : list T) : list T :=
  match l with
  | [] => [r]
  | x :: l' =>
      match cmp r x with
      | Lt => r :: l
      | Eq => l
      | Gt => x :: insert_by r l'
      end
  end.

Definition sorted_set_by (xs : list T) : list T := foldr insert_by [] xs.

Definition lt_by (x y : T) : Prop := cmp x y = Lt.

End Insert.

End SortedSet.

(** ** The targets file and the AI corpus of [nmapai.py] *)

Module Script.
Import PyText.

(** [read_nonempty_lines], on the lines of the file as iteration yields
    them. *)
Definition read_nonempty_lines (raws : list string) : list string :=
  flat_map
    (fun raw =>
       let s := strip raw in
       if String.eqb s "" || String.prefix "#" s then [] else [s])
    raws.

(** [s[i:j]] for [0 <= i <= j]. *)
Definition slice (i j : nat) (s : string) : string :=
  Nikto.take_chars (j - i) (drop_chars i s).

(** The number of values of [range(0, stop, step)]. *)
Definition range_count (stop step : nat) : nat := (stop + step - 1) / step.

(** [range(0, stop, step)] for a positive [step]. *)
Definition range_step (stop step : nat) : list nat :=
  (fun k => k * step) <$> seq 0 (range_count stop step).

(** [parts] of [ai_analyze] for a chunk size: one slice per value of
    [range(0, len(blob), CHUNK)]. *)
Definition chunk_parts (chunk : nat) (blob : string) : list string :=
  (fun i => slice i (i + chunk) blob) <$> range_step (String.length blob) chunk.

Definition CHUNK : nat := 14 * 1000.

(** The text [ai_analyze] writes to [analysis_corpus.txt] and reads back:
    the normal report, when it can be read, and the DursVuln summary, when
    that file exists. *)
Definition corpus (nmap_normal durs_summary : option string) : string :=
  "=== NMAP (.nmap) ===" +:+ String newline ""
  +:+ default "" nmap_normal
  +:+ match durs_summary with
      | Some ds =>
          String newline (String newline "=== DursVuln Summary ===")
          +:+ String newline "" +:+ ds
      | None => ""
      end.

(** The chunks sent to the model, one request each. *)
Definition ai_parts (nmap_normal durs_summary : option string) : list string :=
  chunk_parts CHUNK (corpus nmap_normal durs_summary).

End Script.

(** ** The DursVuln summary of [nmapai.py] *)

Module DursVuln.
Import PyText.

Definition is_report (line : string) : bool :=
  String.prefix "Nmap scan report for" line.

(** [re.search(r"dursvuln", line, flags=re.I)] *)
Definition mentions_dursvuln (line : string) : bool :=
  py_in "dursvuln" (py_lower line).

(** [re.match(r"^\s", line) or line.startswith("|")] *)
Definition continues (line : string) : bool :=
  match line with
  | String c _ => py_isspace c || Ascii.eqb c "|"
  | EmptyString => false
  end.

Definition with_newline (line : string) : string := line +:+ String newline "".

Definition open_fence : string := with_newline "```".
Definition close_fence : string := with_newline (with_newline "```").
Definition title : string := with_newline "# DursVuln Findings".
Definition generated_line (now : string) : string :=
  String newline "_Generated: " +:+ now +:+ with_newline (with_newline "_").
Definition markdown_header (host_hdr : string) : string :=
  "## " +:+ host_hdr +:+ with_newline (with_newline "").
Definition no_output : string :=
  with_newline "_No DursVuln script output detected in normal report._".

(** The variables of the loop.  [host_hdr] is [None] or a report line,
    which is never empty, so [if host_hdr] tests for [None]. *)
Record state := {
  buf : list string;
  inblock : bool;
  saw_any : bool;
  host_hdr : option string;
}.

(** One iteration of [for line in content]. *)
Definition step (st : state) (line : string) : state :=
  let hdr := if is_report line then Some line else host_hdr st in
  if mentions_dursvuln line then
    {| buf := buf st
              ++ match hdr with
                 | Some h => [markdown_header h]
                 | None => []
                 end
              ++ [open_fence; with_newline line];
       inblock := true; saw_any := true; host_hdr := None |}
  else if inblock st then
    if String.eqb (strip line) "" || is_report line then
      {| buf := buf st ++ [close_fence];
         inblock := false; saw_any := saw_any st; host_hdr := hdr |}
    else if continues line then
      {| buf := buf st ++ [with_newline line];
         inblock := true; saw_any := saw_any st; host_hdr := hdr |}
    else
      {| buf := buf st ++ [close_fence];
         inblock := false; saw_any := saw_any st; host_hdr := hdr |}
  else
    {| buf := buf st; inblock := false; saw_any := saw_any st;
       host_hdr := hdr |}.

Definition start (now : string) : state :=
  {| buf := [title; generated_line now];
     inblock := false; saw_any := false; host_hdr := None |}.

(** [buf] as it is joined: [now] is the time stamp, [content] the lines
    of the normal report. *)
Definition final_buf (now : string) (content : list string) : list string :=
  let st := fold_left step content (start now) in
  let closed := if inblock st then buf st ++ [close_fence] else buf st in
  if saw_any st then closed else [no_output].

(** [extract_dursvuln_blocks]: the text written to [dursvuln_summary.md];
    nothing is written when the report is missing or empty ([None]). *)
Definition extract_dursvuln_blocks
    (now : string) (report : option (list string)) : option string :=
  String.concat "" ∘ final_buf now <$> report.

Definition occurrences (x : string) (l : list string) : nat :=
  List.length (List.filter (String.eqb x) l).

(** What the loop maintains, for the lines [seen] so far and the part
    [body] of [buf] after its two heading entries. *)
Definition invariant
    (now : string) (seen : list string) (st : state) (body : list string) : Prop :=
  buf st = title :: generated_line now :: body
  /\ occurrences open_fence body = List.length (List.filter mentions_dursvuln seen)
  /\ occurrences close_fence body + (if inblock st then 1 else 0)
     <= occurrences open_fence body
  /\ saw_any st = existsb mentions_dursvuln seen
  /\ (if inblock st then saw_any st = true
      else saw_any st = true -> last body = Some close_fence)
  /\ Forall (fun x =>
               x = open_fence \/ x = close_fence
               \/ exists line, line ∈ seen
                    /\ (x = with_newline line
                        \/ x = markdown_header line /\ is_report line = true))
            body
  /\ (forall line, line ∈ seen -> mentions_dursvuln line = true ->
        with_newline line ∈ body)
  /\ (forall h, host_hdr st = Some h -> h ∈ seen /\ is_report h = true).

(** Two matching lines in a row, as a table of script output has them. *)
Definition adjacent_matches : list string :=
  ["Nmap scan report for 10.0.0.5"; "80/tcp open http";
   "| dursvuln: "; "|   CVE-2021-41773 (dursvuln db)"; "|_  done"; ""].

End DursVuln.

(** ** [NiktoRunner] of [nmapai.py] *)

Module NiktoRunner.
Import PyText SortedSet.

(** [(host, port, svc)] *)
Definition target : Type := string * string * string.

Definition web_ports : list string :=
  ["80"; "443"; "8080"; "8000"; "8001"; "8888"; "8443"; "5000"].

(** The body of the loop over [csv.reader(f)]. *)
Definition row_targets (row : list string) : list target :=
  match row with
  | host :: port :: _ :: svc0 :: _ =>
      let svc := py_lower svc0 in
      if py_in "http" svc || bool_decide (port ∈ web_ports)
      then [(host, port, svc)] else []
  | _ => []
  end.

Definition target_compare : target -> target -> comparison :=
  compare_pair (compare_pair String.compare String.compare) String.compare.

(** [self.targets] after [_detect_targets]; [None] is a summary that is
    missing or empty. *)
Definition _detect_targets (csv : option (list (list string))) : list target :=
  match csv with
  | None => []
  | Some rows => sorted_set_by target_compare (flat_map row_targets rows)
  end.

(** [scheme] of [_run_one]. *)
Definition scheme (port svc : string) : string :=
  if bool_decide (port ∈ ["443"; "8443"]) || py_in "https" svc || py_in "ssl" svc
  then "https" else "http".


(** The summary row of an open port of the inventory. *)
Definition row_of (host proto : string) (p : NmapXml.Port) : list string :=
  [host; pretty (NmapXml.port p); proto;
   match NmapXml.service p with
   | Some s => NmapXml.service_name s
   | None => ""
   end].

End NiktoRunner.

(** ** The nmap command line: [NmapRunner.build_cmd] of [nmapai.py] and
    [NmapScanner._build_command] *)

Module NmapCommand.
Import Py.

(** The parameter text may hold typographic dashes, which lie beyond the
    code points of [string]: it is a sequence of code points. *)
Definition text : Type := list N.

Definition em_dash : N := 8212.
Definition en_dash : N := 8211.
Definition hyphen : N := 45.

(** [s.replace(c, "--")] for a one-character [c]. *)
Definition replace_char (c : N) (s : text) : text :=
  flat_map (fun x => if (x =? c)%N then [hyphen; hyphen] else [x]) s.

Definition normalize_dashes (s : text) : text :=
  replace_char en_dash (replace_char em_dash s).

Definition is_dash (x : N) : bool := (x =? em_dash)%N || (x =? en_dash)%N.

(** [x if x else None] for an optional text: the empty text is false. *)
Definition truthy (x : option string) : option string :=
  match x with
  | Some "" => None
  | _ => x
  end.

Definition output_options (out_normal out_grep out_xml : string) : list string :=
  ["--stats-every"; "2s"; "-oN"; out_normal; "-oG"; out_grep;
   "-oX"; out_xml; "-v"].

(** The list [args] / [script_args], from the three settings that are
    true. *)
Definition script_args (db min_severity output : option string) : list string :=
  match db with Some d => ["db_path=" +:+ d] | None => [] end
  ++ match min_severity with Some m => ["min_severity=" +:+ m] | None => [] end
  ++ match output with Some o => ["dursvuln.output=" +:+ o] | None => [] end.

(** [if args: base += ["--script-args", ",".join(args)]] *)
Definition script_args_option (args : list string) : list string :=
  match args with
  | [] => []
  | _ => ["--script-args"; String.concat "," args]
  end.

(** The fields of [NmapRunner] the command is built from.  Paths are held
    as the text [str] gives for them; [script_exists] is the answer of
    [durs_script.exists()]. *)
Record NmapRunner : Type := mkRunner {
  targets_file : string;
  out_normal : string;
  out_grep : string;
  out_xml : string;
  nmap_params : text;
  enable_durs : bool;
  use_global_script : bool;
  durs_script : option string;
  script_exists : bool;
  durs_db : option string;
  durs_min : option string;
  durs_output : string;
}.

(** The [dursvuln] dictionary of the plugin's parameters, with [get]
    applied to each key. *)
Record DursConfig : Type := mkDursConfig {
  enabled : bool;
  use_global : bool;
  script_path : option string;
  db_path : option string;
  min_severity : option string;
  output_mode : option string;
}.

Section Build.
(** [shlex.split], which raises [ValueError] on an unbalanced quote. *)
Context (shlex_split : text -> exc (list string)).

(** [NmapRunner.__init__], as far as the parameter text goes:
    [normalize_dashes(nmap_params or "")]. *)
Definition with_params (params : option text) (r : NmapRunner) : NmapRunner :=
  mkRunner (targets_file r) (out_normal r) (out_grep r) (out_xml r)
           (normalize_dashes (default [] params))
           (enable_durs r) (use_global_script r) (durs_script r)
           (script_exists r) (durs_db r) (durs_min r) (durs_output r).

Definition not_found : string :=
  "[!] DursVuln enabled but NSE script not found. Use --dursvuln-global or --dursvuln-script PATH".

Definition build_cmd (r : NmapRunner) : exc (list string) :=
  extra <~ shlex_split (nmap_params r) ;;
  let base :=
    ["nmap"; "-iL"; targets_file r] ++ extra
    ++ output_options (out_normal r) (out_grep r) (out_xml r) in
  if enable_durs r then
    script <~ (if use_global_script r then Ok ["--script"; "dursvuln"]
               else match durs_script r with
                    | Some path =>
                        if script_exists r then Ok ["--script"; path]
                        else Raise (SystemExit not_found)
                    | None => Raise (SystemExit not_found)
                    end) ;;
    let args :=
      script_args (durs_db r) (truthy (durs_min r))
                  (truthy (Some (durs_output r))) in
    Ok (base ++ script ++ script_args_option args)
  else Ok base.

(** [_build_command]; [targets_temp] is the text of
    [out_normal.parent / "targets_temp.txt"]. *)
Definition _build_command
    (targets_temp : string) (params : text) (dursvuln_config : DursConfig)
    (out_normal out_grep out_xml : string) : exc (list string) :=
  extra <~ shlex_split (normalize_dashes params) ;;
  let cmd :=
    ["nmap"; "-iL"; targets_temp] ++ extra
    ++ output_options out_normal out_grep out_xml in
  if enabled dursvuln_config then
    let script :=
      if use_global dursvuln_config then ["--script"; "dursvuln"]
      else match truthy (script_path dursvuln_config) with
           | Some path => ["--script"; path]
           | None => []
           end in
    let args :=
      script_args (truthy (db_path dursvuln_config))
                  (truthy (min_severity dursvuln_config))
                  (truthy (output_mode dursvuln_config)) in
    Ok (cmd ++ script ++ script_args_option args)
  else Ok cmd.

(** The plugin configuration that carries the settings of a runner. *)
Definition plugin_config (r : NmapRunner) : DursConfig :=
  mkDursConfig (enable_durs r) (use_global_script r) (durs_script r)
               (durs_db r) (durs_min r) (Some (durs_output r)).

End Build.

(** A splitter for the samples: one token per run of code points other
    than the space. *)
Fixpoint words_aux (cur : string) (s : text) : list string :=
  match s with
  | [] => PyText.flush cur []
  | x :: s' =>
      if (x =? 32)%N then PyText.flush cur (words_aux "" s')
      else words_aux (String (ascii_of_N x) cur) s'
  end.

Definition words (s : text) : exc (list string) := Ok (words_aux "" s).

Definition sample_runner : NmapRunner :=
  mkRunner "out/targets_clean.txt" "out/nmap_results.nmap"
           "out/nmap_results.gnmap" "out/nmap_results.xml"
           [] true false (Some "dursvuln.nse") true (Some "cve-main.json")
           (Some "HIGH") "concise".

(** [-sV —open]: the second option typed with an em dash. *)
Definition sample_params : text := [45; 115; 86; 32; 8212; 111; 112; 101; 110]%N.

End NmapCommand.

(** ** The enrichers: [NVDEnricher.enrich] and [EPSSEnricher.enrich] *)

Module Enrichers.
Import Py Vulnerability Dedup.

(** The keys of the dictionary [_fetch_cve] returns that [enrich] reads;
    each may hold [None]. *)
Record NvdData : Type := mkNvdData {
  nvd_description : option string;
  nvd_cvss_score : option Q;
  nvd_severity : option string;
}.

(** A vulnerability dictionary with the keys the two enrichers add. *)
Record Entry : Type := mkEntry {
  vuln : Vuln;
  nvd_data : field NvdData;
  severity : field string;
  epss_score : field Q;
  epss_percentile : field Q;
  epss_date : field string;
}.

(** [d[k] = x] for an [x] that may be [None]. *)
Definition stored {A} (x : option A) : field A :=
  match x with
  | Some a => Val a
  | None => PyNone
  end.

(** [vuln.get("cve_id") or vuln.get("id")]: no producer of these
    dictionaries sets the key ["id"]. *)
Definition cve_of (e : Entry) : option string :=
  match get (cve_id (vuln e)) with
  | Some "" | None => None
  | Some c => Some c
  end.

(** The identifier looked up for an entry: [cve_id and
    cve_id.startswith("CVE-")]. *)
Definition wanted (e : Entry) : option string :=
  match cve_of e with
  | Some c => if String.prefix "CVE-" c then Some c else None
  | None => None
  end.

(** What [await asyncio.sleep(delay)] comes to: it raises nothing but a
    cancellation. *)
Inductive pause : Type := Resumed | Cancelled | NeverResumed.

Definition after_pause {A} (p : pause) (a : A) : exc A :=
  match p with
  | Resumed => Ok a
  | Cancelled => Raise CancelledError
  | NeverResumed => Blocked
  end.

(** The NVD service: the answer of the [n]-th call of [_fetch_cve], and
    the pause that follows it. *)
Record NvdWorld : Type := mkNvdWorld {
  fetch : nat -> string -> exc (option NvdData);
  sleep : nat -> pause;
}.

(** [self.cache], with a log of the calls of [_fetch_cve] (the identifier
    and whether data came back) and of the warnings printed. *)
Record NvdState : Type := mkNvdState {
  cache : gmap string NvdData;
  requests : list (string * bool);
  warnings : list (string * exn);
}.

Definition with_cached (d : NvdData) (e : Entry) : Entry :=
  mkEntry (vuln e) (Val d) (severity e)
          (epss_score e) (epss_percentile e) (epss_date e).

Definition with_fetched (d : NvdData) (e : Entry) : Entry :=
  let v := vuln e in
  mkEntry (mkVuln (cve_id v) (host v) (port v) (service v) (source v)
                  (stored (nvd_description d)) (stored (nvd_cvss_score d))
                  (risk_level v))
          (Val d) (stored (nvd_severity d))
          (epss_score e) (epss_percentile e) (epss_date e).

(** One iteration of [for vuln in vulnerabilities]: the entry as it is
    appended to [enriched]. *)
Definition nvd_step (w : NvdWorld) (st : NvdState) (e : Entry)
  : NvdState * exc Entry :=
  match wanted e with
  | None => (st, Ok e)
  | Some cve =>
      match cache st !! cve with
      | Some d => (st, Ok (with_cached d e))
      | None =>
          let n := List.length (requests st) in
          match fetch w n cve with
          | Ok (Some d) =>
              (mkNvdState (<[cve := d]> (cache st))
                          (requests st ++ [(cve, true)]) (warnings st),
               after_pause (sleep w n) (with_fetched d e))
          | Ok None =>
              (mkNvdState (cache st) (requests st ++ [(cve, false)])
                          (warnings st),
               after_pause (sleep w n) e)
          | Raise err =>
              if is_Exception err then
                (mkNvdState (cache st) (requests st ++ [(cve, false)])
                            (warnings st ++ [(cve, err)]),
                 Ok e)
              else
                (mkNvdState (cache st) (requests st ++ [(cve, false)])
                            (warnings st),
                 Raise err)
          | Blocked =>
              (mkNvdState (cache st) (requests st ++ [(cve, false)])
                          (warnings st),
               Blocked)
          end
      end
  end.

(** [NVDEnricher.enrich] *)
Fixpoint nvd_enrich (w : NvdWorld) (st : NvdState) (vulnerabilities : list Entry)
  : NvdState * exc (list Entry) :=
  match vulnerabilities with
  | [] => (st, Ok [])
  | e :: rest =>
      match nvd_step w st e with
      | (st1, Ok e') =>
          match nvd_enrich w st1 rest with
          | (st2, Ok enriched) => (st2, Ok (e' :: enriched))
          | r => r
          end
      | (st1, Raise err) => (st1, Raise err)
      | (st1, Blocked) => (st1, Blocked)
      end
  end.

(** How [enrich] may leave an entry, given the cache at the end. *)
Definition nvd_outcome (final : gmap string NvdData) (e e' : Entry) : Prop :=
  e' = e
  \/ exists c d, wanted e = Some c /\ final !! c = Some d
                 /\ (e' = with_cached d e \/ e' = with_fetched d e).

(** The identifiers answered with data in a log of requests. *)
Definition answered (log : list (string * bool)) : list string :=
  fst <$> List.filter snd log.

(** An entry made of an extracted record. *)
Definition entry_of (v : Vuln) : Entry :=
  mkEntry v Missing Missing Missing Missing Missing.

Definition log4shell_data : NvdData :=
  mkNvdData (Some "Apache Log4j2 JNDI features do not protect against attacker controlled LDAP")
            (Some (10 # 1)) (Some "CRITICAL").

(** A service that knows Log4Shell only. *)
Definition log4shell_only : NvdWorld :=
  mkNvdWorld
    (fun _ cve => if String.eqb cve "CVE-2021-44228"
                  then Ok (Some log4shell_data) else Ok None)
    (fun _ => Resumed).

Definition empty_state : NvdState := mkNvdState ∅ [] [].

Definition cached_state : NvdState :=
  mkNvdState {[ "CVE-2021-44228" := log4shell_data ]} [] [].

(** The same identifier on two hosts. *)
Definition two_hosts : list Entry :=
  [entry_of (mkVuln (Val "CVE-2021-44228") (Val "10.0.0.5") (Val (inl 8080%Z))
                    (Val "http") (Val "nmap_script") Missing Missing Missing);
   entry_of (mkVuln (Val "CVE-2021-44228") (Val "10.0.0.6") (Val (inl 8080%Z))
                    (Val "http") (Val "nmap_script") Missing Missing Missing)].

End Enrichers.

(** ** The NVD enricher as a plugin of the manager *)

Module NvdPlugin.
Import Py Vulnerability Enrichers Orchestrator.

(** [NVDEnricher.execute] on the dictionaries the extraction built, seen
    through the keys of [Vuln]. *)
Definition execute (w : NvdWorld) (st : NvdState) (vulnerabilities : list Vuln)
  : exc (list Vuln) :=
  match vulnerabilities with
  | [] => Ok []
  | _ =>
      enriched <~ snd (nvd_enrich w st (entry_of <$> vulnerabilities)) ;;
      Ok (vuln <$> enriched)
  end.



(** A service that cannot be reached. *)
Definition unreachable : NvdWorld :=
  mkNvdWorld (fun _ _ => Raise (RuntimeError "connection refused"))
             (fun _ => Resumed).

End NvdPlugin.

(** ** The EPSS enricher *)

Module Epss.
Import Py Vulnerability Enrichers.

(** The dictionary stored per identifier. *)
Record EpssInfo : Type := mkEpssInfo {
  epss : Q;
  percentile : Q;
  date : option string;
}.

(** One element of the ["data"] list of a response: its ["cve"], and the
    dictionary built from it; [None] when a [float] conversion raises. *)
Record Score : Type := mkScore {
  score_cve : option string;
  score_info : option EpssInfo;
}.

(** What a request comes to: a status other than 200, a list of scores, an
    exception on the way, or no answer at all. *)
Inductive response : Type :=
| Status (code : Z)
| Data (scores : list Score)
| Failed (err : exn)
| NoAnswer.

(** The EPSS service: the answer to the [i]-th batch, and the pause that
    follows a batch that was stored. *)
Record EpssWorld : Type := mkEpssWorld {
  respond : nat -> list string -> response;
  epss_sleep : nat -> pause;
}.

Definition batch_size : nat := 30.

(** The slices [l[i:i + size]] for [i] in [range(0, len(l), size)]. *)
Definition batches {A} (size : nat) (l : list A) : list (list A) :=
  (fun i => take size (drop i l)) <$> Script.range_step (List.length l) size.

(** The loop over [scores]: the data stored, and whether the loop came to
    its end. *)
Fixpoint store_scores (all_data : gmap string EpssInfo) (scores : list Score)
  : gmap string EpssInfo * bool :=
  match scores with
  | [] => (all_data, true)
  | s :: rest =>
      match score_cve s with
      | None | Some "" => store_scores all_data rest
      | Some cve =>
          match score_info s with
          | Some info => store_scores (<[cve := info]> all_data) rest
          | None => (all_data, false)
          end
      end
  end.

(** The loop over the batches, from the [i]-th on: the batches requested
    and the data, when the loop returns. *)
Fixpoint fetch_batches (w : EpssWorld) (i : nat)
    (all_data : gmap string EpssInfo) (todo : list (list string))
  : list (list string) * exc (gmap string EpssInfo) :=
  match todo with
  | [] => ([], Ok all_data)
  | batch :: rest =>
      let continue data :=
        let '(log, r) := fetch_batches w (S i) data rest in
        (batch :: log, r) in
      match respond w i batch with
      | Status _ => continue all_data
      | Data scores =>
          match store_scores all_data scores with
          | (stored, true) =>
              match epss_sleep w i with
              | Resumed => continue stored
              | Cancelled => ([batch], Raise CancelledError)
              | NeverResumed => ([batch], Blocked)
              end
          | (stored, false) => continue stored
          end
      | Failed err =>
          if is_Exception err then continue all_data
          else ([batch], Raise err)
      | NoAnswer => ([batch], Blocked)
      end
  end.

Definition _fetch_epss_batch (w : EpssWorld) (cve_ids : list string)
  : list (list string) * exc (gmap string EpssInfo) :=
  fetch_batches w 0 ∅ (batches batch_size cve_ids).

(** The body of the second loop of [enrich]. *)
Definition with_epss (epss_data : gmap string EpssInfo) (e : Entry) : Entry :=
  match cve_of e with
  | Some cve =>
      match epss_data !! cve with
      | Some info =>
          mkEntry (vuln e) (nvd_data e) (severity e)
                  (Val (epss info)) (Val (percentile info))
                  (stored (date info))
      | None => e
      end
  | None => e
  end.

(** [EPSSEnricher.enrich]: the batches requested and the list returned. *)
Definition epss_enrich (w : EpssWorld) (vulnerabilities : list Entry)
  : list (list string) * exc (list Entry) :=
  match omap wanted vulnerabilities with
  | [] => ([], Ok vulnerabilities)
  | cve_ids =>
      let '(log, r) := _fetch_epss_batch w cve_ids in
      (log, epss_data <~ r ;; Ok (with_epss epss_data <$> vulnerabilities))
  end.

(** A service that scores Log4Shell, whatever it is asked. *)
Definition log4shell_scores : EpssWorld :=
  mkEpssWorld
    (fun _ _ => Data [mkScore (Some "CVE-2021-44228")
                              (Some (mkEpssInfo (97 # 100) (99 # 100)
                                                (Some "2024-01-01")))])
    (fun _ => Resumed).

End Epss.

(** ** [ScannerManager.initialize] and the look-up of plugins by name *)

Module Initialize.
Import Py PyText.

Inductive plugin : Type :=
| NmapScanner
| NiktoScanner
| OpenAIProvider
| AnthropicProvider
| OllamaProvider
| NVDEnricher
| EPSSEnricher
| ExploitDBEnricher.

(** The keys [initialize] reads, each as the truth value it holds, or
    [None] when the key is missing. *)
Record Config : Type := mkConfig {
  nmap_enabled : option bool;
  nikto_enabled : option bool;
  ai_enabled : option bool;
  ai_provider : option string;
  nvd_enabled : option bool;
  epss_enabled : option bool;
  exploitdb_enabled : option bool;
}.

(** [s.endswith(suffix)] *)
Definition py_endswith (suffix s : string) : bool :=
  String.prefix (String.rev suffix) (String.rev s).

Definition when {A} (b : bool) (x : A) : list A := if b then [x] else [].

Section Names.
(** The name of the ExploitDB enricher, whose module is not part of the
    sources at hand. *)
Context (exploitdb_name : string).

Definition name (p : plugin) : string :=
  match p with
  | NmapScanner => "nmap_scanner"
  | NiktoScanner => "nikto_scanner"
  | OpenAIProvider => "openai_provider"
  | AnthropicProvider => "anthropic_provider"
  | OllamaProvider => "ollama_provider"
  | NVDEnricher => "nvd_enricher"
  | EPSSEnricher => "epss_enricher"
  | ExploitDBEnricher => exploitdb_name
  end.

(** [self.plugins] once the plugins are appended. *)
Definition plugins (c : Config) : list plugin :=
  when (default true (nmap_enabled c)) NmapScanner
  ++ when (default true (nikto_enabled c)) NiktoScanner
  ++ (if default false (ai_enabled c) then
        let provider_type := default "openai" (ai_provider c) in
        if String.eqb provider_type "openai" then [OpenAIProvider]
        else if String.eqb provider_type "anthropic" then [AnthropicProvider]
        else if String.eqb provider_type "ollama" then [OllamaProvider]
        else []
      else [])
  ++ when (default true (nvd_enabled c)) NVDEnricher
  ++ when (default true (epss_enabled c)) EPSSEnricher
  ++ when (default true (exploitdb_enabled c)) ExploitDBEnricher.

(** The loop that validates the plugins: the plugins warned about. *)
Fixpoint validate_all (validate : plugin -> exc bool) (ps : list plugin)
  : exc (list plugin) :=
  match ps with
  | [] => Ok []
  | p :: rest =>
      is_valid <~ validate p ;;
      warned <~ validate_all validate rest ;;
      Ok (if is_valid then warned else p :: warned)
  end.

(** [not is_valid], for a validation that returned. *)
Definition invalid (r : exc bool) : bool :=
  match r with
  | Ok false => true
  | _ => false
  end.

(** [initialize]: [self.plugins] and the plugins warned about. *)
Definition initialize (c : Config) (validate : plugin -> exc bool)
  : exc (list plugin * list plugin) :=
  warned <~ validate_all validate (plugins c) ;;
  Ok (plugins c, warned).

(** [next((p for p in self.plugins if p.name == n), None)] *)
Definition find_named (n : string) (ps : list plugin) : option plugin :=
  head (List.filter (fun p => String.eqb (name p) n) ps).

(** The plugin of [_run_ai_analysis]. *)
Definition find_provider (ps : list plugin) : option plugin :=
  head (List.filter (fun p => py_in "provider" (name p)) ps).

(** The plugins run by [_enrich_vulnerabilities], in order. *)
Definition find_enrichers (ps : list plugin) : list plugin :=
  List.filter (fun p => py_endswith "_enricher" (name p)) ps.

(** The provider the configuration asks for. *)
Definition provider_of (c : Config) : option plugin :=
  if default false (ai_enabled c) then
    let provider_type := default "openai" (ai_provider c) in
    if String.eqb provider_type "openai" then Some OpenAIProvider
    else if String.eqb provider_type "anthropic" then Some AnthropicProvider
    else if String.eqb provider_type "ollama" then Some OllamaProvider
    else None
  else None.

Definition as_option {A} (b : bool) (x : A) : option A :=
  if b then Some x else None.

End Names.

(** A configuration that asks for a provider [initialize] does not
    know. *)
Definition unknown_provider : Config :=
  mkConfig None None (Some true) (Some "gemini") None (Some false) None.

End Initialize.

(** ** The AI providers: the prompt and [_prepare_context] *)

Module AiProviders.
Import Py PyText Vulnerability NmapXml Enrichers.

Definition nl : string := String newline "".

(** [s.upper()] on text whose letters are a-z, as the severities of the
    findings are. *)
Definition py_upper_char (c : ascii) : ascii :=
  let n := nat_of_ascii c in
  if (97 <=? n) && (n <=? 122) then ascii_of_nat (n - 32) else c.

Fixpoint py_upper (s : string) : string :=
  match s with
  | EmptyString => EmptyString
  | String c s' => String (py_upper_char c) (py_upper s')
  end.

(** [f"{d.get(k, default)}"] for a key that holds text. *)
Definition show_or (default : string) (f : field string) : string :=
  match f with
  | Missing => default
  | PyNone => "None"
  | Val s => s
  end.

(** [x[:n]] for an [x] that is text or [None]. *)
Definition slice_to (n : nat) (x : option string) : exc string :=
  match x with
  | Some s => Ok (Nikto.take_chars n s)
  | None => Raise TypeError
  end.

(** [d.get(k, "")[:n]] *)
Definition get_slice (n : nat) (f : field string) : exc string :=
  match f with
  | Missing => Ok ""
  | PyNone => Raise TypeError
  | Val s => Ok (Nikto.take_chars n s)
  end.

(** [name], [product] and [version] as the port lines print them;
    [service] is the empty dictionary when the key is missing. *)
Definition service_text (p : Port) : string * string * string :=
  match service p with
  | Some s => (service_name s, Nikto.py_str (product s), Nikto.py_str (version s))
  | None => ("unknown", "", "")
  end.

Definition finding_line (f : Nikto.Finding) : string :=
  "  - [" +:+ py_upper (Nikto.severity f) +:+ "] "
  +:+ Nikto.take_chars 150 (Nikto.finding_description f).

(** *** The prompt *)

(** [context_for_ai["prompt"]] as [_run_ai_analysis] sets it: the key is
    always there, with [None] when the configuration has no prompt. *)
Definition context_prompt (configured : option string) : field string :=
  stored configured.

(** [prompt = context.get("prompt", self._default_prompt())] *)
Definition prompt_of (ctx_prompt : field string) (default_prompt : string)
  : option string :=
  get_or ctx_prompt default_prompt.

(** [f"{prompt}\n\n{context}"] *)
Definition user_content (prompt : option string) (context : string) : string :=
  Nikto.py_str prompt +:+ nl +:+ nl +:+ context.

(** The text a provider sends for a run of the manager. *)
Definition content_sent
    (configured : option string) (default_prompt context : string) : string :=
  user_content (prompt_of (context_prompt configured) default_prompt) context.

Section Render.
(** [str] of a float. *)
Context (show_float : Q -> string).

Definition show_number_or (default : string) (f : field Q) : string :=
  match f with
  | Missing => default
  | PyNone => "None"
  | Val q => show_float q
  end.

(** *** [OpenAIProvider._prepare_context] *)

Definition openai_script_line (s : Script) : exc (list string) :=
  out <~ slice_to 200 (output s) ;;
  Ok ["    Script (" +:+ Nikto.py_str (script_id s) +:+ "): " +:+ out].

Definition openai_port_lines (p : Port) : exc (list string) :=
  let '(name, prod, ver) := service_text p in
  let line :=
    "  - " +:+ pretty (port p) +:+ "/" +:+ Nikto.py_str (protocol p) +:+ ": "
    +:+ name +:+ " (" +:+ prod +:+ " " +:+ ver +:+ ")" in
  script_lines <~
    Orchestrator.flat_mapM openai_script_line (default [] (scripts p)) ;;
  Ok (line :: script_lines).

Definition openai_host_lines (h : Host) : exc (list string) :=
  let head :=
    [nl +:+ "Host: " +:+ Nikto.py_str (ip h) +:+ " ("
        +:+ Nikto.py_str (hostname h) +:+ ")";
     "State: " +:+ host_state h]
    ++ match os h with
       | Some o => ["OS: " +:+ Nikto.py_str (os_name o) +:+ " (accuracy: "
                    +:+ pretty (accuracy o) +:+ "%)"]
       | None => []
       end in
  match ports h with
  | [] => Ok head
  | ps =>
      port_lines <~ Orchestrator.flat_mapM openai_port_lines ps ;;
      Ok (head ++ (nl +:+ "Open Ports:") :: port_lines)
  end.

(** An entry of [scans] that is an exception has no [get]. *)
Definition openai_scan_lines (scan : exc Nikto.ScanDict) : exc (list string) :=
  match scan with
  | Ok d =>
      let findings := Nikto.scan_findings d in
      Ok ((nl +:+ "Target: " +:+ Nikto.target_url (Nikto.scan_target d))
          :: match findings with
             | [] => []
             | _ => ("Findings (" +:+ pretty (List.length findings) +:+ "):")
                    :: (finding_line <$> take 10 findings)
             end)
  | _ => Raise AttributeError
  end.

Definition openai_vuln_lines (e : Entry) : exc (list string) :=
  d <~ get_slice 150 (description (vuln e)) ;;
  Ok ([nl +:+ show_or "N/A" (cve_id (vuln e)) +:+ ": " +:+ d;
       "  CVSS: " +:+ show_number_or "N/A" (cvss_score (vuln e))
       +:+ " | Severity: " +:+ show_or "N/A" (severity e)]
      ++ match epss_score e with
         | Val q => if Qeq_bool q 0 then []
                    else ["  EPSS: " +:+ show_float q +:+ " (Exploit Probability)"]
         | _ => []
         end).

(** A section of the context: nothing for an empty list, else the heading
    and the lines of the items. *)
Definition section {A} (heading : string) (f : A -> exc (list string))
    (items shown : list A) : exc (list string) :=
  match items with
  | [] => Ok []
  | _ => ls <~ Orchestrator.flat_mapM f shown ;; Ok (heading :: ls)
  end.

(** The manager sets no ["dursvuln_results"], so that section is never
    written. *)
Definition openai_context
    (hosts : list Host) (scans : list (exc Nikto.ScanDict))
    (vulns : list Entry) : exc string :=
  host_part <~ section ("=== NMAP SCAN RESULTS ===" +:+ nl)
                       openai_host_lines hosts hosts ;;
  nikto_part <~ section (nl +:+ nl +:+ "=== NIKTO WEB SCAN RESULTS ===" +:+ nl)
                        openai_scan_lines scans scans ;;
  vuln_part <~ section (nl +:+ nl +:+ "=== ENRICHED VULNERABILITIES ===" +:+ nl)
                       openai_vuln_lines vulns (take 15 vulns) ;;
  Ok (String.concat nl (host_part ++ nikto_part ++ vuln_part)).

(** *** [AnthropicProvider._prepare_context] *)

Definition anthropic_port_line (p : Port) : string :=
  let '(name, prod, ver) := service_text p in
  "  - " +:+ pretty (port p) +:+ "/" +:+ Nikto.py_str (protocol p) +:+ ": "
  +:+ name +:+ " " +:+ prod +:+ " " +:+ ver.

Definition anthropic_host_lines (h : Host) : exc (list string) :=
  Ok ([nl +:+ "Host: " +:+ Nikto.py_str (ip h) +:+ " ("
          +:+ Nikto.py_str (hostname h) +:+ ")"]
      ++ match os h with
         | Some o => ["OS: " +:+ Nikto.py_str (os_name o)]
         | None => []
         end
      ++ match ports h with
         | [] => []
         | ps => "Open Ports:" :: (anthropic_port_line <$> ps)
         end).

Definition anthropic_scan_lines (scan : exc Nikto.ScanDict)
  : exc (list string) :=
  match scan with
  | Ok d =>
      Ok ((nl +:+ "Target: " +:+ Nikto.target_url (Nikto.scan_target d))
          :: (finding_line <$> take 10 (Nikto.scan_findings d)))
  | _ => Raise AttributeError
  end.

Definition anthropic_vuln_lines (e : Entry) : exc (list string) :=
  d <~ get_slice 150 (description (vuln e)) ;;
  Ok [nl +:+ show_or "N/A" (cve_id (vuln e)) +:+ ": " +:+ d;
      "  CVSS: " +:+ show_number_or "N/A" (cvss_score (vuln e))
      +:+ " | EPSS: " +:+ show_number_or "N/A" (epss_score e)].

Definition anthropic_context
    (hosts : list Host) (scans : list (exc Nikto.ScanDict))
    (vulns : list Entry) : exc string :=
  host_part <~ section ("=== NMAP SCAN RESULTS ===" +:+ nl)
                       anthropic_host_lines hosts hosts ;;
  nikto_part <~ section (nl +:+ nl +:+ "=== NIKTO WEB SCAN RESULTS ===" +:+ nl)
                        anthropic_scan_lines scans scans ;;
  vuln_part <~ section (nl +:+ nl +:+ "=== VULNERABILITIES ===" +:+ nl)
                       anthropic_vuln_lines vulns (take 15 vulns) ;;
  Ok (String.concat nl (host_part ++ nikto_part ++ vuln_part)).

End Render.

(** *** [OllamaProvider._prepare_context] *)

Definition ollama_host_lines (h : Host) : list string :=
  (nl +:+ "Host: " +:+ Nikto.py_str (ip h))
  :: ((fun p => "  - Port " +:+ pretty (port p) +:+ ": "
                +:+ (service_text p).1.1) <$> take 5 (ports h)).

Definition ollama_context (hosts : list Host) : string :=
  Nikto.take_chars 2000
    (String.concat nl
       match hosts with
       | [] => []
       | _ => ("SCAN RESULTS:" +:+ nl) :: flat_map ollama_host_lines (take 10 hosts)
       end).

(** *** What the context needs *)

Definition scripts_have_output (h : Host) : Prop :=
  forall p s, p ∈ ports h -> s ∈ default [] (scripts p) -> is_Some (output s).

Definition is_dictionary (scan : exc Nikto.ScanDict) : Prop :=
  exists d, scan = Ok d.

Definition description_is_text (e : Entry) : Prop :=
  description (vuln e) <> PyNone.

Definition returns {A} (r : exc A) : Prop := exists a, r = Ok a.

(** The outcomes of a piece of code that returns or raises an
    [Exception]. *)
Definition returns_or_fails {A} (r : exc A) : Prop :=
  match r with
  | Ok _ => True
  | Raise e => is_Exception e = true
  | Blocked => False
  end.

(** A host whose ssh port has a script without output. *)
Definition silent_script_host : Host :=
  mkHost (Some "10.0.0.5") None
         [mkPort 22 (Some "tcp") (Some "open")
                 (Some (mkService "ssh" (Some "OpenSSH") (Some "8.9") None))
                 (Some [mkScript (Some "ssh-hostkey") None])]
         None "up".

End AiProviders.

(** ** A provider in the AI phase of the manager *)

Module AiPhase.
Import Py NmapXml Enrichers AiProviders Orchestrator.

(** [OpenAIProvider._default_prompt] *)
Definition openai_default_prompt : string :=
  "Analyze these security scan results and provide:

1. **Executive Summary**: Brief overview of security posture
2. **Critical Findings**: Most severe vulnerabilities requiring immediate attention
3. **Attack Surface**: Key exposed services and potential entry points
4. **Risk Assessment**: Overall risk level and key concerns
5. **Prioritized Remediation**: Top 5-7 actionable recommendations, ordered by priority
6. **CVE Analysis**: Notable CVEs with exploitation likelihood
7. **Quick Wins**: Easy fixes for immediate security improvement

Format in clear, concise Markdown. Be specific and actionable.".

(** [OpenAIProvider.execute] on the context of the manager: [respond] is
    the service, from the text sent to the analysis or a failure. *)
Definition openai_execute
    (show_float : Q -> string) (respond : string -> exc string)
    (configured : option string)
    (nmap_results : option (list Host))
    (nikto_results : option Nikto.NiktoResults)
    (vulns : list Entry) : exc string :=
  context <~ openai_context show_float (hosts_of nmap_results)
                            (nikto_scans nikto_results) vulns ;;
  respond (content_sent configured openai_default_prompt context).

(** The manager with the OpenAI provider as its AI plugin. *)
Definition with_openai
    (show_float : Q -> string) (respond : string -> exc string)
    (configured : option string)
    (nmap_results : option (list Host))
    (nikto_results : option Nikto.NiktoResults)
    (vulns : list Entry) : Plugins :=
  {| nmap_plugin := None; nikto_plugin := None; enrichers := [];
     ai_plugin := Some (openai_execute show_float respond configured
                                       nmap_results nikto_results vulns) |}.

End AiPhase.

(** ** [ConfigManager.merge_configs] *)

Module ConfigMerge.

(** A configuration value: a dictionary, whose items are kept in the
    order of insertion, or anything else. *)
Inductive value (A : Type) : Type :=
| Atom (a : A)
| Dict (items : list (string * value A)).
Arguments Atom {A} a.
Arguments Dict {A} items.

Definition dict (A : Type) : Type := list (string * value A).

Section Merge.
Context {A : Type}.

Definition keys (d : dict A) : list string := fst <$> d.

(** [d.get(k)], with [None] for a missing key. *)
Fixpoint lookup (k : string) (d : dict A) : option (value A) :=
  match d with
  | [] => None
  | (k', v) :: d' => if String.eqb k' k then Some v else lookup k d'
  end.

(** [d[k] = v]: a key that is there keeps its place. *)
Fixpoint set_item (k : string) (v : value A) (d : dict A) : dict A :=
  match d with
  | [] => [(k, v)]
  | (k', v') :: d' =>
      if String.eqb k' k then (k', v) :: d' else (k', v') :: set_item k v d'
  end.

(** The value stored under a key of [override]: [b] is [result.get(key)]
    and [v] the value of the key in [override].  Two dictionaries are
    merged by the loop of [merge_configs], started on the first. *)
Fixpoint merge_value (b : option (value A)) (v : value A) {struct v} : value A :=
  match v with
  | Atom a => Atom a
  | Dict od =>
      match b with
      | Some (Dict bd) =>
          Dict ((fix loop (items : dict A) (result : dict A) {struct items}
                   : dict A :=
                   match items with
                   | [] => result
                   | (k, v') :: rest =>
                       loop rest
                            (set_item k (merge_value (lookup k result) v')
                                      result)
                   end) od bd)
      | _ => Dict od
      end
  end.

(** One iteration of [for key, value in override.items()]. *)
Definition merge_step (result : dict A) (item : string * value A) : dict A :=
  set_item item.1 (merge_value (lookup item.1 result) item.2) result.

Definition merge_configs (base override : dict A) : dict A :=
  fold_left merge_step override base.

(** [d[k1][k2]...] *)
Fixpoint lookup_path (path : list string) (v : value A) : option (value A) :=
  match path with
  | [] => Some v
  | k :: path' =>
      match v with
      | Dict d =>
          match lookup k d with
          | Some v' => lookup_path path' v'
          | None => None
          end
      | Atom _ => None
      end
  end.

(** A dictionary holds a key once, at every level. *)
Inductive well_formed : value A -> Prop :=
| wf_atom a : well_formed (Atom a)
| wf_dict d :
    NoDup (keys d) -> Forall (fun item => well_formed item.2) d ->
    well_formed (Dict d).

End Merge.

(** Settings as text. *)
Definition quick_nmap : dict string :=
  [("nmap", Dict [("enabled", Atom "True");
                  ("nmap_params", Atom "-sV -T4 --top-ports 100")]);
   ("nikto", Dict [("enabled", Atom "False")])].

Definition user_override : dict string :=
  [("nmap", Dict [("nmap_params", Atom "-sV -p-")]);
   ("ai", Dict [("enabled", Atom "True")])].

End ConfigMerge.

(** ** The Markdown summary of [summarize_gnmap] *)

Module GnmapMarkdown.
Import PyText Gnmap DursVuln.

Definition row_host (r : row) : string := r.1.1.1.

(** [g[r[0]].append(r)] on a [defaultdict(list)], whose keys keep the
    order of their insertion. *)
Fixpoint add_row (r : row) (g : list (string * list row))
  : list (string * list row) :=
  match g with
  | [] => [(row_host r, [r])]
  | (h, items) :: g' =>
      if String.eqb h (row_host r) then (h, items ++ [r]) :: g'
      else (h, items) :: add_row r g'
  end.

Definition group_rows (rows : list row) : list (string * list row) :=
  fold_left (fun g r => add_row r g) rows [].

Definition row_line (r : row) : string :=
  let '(_, port, proto, svc) := r in
  with_newline ("| " +:+ port +:+ " | " +:+ proto +:+ " | " +:+ svc +:+ " |").

Definition table_heading : string :=
  with_newline "| Port | Proto | Service |"
  +:+ with_newline "|------|-------|---------|".

Definition host_section (x : string * list row) : list string :=
  [with_newline (with_newline ("## " +:+ x.1)); table_heading]
  ++ (row_line <$> x.2) ++ [with_newline ""].

(** [buf] as it is joined into [nmap_summary.md]; [now] is the time
    stamp. *)
Definition summary_markdown (now : string) (rows : list row) : list string :=
  [with_newline "# Nmap Summary";
   with_newline ("- Generated: " +:+ now);
   with_newline (with_newline "- Source: `nmap_results.gnmap`")]
  ++ match rows with
     | [] => [with_newline "_No open ports found._"]
     | _ => flat_map host_section (group_rows rows)
     end.

(** What the grouping loop maintains for the rows [seen] so far. *)
Definition grouped (seen : list row) (g : list (string * list row)) : Prop :=
  concat (snd <$> g) = seen
  /\ NoDup (fst <$> g)
  /\ Forall (fun x => x.2 <> [] /\ Forall (fun r => row_host r = x.1) x.2) g
  /\ last (fst <$> g) = row_host <$> last seen.

End GnmapMarkdown.

(** ** The targets file in [main_async] *)

Module CliTargets.
Import PyText Py Cli.

(** A line [read_nonempty_lines] drops: blank, or a comment. *)
Definition dropped (raw : string) : bool :=
  String.eqb (strip raw) "" || String.prefix "#" (strip raw).

(** A run on a file of comments, with every tool in place. *)
Definition comments_only : CliWorld :=
  {| nmap_installed := true; nikto_installed := true;
     no_nikto := false; dry_run := false; dursvuln := false; ai := false;
     target_lines :=
       Some (Script.read_nonempty_lines ["# staging"; ""; "  # 10.0.0.5"]);
     nmap_run := Ok 0%Z; stage_result := fun _ => Ok tt |}.

End CliTargets.

(** * Properties *)

(** ** The greppable summary *)

Section GnmapFacts.
Import PyText Gnmap.

(** A segment yields a row only when its second field is exactly
    ["open"]. *)
Lemma seg_rows_open host seg r :
  r ∈ seg_rows host seg ->
  bit (split_on "/"%char (strip seg)) 1 = "open".
Proof.
  unfold seg_rows.
  destruct (py_in "open" (strip seg)); [|by intros ?%elem_of_nil].
  destruct (5 <=? _); [|by intros ?%elem_of_nil].
  destruct (String.eqb _ "open") eqn:Hst; [|by intros ?%elem_of_nil].
  intros _. by apply String.eqb_eq.
Qed.

(** C9: the sample greppable line yields exactly the row
    (10.0.0.5, 80, tcp, http); its closed-port segment, the text after the
    comma, yields no row. *)
Theorem C9_gnmap_sample_row :
  summarize_gnmap [sample_line] = [("10.0.0.5", "80", "tcp", "http")]
  /\ split_on ","%char (sub_ports (strip sample_line))
     = ["80/open/tcp//http///"; " 22/closed/tcp//ssh///"]
  /\ seg_rows "10.0.0.5" " 22/closed/tcp//ssh///" = [].
Proof. repeat split; vm_compute; reflexivity. Qed.

End GnmapFacts.

(** ** The priority score *)

Section ScoringFacts.
Import Scoring.

Lemma clip_unit x : (0 <= clip x 0 1 /\ clip x 0 1 <= 1)%Q.
Proof.
  unfold clip. split.
  - apply Q.le_max_l.
  - apply Q.max_lub; [lra | apply Q.le_min_r].
Qed.

Lemma risk_level_of_spec (s : Q) :
  (risk_level_of s = critical <-> 90 <= s)%Q
  /\ (risk_level_of s = high <-> 70 <= s /\ s < 90)%Q
  /\ (risk_level_of s = medium <-> 40 <= s /\ s < 70)%Q
  /\ (risk_level_of s = low <-> s < 40)%Q.
Proof.
  unfold risk_level_of.
  destruct (Qle_bool 90 s) eqn:H90;
    [apply Qle_bool_iff in H90
    |assert (~ (90 <= s)%Q) by (rewrite <- Qle_bool_iff; congruence)].
  { repeat split; intros; try discriminate; try lra. }
  destruct (Qle_bool 70 s) eqn:H70;
    [apply Qle_bool_iff in H70
    |assert (~ (70 <= s)%Q) by (rewrite <- Qle_bool_iff; congruence)].
  { repeat split; intros; try discriminate; try lra. }
  destruct (Qle_bool 40 s) eqn:H40;
    [apply Qle_bool_iff in H40
    |assert (~ (40 <= s)%Q) by (rewrite <- Qle_bool_iff; congruence)].
  { repeat split; intros; try discriminate; try lra. }
  repeat split; intros; try discriminate; try lra.
Qed.

(** C2: the priority score is 100 times the weighted sum clipped to
    [0, 1], a missing factor counting as 0; it lies in [0, 100]; the risk
    level is critical iff the score is at least 90, high iff it is in
    [70, 90), medium iff it is in [40, 70), and low iff it is below 40. *)
Theorem C2_priority_score_and_risk_level (f : Factors) :
  (priority_score f
     == 100 * clip ((35 # 100) * (factor (cvss f) / 10)
                    + (25 # 100) * factor (epss f)
                    + (20 # 100) * factor (exploit_available f)
                    + (10 # 100) * factor (service_exposure f)
                    + (10 # 100) * factor (age_factor f)) 0 1)%Q
  /\ priority_score f = priority_score (filled f)
  /\ factor None = 0%Q
  /\ (0 <= priority_score f /\ priority_score f <= 100)%Q
  /\ (risk_level f = critical <-> 90 <= priority_score f)%Q
  /\ (risk_level f = high
      <-> 70 <= priority_score f /\ priority_score f < 90)%Q
  /\ (risk_level f = medium
      <-> 40 <= priority_score f /\ priority_score f < 70)%Q
  /\ (risk_level f = low <-> priority_score f < 40)%Q.
Proof.
  split; [reflexivity|].
  split; [reflexivity|].
  split; [reflexivity|].
  split.
  - unfold priority_score.
    destruct (clip_unit (weighted_sum f)) as [H0 H1]. split; lra.
  - apply risk_level_of_spec.
Qed.

End ScoringFacts.

(** ** The web-scan fan-out *)

Section NiktoFacts.
Import Py Nikto.

(** Replacing the state of worker [i] moves one unit of the count from
    its old state to its new one. *)
Lemma count_workers_insert (w a b : worker) (ws : list worker) (i : nat) :
  ws !! i = Some a ->
  count_workers w (<[i := b]> ws) + (if decide (a = w) then 1 else 0)
  = count_workers w ws + (if decide (b = w) then 1 else 0).
Proof.
  unfold count_workers. revert i.
  induction ws as [|x ws IH]; intros [|i] Hi; simplify_eq/=.
  - repeat case_bool_decide; repeat case_decide; simplify_eq/=; lia.
  - specialize (IH i Hi). case_bool_decide; simpl; lia.
Qed.

Lemma count_workers_replicate (w a : worker) (n : nat) :
  count_workers w (replicate n a) = if decide (a = w) then n else 0.
Proof.
  unfold count_workers.
  induction n as [|n IH]; simpl; [by case_decide|].
  case_bool_decide; case_decide; simplify_eq/=; lia.
Qed.

Lemma permits_init concurrency n s0 :
  fanout_init concurrency n = Some s0 ->
  permits_accounted (Z.to_nat concurrency) s0.
Proof.
  unfold fanout_init, permits_accounted, holders.
  case_match; intros; simplify_eq/=.
  rewrite !count_workers_replicate. repeat case_decide; simplify_eq; lia.
Qed.

Ltac count_facts Hi :=
  match goal with
  | |- context [<[_ := ?b]> _] =>
      pose proof (count_workers_insert Entered _ b _ _ Hi);
      pose proof (count_workers_insert ChildRunning _ b _ _ Hi);
      pose proof (count_workers_insert Leaving _ b _ _ Hi)
  end.

Lemma permits_step cap s s' :
  permits_accounted cap s -> fanout_step s s' -> permits_accounted cap s'.
Proof.
  unfold permits_accounted, holders.
  intros Hinv Hstep.
  destruct Hstep as [v ws i Hi|v ws i Hi|v ws i Hi|v ws i Hi|v ws i Hi];
    simpl in *; count_facts Hi; repeat case_decide; simplify_eq; lia.
Qed.

Lemma permits_reachable cap s0 s :
  permits_accounted cap s0 -> fanout_reachable s0 s -> permits_accounted cap s.
Proof. induction 2; eauto using permits_step. Qed.

(** A worker enters its block only by taking a free permit. *)
Lemma enter_takes_permit s s' i :
  fanout_step s s' ->
  workers s !! i = Some Waiting ->
  workers s' !! i = Some Entered ->
  sem_value s = S (sem_value s').
Proof.
  intros Hstep Hw He.
  destruct Hstep as [v ws j Hj|v ws j Hj|v ws j Hj|v ws j Hj|v ws j Hj];
    simpl in *; [done|..];
    (destruct (decide (i = j)) as [->|Hne];
     [rewrite list_lookup_insert_eq in He
        by (eapply lookup_lt_Some; eassumption);
      congruence
     |rewrite list_lookup_insert_ne in He by done; congruence]).
Qed.

(** C8: in every state the fan-out can reach from its initial state, for
    any cap and any number of targets, the child processes running at the
    same time are at most [maxConcurrency]; each worker inside its
    [async with sem] block holds one of the [maxConcurrency] permits. *)
Theorem C8_children_never_exceed_cap
    (maxConcurrency : Z) (n : nat) (s0 s : fanout) :
  fanout_init maxConcurrency n = Some s0 ->
  fanout_reachable s0 s ->
  (Z.of_nat (running_children s) <= maxConcurrency)%Z
  /\ holders s + sem_value s = Z.to_nat maxConcurrency.
Proof.
  intros Hinit Hreach.
  pose proof (permits_reachable _ _ _ (permits_init _ _ _ Hinit) Hreach) as Hinv.
  split; [|exact Hinv].
  unfold permits_accounted, holders in Hinv. unfold running_children.
  unfold fanout_init in Hinit. case_match eqn:Hneg; [done|].
  apply Z.ltb_ge in Hneg. lia.
Qed.

Lemma two_of_five_reachable :
  fanout_reachable (mkFanout 2 (replicate 5 Waiting)) two_of_five.
Proof.
  pose (w1 := [Entered; Waiting; Waiting; Waiting; Waiting]).
  pose (w2 := [ChildRunning; Waiting; Waiting; Waiting; Waiting]).
  pose (w3 := [ChildRunning; Entered; Waiting; Waiting; Waiting]).
  apply (reach_step _ (mkFanout 0 w3)); [|exact (step_spawn 0 w3 1 eq_refl)].
  apply (reach_step _ (mkFanout 1 w2)); [|exact (step_acquire 0 w2 1 eq_refl)].
  apply (reach_step _ (mkFanout 1 w1)); [|exact (step_spawn 1 w1 0 eq_refl)].
  apply (reach_step _ (mkFanout 2 (replicate 5 Waiting)));
    [apply reach_init|exact (step_acquire 1 (replicate 5 Waiting) 0 eq_refl)].
Qed.

Lemma C8_witness :
  (Z.of_nat (running_children two_of_five) <= 2)%Z
  /\ holders two_of_five + sem_value two_of_five = Z.to_nat 2.
Proof.
  apply (C8_children_never_exceed_cap 2 5 (mkFanout 2 (replicate 5 Waiting))).
  - reflexivity.
  - exact two_of_five_reachable.
Defined.

(** With no permit left, no further worker can enter. *)
Lemma no_permit_no_entry ws s' i :
  fanout_step (mkFanout 0 ws) s' ->
  ws !! i = Some Waiting ->
  workers s' !! i = Some Waiting.
Proof.
  intros Hstep Hw.
  inversion Hstep; subst; simpl;
    (destruct (decide (i = i0)) as [->|Hne];
     [congruence | by rewrite list_lookup_insert_ne]).
Qed.

(** With a semaphore of value 0 the fan-out cannot move: this is the
    [Blocked] outcome of [scan]. *)
Lemma zero_permits_stuck n s0 s' :
  fanout_init 0 n = Some s0 -> ~ fanout_step s0 s'.
Proof.
  intros [= <-] Hstep. simpl in Hstep.
  inversion Hstep as [v ws i Hi|v ws i Hi|v ws i Hi|v ws i Hi|v ws i Hi]; subst;
    apply lookup_replicate in Hi as [? _]; discriminate.
Qed.

(** *** The summary of a fan-out *)

(** Worker [i] depends on its own attempt and target only. *)
Lemma gather_scans_lookup world targets i :
  gather_scans world targets !! i
  = (fun t => _scan_single (world i) t) <$> targets !! i.
Proof. unfold gather_scans. by rewrite list_lookup_imap. Qed.

(** No exception instance reaches [scan_results] when every failure of an
    attempt is an [Exception]: the worker has caught it. *)
Lemma filter_imap_never {A B} (p : B -> bool) (f : nat -> A -> B) (l : list A) :
  (forall i x, p (f i x) = false) ->
  List.filter p (imap f l) = []
  /\ List.filter (fun r => negb (p r)) (imap f l) = imap f l.
Proof.
  revert f. induction l as [|x l IH]; intros f Hf; [done|].
  rewrite imap_cons. simpl. rewrite Hf. simpl.
  destruct (IH (f ∘ S)) as [-> ->]; [intros i y; apply Hf|done].
Qed.

Lemma gather_catches world targets :
  (forall i e, world i = Fails e -> is_Exception e = true) ->
  List.filter is_exception_instance (gather_scans world targets) = []
  /\ List.filter (fun r => negb (is_exception_instance r))
                 (gather_scans world targets)
     = gather_scans world targets.
Proof.
  intros Hw. apply filter_imap_never. intros i t.
  unfold _scan_single. destruct (world i) as [out|e] eqn:Hi; [done|].
  by rewrite (Hw i e Hi).
Qed.

(** A run of [scan] in which every failure of an attempt is an
    [Exception] reports no failed scan, whatever the number of failures. *)
Lemma scan_reports_no_failure concurrency world targets :
  (0 < concurrency)%Z ->
  (forall i e, world i = Fails e -> is_Exception e = true) ->
  exists r, scan concurrency world targets = Ok r
            /\ scans r = gather_scans world targets
            /\ total r = List.length targets
            /\ successful r = List.length targets
            /\ failed r = 0.
Proof.
  intros Hc Hw. unfold scan.
  destruct (Z.ltb_spec concurrency 0); [lia|].
  destruct (Z.eqb_spec concurrency 0); [lia|]. simpl.
  destruct (gather_catches world targets Hw) as [-> ->].
  eexists; repeat split; simpl.
  unfold gather_scans. by rewrite length_imap.
Qed.

(** C4: with three targets and the tool not found for the second one, the
    other two workers complete with the findings they have when nothing
    fails, and [scan] reports total 3, successful 3 and failed 0: the
    failed worker's dictionary, with its [error], is among the successful
    scans. *)
Theorem C4_failed_worker_counted_successful :
  scan 2 one_not_found sample_targets
  = Ok {| scans := [Ok (ScanDone (mkTarget (Some "10.0.0.1") "80" "http"
                                           "http://10.0.0.1:80")
                                 sample_findings);
                    Ok (ScanError (mkTarget (Some "10.0.0.2") "443" "https"
                                            "https://10.0.0.2:443")
                                  FileNotFoundError);
                    Ok (ScanDone (mkTarget (Some "10.0.0.3") "8080" "http"
                                           "http://10.0.0.3:8080")
                                 sample_findings)];
          total := 3; successful := 3; failed := 0 |}
  /\ gather_scans one_not_found sample_targets !! 0
     = gather_scans all_complete sample_targets !! 0
  /\ gather_scans one_not_found sample_targets !! 2
     = gather_scans all_complete sample_targets !! 2.
Proof. repeat split; vm_compute; reflexivity. Qed.

End NiktoFacts.

(** ** De-duplication *)

Section DedupFacts.
Import Py Vulnerability Dedup.

Lemma dedup_from_keep_new seen acc l :
  snd (dedup_from (seen, acc) l) = acc ++ keep_new seen l.
Proof.
  unfold dedup_from. revert seen acc.
  induction l as [|v l IH]; intros seen acc; simpl.
  - by rewrite app_nil_r.
  - case_decide; [apply IH|].
    rewrite IH. by rewrite <- app_assoc.
Qed.

Lemma deduplicate_keep_new l : deduplicate l = keep_new ∅ l.
Proof. unfold deduplicate. by rewrite dedup_from_keep_new. Qed.

Lemma keep_new_sublist seen l : sublist (keep_new seen l) l.
Proof.
  revert seen. induction l as [|v l IH]; intros seen; simpl; [done|].
  case_decide; [by apply sublist_cons | by apply sublist_skip].
Qed.

Lemma keep_new_fresh seen l v :
  v ∈ keep_new seen l -> vuln_key v ∉ seen.
Proof.
  revert seen. induction l as [|x l IH]; intros seen; simpl.
  - by intros ?%elem_of_nil.
  - case_decide as Hx; [apply IH|].
    intros [->|Hin]%elem_of_cons; [done|].
    apply IH in Hin. set_solver.
Qed.

Lemma keep_new_NoDup seen l : NoDup (vuln_key <$> keep_new seen l).
Proof.
  revert seen. induction l as [|x l IH]; intros seen; simpl.
  - constructor.
  - case_decide as Hx; [apply IH|].
    rewrite fmap_cons. constructor; [|apply IH].
    intros Hin. apply list_elem_of_fmap in Hin as (v & Hk & Hin).
    apply keep_new_fresh in Hin. apply Hin.
    apply elem_of_union_l, elem_of_singleton. congruence.
Qed.

Lemma keep_new_first seen l k :
  first_with k (keep_new seen l)
  = if decide (k ∈ seen) then None else first_with k l.
Proof.
  unfold first_with. revert seen.
  induction l as [|x l IH]; intros seen; simpl; [by case_decide|].
  destruct (decide (vuln_key x ∈ seen)) as [Hx|Hx].
  - rewrite IH. case_decide; [done|].
    case_bool_decide; [congruence|done].
  - simpl. case_bool_decide as Hk.
    + subst k. by rewrite decide_False by done.
    + rewrite IH. destruct (decide (k ∈ seen)) as [Hin|Hin].
      * rewrite decide_True; [done|]. by apply elem_of_union_r.
      * rewrite decide_False; [done|].
        intros [Heq%elem_of_singleton|?]%elem_of_union; congruence.
Qed.

(** A list without two entries of the same key goes through unchanged. *)
Lemma keep_new_id seen l :
  NoDup (vuln_key <$> l) ->
  (forall v, v ∈ l -> vuln_key v ∉ seen) ->
  keep_new seen l = l.
Proof.
  revert seen. induction l as [|x l IH]; intros seen Hnd Hfresh; simpl; [done|].
  rewrite fmap_cons in Hnd. apply NoDup_cons in Hnd as [Hx Hnd].
  rewrite decide_False by (apply Hfresh; left).
  f_equal. apply IH; [done|].
  intros v Hv. pose proof (Hfresh v ltac:(by right)).
  assert (vuln_key v ≠ vuln_key x).
  { intros Heq. apply Hx. rewrite <- Heq. by apply list_elem_of_fmap_2. }
  intros [Heq%elem_of_singleton|?]%elem_of_union; congruence.
Qed.

(** C5: de-duplication returns a sub-sequence of its input in which no key
    (cve_id, host) occurs twice and in which the entry of every key is the
    first entry of that key in the input: later duplicates are dropped;
    de-duplicating the result again returns it unchanged. *)
Theorem C5_dedup_first_wins_idempotent (vulnerabilities : list Vuln) :
  sublist (deduplicate vulnerabilities) vulnerabilities
  /\ NoDup (vuln_key <$> deduplicate vulnerabilities)
  /\ (forall k, first_with k (deduplicate vulnerabilities)
                = first_with k vulnerabilities)
  /\ deduplicate (deduplicate vulnerabilities) = deduplicate vulnerabilities.
Proof.
  rewrite !deduplicate_keep_new. repeat split.
  - apply keep_new_sublist.
  - apply keep_new_NoDup.
  - intros k. by rewrite keep_new_first, decide_False by set_solver.
  - apply keep_new_id; [apply keep_new_NoDup|set_solver].
Qed.

Example dedup_sample :
  deduplicate [log4shell_a; log4shell_b; log4shell_other_host; log4shell_a]
  = [log4shell_a; log4shell_other_host].
Proof. vm_compute. reflexivity. Qed.

End DedupFacts.

(** ** The structured report *)

Section NmapXmlFacts.
Import PyText Py NmapXml.

(** The exceptions the parsing can meet are all instances of [Exception]. *)
Lemma py_int_raises x e : py_int x = Raise e -> is_Exception e = true.
Proof.
  unfold py_int. destruct x as [s|]; [|by intros [= <-]].
  destruct (parse_signed (strip s)); [done|by intros [= <-]].
Qed.

Lemma py_int_not_blocked x : py_int x <> Blocked.
Proof. unfold py_int. by repeat case_match. Qed.

Lemma parse_port_outcome port_elem :
  match parse_port port_elem with
  | Ok p => is_open port_elem = true -> port_of port_elem p
  | Raise e => is_Exception e = true
  | Blocked => False
  end.
Proof.
  unfold parse_port.
  destruct (py_int (attr port_elem "portid")) as [z|e|] eqn:Hz; simpl.
  - intros Hopen. unfold port_of. simpl.
    split; [done|]. split; [done|]. split; [|split; [done|by case_match]].
    unfold is_open in Hopen.
    destruct (find_child "state" port_elem) as [st|]; [|done]. simpl.
    by apply bool_decide_eq_true in Hopen.
  - by eapply py_int_raises.
  - by eapply py_int_not_blocked.
Qed.

Lemma mapM_parse_port_outcome port_elems :
  Forall (fun pe => is_open pe = true) port_elems ->
  match mapM parse_port port_elems with
  | Ok ps => Forall2 port_of port_elems ps
  | Raise e => is_Exception e = true
  | Blocked => False
  end.
Proof.
  induction 1 as [|pe pes Hopen _ IH]; simpl; [constructor|].
  pose proof (parse_port_outcome pe) as Hp.
  destruct (parse_port pe) as [p|e|]; simpl; [|done..].
  destruct (mapM parse_port pes) as [ps|e|]; simpl; [|done..].
  constructor; auto.
Qed.

Lemma open_ports_are_open host_elem :
  Forall (fun pe => is_open pe = true)
         (List.filter is_open (findall_desc "port" host_elem)).
Proof.
  apply Forall_forall. intros pe Hin.
  apply list_elem_of_In in Hin. by apply filter_In in Hin as [_ ?].
Qed.

Lemma parse_os_outcome os_elem :
  match parse_os os_elem with
  | Ok o => exists acc, o = {| os_name := attr os_elem "name"; accuracy := acc |}
  | Raise e => is_Exception e = true
  | Blocked => False
  end.
Proof.
  unfold parse_os. destruct (attr os_elem "accuracy") as [a|]; [|simpl; eauto].
  destruct (py_int (Some a)) as [z|e|] eqn:Hz; simpl;
    [eauto | by eapply py_int_raises | by eapply py_int_not_blocked].
Qed.

Lemma _parse_host_outcome host_elem :
  match _parse_host host_elem with
  | Ok (Some h) => host_of host_elem h
  | Ok None => address_elem host_elem = None
  | Raise e => is_Exception e = true
  | Blocked => False
  end.
Proof.
  unfold _parse_host, host_of.
  destruct (address_elem host_elem) as [addr_elem|] eqn:Haddr; [|done].
  pose proof (mapM_parse_port_outcome _ (open_ports_are_open host_elem)) as Hports.
  destruct (mapM parse_port _) as [ps|e|]; simpl; [|done..].
  destruct (find_desc "osmatch" host_elem) as [os_elem|] eqn:Hos; simpl.
  - pose proof (parse_os_outcome os_elem) as Ho.
    destruct (parse_os os_elem) as [o|e|]; simpl; [|done..].
    destruct Ho as [acc ->]. repeat split; eauto.
  - repeat split; eauto.
Qed.

Lemma host_loop_outcome host_elems :
  match host_loop host_elems with
  | Ok hosts => Forall2 host_of (List.filter retained host_elems) hosts
  | Raise e => is_Exception e = true
  | Blocked => False
  end.
Proof.
  induction host_elems as [|he hes IH]; simpl; [constructor|].
  unfold host_step, retained, is_up, has_address.
  destruct (find_child "status" he) as [status|]; simpl; [|done].
  case_bool_decide as Hup; simpl.
  - pose proof (_parse_host_outcome he) as Hh.
    destruct (_parse_host he) as [[h|]|e|]; simpl; [| |done..].
    + destruct (host_loop hes) as [hosts|e|]; simpl; [|done..].
      rewrite bool_decide_eq_true_2
        by (destruct Hh as [(a & -> & _) _]; eauto).
      by constructor.
    + destruct (host_loop hes) as [hosts|e|]; simpl; [|done..].
      rewrite Hh. by rewrite bool_decide_eq_false_2 by (by intros [? ?]).
  - by destruct (host_loop hes) as [hosts|e|].
Qed.

(** [_parse_xml] always returns a list. *)
Lemma _parse_xml_returns f : exists hosts out, _parse_xml f = (Ok hosts, out).
Proof.
  destruct f as [| |root]; simpl; eauto.
  pose proof (host_loop_outcome (findall_desc "host" root)) as H.
  destruct (host_loop _) as [hosts|e|]; simpl; eauto; [|done].
  rewrite H. eauto.
Qed.

Example sample_report_parses :
  _parse_xml (Document sample_report) = (Ok sample_inventory, []).
Proof. vm_compute. reflexivity. Qed.

(** *** The inventory *)

(** C6: for every report parsed without a warning, the inventory is, in
    document order, the reading of exactly the host elements whose status
    is "up" and that have an IPv4 or IPv6 address element; each host holds
    the reading of exactly its port elements whose state is "open"; its OS
    guess is the first [osmatch] element when there is one. *)
Theorem C6_inventory_of_report (root : Element) (hosts : list Host) :
  _parse_xml (Document root) = (Ok hosts, []) ->
  Forall2 host_of (List.filter retained (findall_desc "host" root)) hosts.
Proof.
  simpl. pose proof (host_loop_outcome (findall_desc "host" root)) as H.
  destruct (host_loop _) as [hs|e|]; simpl; [by intros [= <-]| |done].
  by rewrite H.
Qed.

Lemma C6_witness :
  Forall2 host_of (List.filter retained (findall_desc "host" sample_report))
          sample_inventory.
Proof.
  apply (C6_inventory_of_report sample_report sample_inventory).
  vm_compute. reflexivity.
Defined.

(** A host element that is up is left out of the inventory when it has no
    IPv4 or IPv6 address element. *)
Lemma C6_counterexample :
  List.filter is_up (findall_desc "host" (elem "nmaprun" [] [mac_only_host]))
  = [mac_only_host]
  /\ _parse_xml (Document (elem "nmaprun" [] [mac_only_host])) = (Ok [], []).
Proof. split; vm_compute; reflexivity. Qed.

(** *** Missing and malformed files *)

(** C7: the parser never raises; for a missing file it returns the empty
    list and prints nothing; for a truncated or otherwise malformed file it
    returns the empty list and prints one warning with the error. *)
Theorem C7_parser_never_raises (f : xml_file) :
  (exists hosts out, _parse_xml f = (Ok hosts, out))
  /\ (f = NoFile -> _parse_xml f = (Ok [], []))
  /\ (malformed f -> exists e, _parse_xml f = (Ok [], [FailedToParseXML e])).
Proof.
  split; [apply _parse_xml_returns|]. split; [by intros ->|].
  intros [->|(root & e & -> & Hraise)]; simpl; [eauto|].
  pose proof (host_loop_outcome (findall_desc "host" root)) as H.
  rewrite Hraise in *. simpl. rewrite H. eauto.
Qed.

Lemma statusless_report_malformed :
  malformed (Document (elem "nmaprun" [] [web_host; statusless_host])).
Proof. right. eexists _, AttributeError. split; [reflexivity|]. vm_compute. reflexivity. Qed.

Lemma C7_witness :
  exists e, _parse_xml (Document (elem "nmaprun" [] [web_host; statusless_host]))
            = (Ok [], [FailedToParseXML e]).
Proof.
  apply (C7_parser_never_raises
           (Document (elem "nmaprun" [] [web_host; statusless_host]))).
  exact statusless_report_malformed.
Defined.

(** For a missing file nothing is printed. *)
Lemma C7_counterexample : _parse_xml NoFile = (Ok [], []).
Proof. reflexivity. Qed.

(** *** Hosts without an address *)

Lemma address_elem_child host_elem addr_elem :
  address_elem host_elem = Some addr_elem ->
  addr_elem ∈ children host_elem /\ tag addr_elem = "address".
Proof.
  unfold address_elem, find_child_with, findall_child.
  assert (forall v l, head (List.filter (has_attr "addrtype" v)
                              (List.filter (has_tag "address") l))
                      = Some addr_elem ->
                      addr_elem ∈ l /\ tag addr_elem = "address") as Hhead.
  { intros v l Hh. apply head_Some_elem_of in Hh.
    apply list_elem_of_In, filter_In in Hh as [Hh _].
    apply filter_In in Hh as [Hin Htag].
    split; [by apply list_elem_of_In|].
    unfold has_tag in Htag. by apply bool_decide_eq_true in Htag. }
  destruct (head (List.filter (has_attr "addrtype" "ipv4") _)) eqn:H4.
  - intros [= ->]. eauto.
  - eauto.
Qed.

(** C10: a host element without an IPv4 or IPv6 address element yields no
    record; every host of the inventory is the reading of a host element
    that is up and has such an address element, and its IP is the [addr]
    attribute of that element; when every address element of the host
    elements carries a non-empty [addr], every host has a non-empty IP. *)
Theorem C10_hosts_come_with_address
    (root : Element) (hosts : list Host) (out : list warning) :
  _parse_xml (Document root) = (Ok hosts, out) ->
  (forall host_elem,
      address_elem host_elem = None -> _parse_host host_elem = Ok None)
  /\ (forall h, h ∈ hosts ->
       exists host_elem addr_elem,
         host_elem ∈ findall_desc "host" root
         /\ is_up host_elem = true
         /\ address_elem host_elem = Some addr_elem
         /\ ip h = attr addr_elem "addr")
  /\ ((forall host_elem a,
         host_elem ∈ findall_desc "host" root ->
         a ∈ children host_elem -> tag a = "address" ->
         exists addr, attr a "addr" = Some addr /\ addr <> "") ->
      forall h, h ∈ hosts -> exists addr, ip h = Some addr /\ addr <> "").
Proof.
  intros Hparse.
  assert (forall h, h ∈ hosts ->
            exists host_elem addr_elem,
              host_elem ∈ findall_desc "host" root
              /\ is_up host_elem = true
              /\ address_elem host_elem = Some addr_elem
              /\ ip h = attr addr_elem "addr") as Hsrc.
  { simpl in Hparse.
    pose proof (host_loop_outcome (findall_desc "host" root)) as H.
    destruct (host_loop _) as [hs|e|]; simpl in Hparse; [| |done].
    - injection Hparse as <- <-. intros h Hin.
      apply list_elem_of_lookup in Hin as [i Hi].
      destruct (Forall2_lookup_r _ _ _ _ _ H Hi) as (he & Hhe & Hof).
      apply list_elem_of_lookup_2, list_elem_of_In, filter_In in Hhe
        as [Hhe Hret].
      unfold retained in Hret. apply andb_true_iff in Hret as [Hup _].
      destruct Hof as [(a & Ha & Hip) _].
      exists he, a. by rewrite list_elem_of_In.
    - rewrite H in Hparse. injection Hparse as <- <-.
      by intros h ?%elem_of_nil. }
  split; [|split; [exact Hsrc|]].
  - intros host_elem Hnone. unfold _parse_host. by rewrite Hnone.
  - intros Hattr h Hin.
    destruct (Hsrc h Hin) as (he & a & Hhe & _ & Ha & ->).
    destruct (address_elem_child _ _ Ha) as [Hchild Htag]. eauto.
Qed.

Lemma C10_witness :
  (forall host_elem,
      address_elem host_elem = None -> _parse_host host_elem = Ok None)
  /\ (forall h, h ∈ sample_inventory ->
       exists host_elem addr_elem,
         host_elem ∈ findall_desc "host" sample_report
         /\ is_up host_elem = true
         /\ address_elem host_elem = Some addr_elem
         /\ ip h = attr addr_elem "addr")
  /\ ((forall host_elem a,
         host_elem ∈ findall_desc "host" sample_report ->
         a ∈ children host_elem -> tag a = "address" ->
         exists addr, attr a "addr" = Some addr /\ addr <> "") ->
      forall h, h ∈ sample_inventory ->
                exists addr, ip h = Some addr /\ addr <> "").
Proof.
  apply (C10_hosts_come_with_address sample_report sample_inventory []).
  vm_compute. reflexivity.
Defined.

(** An address element without [addr] yields a host whose IP is missing. *)
Lemma C10_counterexample :
  _parse_xml (Document (elem "nmaprun" [] [unaddressed_host]))
  = (Ok [{| ip := None; hostname := None; ports := []; os := None;
            host_state := "up" |}], []).
Proof. vm_compute. reflexivity. Qed.

End NmapXmlFacts.

(** ** Attack chains *)

Section CorrelateFacts.
Import PyText Py Vulnerability Correlate.

Lemma is_rce_typed v : well_typed v -> is_rce v = Ok (remote_indicator v).
Proof.
  intros [Hd Hc]. unfold is_rce, remote_indicator, lowered,
    lower_description, cvss_at_least_9.
  destruct (description v), (cvss_score v); simpl; try done;
    by destruct (py_in "remote" _).
Qed.

Lemma is_privesc_typed v : well_typed v -> is_privesc v = Ok (privilege_indicator v).
Proof.
  intros [Hd _]. unfold is_privesc, privilege_indicator, lowered,
    lower_description.
  by destruct (description v).
Qed.

Lemma filterM_pure {A} (p : A -> exc bool) (q : A -> bool) (l : list A) :
  Forall (fun x => p x = Ok (q x)) l -> filterM p l = Ok (List.filter q l).
Proof.
  induction 1 as [|x l Hx _ IH]; simpl; [done|].
  rewrite Hx, IH. simpl. by destruct (q x).
Qed.

Lemma head_filter_find {A} (q : A -> bool) (l : list A) :
  head (List.filter q l) = List.find q l.
Proof. induction l as [|x l IH]; simpl; [done|]. by destruct (q x). Qed.

Lemma find_is_Some {A} (q : A -> bool) (l : list A) :
  is_Some (List.find q l) <-> exists x, x ∈ l /\ q x = true.
Proof.
  split.
  - intros [x Hx]. apply find_some in Hx as [Hin Hq].
    exists x. by rewrite list_elem_of_In.
  - intros (x & Hin & Hq). destruct (List.find q l) eqn:Hf; [eauto|].
    apply list_elem_of_In in Hin.
    pose proof (find_none _ _ Hf x Hin). congruence.
Qed.

Lemma _identify_attack_chains_typed l :
  Forall well_typed l ->
  _identify_attack_chains l
  = Ok (match List.find remote_indicator l, List.find privilege_indicator l with
        | Some r, Some p => [rce_to_privesc r p]
        | _, _ => []
        end).
Proof.
  intros Ht. unfold _identify_attack_chains.
  rewrite (filterM_pure is_rce remote_indicator)
    by (eapply Forall_impl; [exact Ht|apply is_rce_typed]).
  rewrite (filterM_pure is_privesc privilege_indicator)
    by (eapply Forall_impl; [exact Ht|apply is_privesc_typed]).
  simpl. rewrite <- !head_filter_find.
  destruct (List.filter remote_indicator l), (List.filter privilege_indicator l);
    done.
Qed.

Lemma host_chains_typed host_vulns :
  Forall well_typed host_vulns ->
  exists chains, host_chains host_vulns = Ok chains
                 /\ chains_for host_vulns chains.
Proof.
  intros Ht. unfold host_chains, chains_for.
  pose proof (find_is_Some remote_indicator host_vulns) as Hr.
  pose proof (find_is_Some privilege_indicator host_vulns) as Hp.
  destruct (Nat.leb_spec 2 (List.length host_vulns)) as [Hlen|Hlen].
  - rewrite _identify_attack_chains_typed by done.
    destruct (List.find remote_indicator host_vulns) as [r|];
      destruct (List.find privilege_indicator host_vulns) as [p|];
      eexists; (split; [reflexivity|]); simpl;
      (split; [lia|]); split.
    + split; [intros _|done]. split; [done|]. split; [apply Hr|apply Hp]; eauto.
    + intros c ->%list_elem_of_singleton. eauto 10.
    + split; [done|]. intros (_ & _ & Hq). apply Hp in Hq. by destruct Hq.
    + by intros c ?%elem_of_nil.
    + split; [done|]. intros (_ & Hq & _). apply Hr in Hq. by destruct Hq.
    + by intros c ?%elem_of_nil.
    + split; [done|]. intros (_ & Hq & _). apply Hr in Hq. by destruct Hq.
    + by intros c ?%elem_of_nil.
  - exists []. split; [done|]. split; [simpl; lia|]. split.
    + split; [done|]. intros (? & _). lia.
    + by intros c ?%elem_of_nil.
Qed.

(** *** Grouping by host *)

Lemma filter_snoc {A} (q : A -> bool) (l : list A) (x : A) :
  List.filter q (l ++ [x]) = List.filter q l ++ (if q x then [x] else []).
Proof. rewrite List.filter_app. simpl. by destruct (q x). Qed.

Lemma group_of_other l v g :
  g.1 <> host_key v -> group_of l g -> group_of (l ++ [v]) g.
Proof.
  intros Hne [Hg Hnil]. split; [|done].
  rewrite filter_snoc. unfold same_host at 2.
  rewrite bool_decide_eq_false_2 by congruence. by rewrite app_nil_r.
Qed.

Lemma add_to_host_keys h v m :
  (add_to_host h v m).*1 = if decide (h ∈ m.*1) then m.*1 else m.*1 ++ [h].
Proof.
  induction m as [|[k hv] m IH].
  - cbn [add_to_host]. case_decide as Hin; [|done].
    by apply elem_of_nil in Hin.
  - cbn [add_to_host]. rewrite !fmap_cons. cbn [fst].
    destruct (decide (k = h)) as [->|Hne].
    + rewrite fmap_cons. cbn [fst]. by rewrite decide_True by left.
    + rewrite fmap_cons, IH. cbn [fst].
      destruct (decide (h ∈ m.*1)) as [Hin|Hin].
      * by rewrite decide_True by (by right).
      * rewrite decide_False; [done|].
        intros [?|?]%elem_of_cons; congruence.
Qed.

Lemma add_to_host_groups l v m :
  NoDup m.*1 ->
  Forall (group_of l) m ->
  (host_key v ∉ m.*1 -> List.filter (same_host (host_key v)) l = []) ->
  Forall (group_of (l ++ [v])) (add_to_host (host_key v) v m).
Proof.
  induction m as [|[k hv] m IH]; intros Hnd Hall Hnew.
  - cbn [add_to_host]. repeat constructor; simpl; [|done].
    rewrite filter_snoc, Hnew by (by intros ?%elem_of_nil).
    unfold same_host. by rewrite bool_decide_eq_true_2.
  - rewrite fmap_cons in Hnd, Hnew. cbn [fst] in Hnd, Hnew.
    apply NoDup_cons in Hnd as [Hk Hnd].
    apply Forall_cons in Hall as [[Hg Hnil] Hall]. cbn [fst snd] in Hg, Hnil.
    cbn [add_to_host].
    destruct (decide (k = host_key v)) as [->|Hne].
    + constructor.
      * split; cbn [fst snd]; [|by destruct hv].
        rewrite filter_snoc, <- Hg. unfold same_host at 1.
        by rewrite bool_decide_eq_true_2.
      * apply Forall_forall. intros g Hin.
        apply group_of_other; [|by eapply Forall_forall in Hall].
        intros Heq. apply Hk. rewrite <- Heq.
        by apply list_elem_of_fmap_2.
    + constructor.
      * by apply (group_of_other l v (k, hv)).
      * apply IH; [done..|].
        intros Hnot. apply Hnew. intros [?|?]%elem_of_cons; congruence.
Qed.

Lemma group_by_host_snoc l v :
  group_by_host (l ++ [v]) = add_to_host (host_key v) v (group_by_host l).
Proof. unfold group_by_host. by rewrite fold_left_app. Qed.

Lemma filter_none_outside {A} (q : A -> bool) (l : list A) :
  (forall x, x ∈ l -> q x = false) -> List.filter q l = [].
Proof.
  induction l as [|x l IH]; intros Hq; simpl; [done|].
  rewrite (Hq x) by left. apply IH. intros y Hy. apply Hq. by right.
Qed.

Lemma group_by_host_grouped l : grouped l (group_by_host l).
Proof.
  induction l as [|v l IH] using rev_ind.
  - repeat split; [constructor|constructor|by intros v ?%elem_of_nil].
  - destruct IH as (Hnd & Hall & Hcov). rewrite group_by_host_snoc.
    repeat split.
    + rewrite add_to_host_keys. case_decide as Hin; [done|].
      apply NoDup_app. repeat split; [done| |apply NoDup_singleton].
      intros x Hx ->%list_elem_of_singleton. done.
    + apply add_to_host_groups; [done..|].
      intros Hnot. apply filter_none_outside. intros x Hx.
      unfold same_host. apply bool_decide_eq_false_2. intros Heq.
      apply Hnot. rewrite <- Heq. by apply Hcov.
    + intros x Hx. rewrite add_to_host_keys.
      apply elem_of_app in Hx as [Hx|Hx].
      * case_decide; [by apply Hcov|]. apply elem_of_app. left. by apply Hcov.
      * apply list_elem_of_singleton in Hx as ->.
        case_decide; [done|]. apply elem_of_app. right. by left.
Qed.

Lemma all_chains_typed (m : list (option string * list Vuln)) :
  Forall (fun g => Forall well_typed g.2) m ->
  exists per_host,
    all_chains m = Ok (concat per_host)
    /\ Forall2 (fun g chains => chains_for g.2 chains) m per_host.
Proof.
  induction 1 as [|[h hv] m Hhv _ (per_host & Hall & Hper)]; simpl.
  - exists []. by split; [|constructor].
  - destruct (host_chains_typed hv Hhv) as (chains & -> & Hchains).
    rewrite Hall. simpl. exists (chains :: per_host).
    split; [done|]. by constructor.
Qed.

Lemma Forall2_with_Forall {A B} (P : A -> Prop) (R : A -> B -> Prop) l k :
  Forall P l -> Forall2 R l k -> Forall2 (fun x y => P x /\ R x y) l k.
Proof.
  intros HP HR. induction HR as [|x y l k Hxy _ IH]; [constructor|].
  apply Forall_cons in HP as [Hx HP]. constructor; auto.
Qed.

Lemma filter_well_typed (q : Vuln -> bool) l :
  Forall well_typed l -> Forall well_typed (List.filter q l).
Proof.
  rewrite !Forall_forall. intros Hl v Hv. apply Hl.
  apply list_elem_of_In, filter_In in Hv as [Hv _]. by apply list_elem_of_In.
Qed.

(** C3: for vulnerabilities whose [description] and [cvss_score] are not
    [None], the chains returned are those of the hosts in order of first
    appearance; each host's list is the vulnerabilities of that host; a host
    yields at most one chain, and yields one if and only if it has at least
    two vulnerabilities, at least one whose lower-cased description
    contains "remote" or whose cvss_score is at least 9.0, and at least one
    whose lower-cased description contains "privilege"; the chain has type
    rce_to_privesc, risk critical, and names the first match of each
    indicator. *)
Theorem C3_one_chain_per_host (vulnerabilities : list Vuln) :
  Forall well_typed vulnerabilities ->
  exists per_host high_risk,
    correlate_vulnerabilities vulnerabilities = Ok (concat per_host, high_risk)
    /\ NoDup (group_by_host vulnerabilities).*1
    /\ (forall v, v ∈ vulnerabilities ->
                  host_key v ∈ (group_by_host vulnerabilities).*1)
    /\ Forall2 (fun g chains =>
                  g.2 = List.filter (same_host g.1) vulnerabilities
                  /\ chains_for g.2 chains)
               (group_by_host vulnerabilities) per_host.
Proof.
  intros Ht.
  destruct (group_by_host_grouped vulnerabilities) as (Hnd & Hall & Hcov).
  destruct (all_chains_typed (group_by_host vulnerabilities))
    as (per_host & Hchains & Hper).
  { eapply Forall_impl; [exact Hall|]. intros g [-> _].
    by apply filter_well_typed. }
  exists per_host, (_identify_high_risk_hosts (group_by_host vulnerabilities)).
  unfold correlate_vulnerabilities. rewrite Hchains. simpl.
  repeat split; [done..|].
  apply Forall2_with_Forall; [|done].
  eapply Forall_impl; [exact Hall|]. by intros g [? _].
Qed.

Example sample_vulns_chain :
  correlate_vulnerabilities sample_vulns
  = Ok ([{| chain_type := "rce_to_privesc";
            chain_description :=
              "Remote Code Execution can be chained with Privilege Escalation";
            chain_vulnerabilities :=
              [Some "CVE-2021-44228"; Some "CVE-2021-4034"];
            chain_risk := "critical" |}], []).
Proof. vm_compute. reflexivity. Qed.

Lemma C3_witness :
  exists per_host high_risk,
    correlate_vulnerabilities sample_vulns = Ok (concat per_host, high_risk)
    /\ NoDup (group_by_host sample_vulns).*1
    /\ (forall v, v ∈ sample_vulns ->
                  host_key v ∈ (group_by_host sample_vulns).*1)
    /\ Forall2 (fun g chains =>
                  g.2 = List.filter (same_host g.1) sample_vulns
                  /\ chains_for g.2 chains)
               (group_by_host sample_vulns) per_host.
Proof.
  apply (C3_one_chain_per_host sample_vulns).
  repeat constructor; discriminate.
Defined.

Lemma C3_counterexample :
  py_in "remote" "remote privilege escalation in sudo" = true
  /\ py_in "privilege" "remote privilege escalation in sudo" = true
  /\ group_by_host [remote_privesc] = [(Some "10.0.0.5", [remote_privesc])]
  /\ correlate_vulnerabilities [remote_privesc] = Ok ([], []).
Proof. repeat split; vm_compute; reflexivity. Qed.

(** A [cvss_score] that is [None] makes the remote filter raise as soon as
    the description does not decide. *)
Example none_score_raises :
  correlate_vulnerabilities
    [vuln_on "10.0.0.5" "CVE-2021-44228" (Val "remote code execution") PyNone;
     vuln_on "10.0.0.5" "CVE-2021-4034" (Val "privilege escalation") PyNone]
  = Raise TypeError.
Proof. vm_compute. reflexivity. Qed.

End CorrelateFacts.


(** ** A failing primary scan *)

Section OrchestratorFacts.
Import Py Vulnerability NmapXml Orchestrator.

Context {Scored Recommendation : Type}.
Variable analyze_vulnerabilities :
  list Vuln -> Context Scored Recommendation -> exc (list Scored).
Variable generate_recommendations : list Scored -> exc (list Recommendation).

(** [NmapScanner.execute] raises only what spawning the process raises,
    and has printed nothing by then. *)
Lemma nmap_execute_raises w e out :
  nmap_execute w = (Raise e, out) -> nmap_process w = Raise e /\ out = [].
Proof.
  unfold nmap_execute, lift, bind_run.
  destruct (nmap_process w) as [[]|e'|]; [|by intros [= -> <-]|done].
  destruct (_parse_xml_returns (xml_report w)) as (hosts & warns & ->).
  done.
Qed.

Lemma _run_nmap_catches plugins e :
  primary_scan_fails plugins e -> is_Exception e = true ->
  _run_nmap plugins = (Ok None, [PhaseNmap; NmapFailed e]).
Proof.
  intros (w & out & Hw & Hexec) He. unfold _run_nmap. rewrite Hw.
  destruct (nmap_execute_raises _ _ _ Hexec) as [_ ->].
  simpl. rewrite Hexec. simpl. by rewrite He.
Qed.

Lemma _run_nikto_without_hosts plugins :
  exists nikto_results line,
    _run_nikto plugins None = (Ok nikto_results, [PhaseNikto; line])
    /\ nikto_scans nikto_results = [].
Proof.
  unfold _run_nikto. destruct (nikto_plugin plugins) as [w|].
  - exists (Some Nikto.NoWebTargets), NoWebServices. done.
  - exists None, NiktoNotAvailable. done.
Qed.

Lemma _extract_without_hosts nikto_results :
  nikto_scans nikto_results = [] ->
  _extract_vulnerabilities None nikto_results
  = (Ok [], [PhaseExtract; Extracted 0]).
Proof. intros Hs. unfold _extract_vulnerabilities. rewrite Hs. done. Qed.

Lemma _run_ai_analysis_ends plugins :
  ai_phase_ends plugins ->
  exists analysis out, _run_ai_analysis plugins = (Ok analysis, PhaseAI :: out).
Proof.
  unfold ai_phase_ends, _run_ai_analysis.
  destruct (ai_plugin plugins) as [[a|e|]|]; simpl; [eauto| |done|eauto].
  intros ->. eauto.
Qed.

(** C1: in [run_scan] a failure of the nmap plugin is caught at the phase
    boundary and reported; the nmap result becomes the empty dictionary and
    the run goes on through the Nikto, extraction and enrichment phases with
    no host and no vulnerability; when the engine and the AI phase return,
    the run returns a context that carries the empty nmap result.  In the
    stand-alone script a non-zero exit code of nmap ends the run with
    [SystemExit] before any later stage. *)
Theorem C1_primary_failure_by_entry_point
    (plugins : Plugins) (targets : list string) (e : exn) :
  primary_scan_fails plugins e ->
  is_Exception e = true ->
  (exists nikto_results line result rest,
      run_scan analyze_vulnerabilities generate_recommendations plugins targets
      = (result,
         [Starting (List.length targets); OutputDirectory;
          PhaseNmap; NmapFailed e;
          PhaseNikto; line; PhaseExtract; Extracted 0;
          PhaseEnrich; NoVulnsToEnrich] ++ rest)
      /\ (forall ctx, result = Ok ctx ->
            nmap_results ctx = None /\ vulnerabilities ctx = [])
      /\ (forall scored recs,
            analyze_vulnerabilities [] (context_without_hosts targets nikto_results)
            = Ok scored ->
            generate_recommendations scored = Ok recs ->
            ai_phase_ends plugins ->
            exists ctx, result = Ok ctx /\ In PhaseAI rest))
  /\ (forall w t ts rc,
        Cli.nmap_installed w = true ->
        Cli.target_lines w = Some (t :: ts) ->
        Cli.nmap_run w = Ok rc ->
        rc <> 0%Z ->
        Cli.main_async w
        = (Raise (SystemExit ("[!] Nmap failed with exit code " +:+ pretty rc)),
           [])).
Proof.
  intros Hfail He. split.
  - destruct (_run_nikto_without_hosts plugins) as (nk & line & Hnk & Hscans).
    exists nk, line. unfold Orchestrator.run_scan.
    rewrite (_run_nmap_catches _ _ Hfail He). cbn [say bind_run app].
    rewrite Hnk. cbn [bind_run app].
    rewrite (_extract_without_hosts _ Hscans). cbn [bind_run app].
    cbn [_enrich_vulnerabilities say ret bind_run app].
    fold (@context_without_hosts Scored Recommendation targets nk).
    destruct (analyze_vulnerabilities [] (context_without_hosts targets nk))
      as [scored|e1|] eqn:Han; cbn [lift bind_run app].
    + destruct (generate_recommendations scored) as [recs|e2|] eqn:Hgen;
        cbn [bind_run app].
      * destruct (_run_ai_analysis plugins) as [[analysis|e3|] out] eqn:Hai;
          cbn [ret bind_run app]; eexists _, _;
          (split; [reflexivity|]);
          (split; [intros ctx [= <-]; done|]);
          intros scored' recs' _ _ Hends;
          destruct (_run_ai_analysis_ends _ Hends) as (a & o & Ha);
          rewrite Ha in Hai; simplify_eq.
        eexists; split; [done|]. rewrite app_nil_r. by left.
      * eexists _, _. split; [reflexivity|].
        split; [by intros ctx|]. intros ? ? [= <-]. congruence.
      * eexists _, _. split; [reflexivity|].
        split; [by intros ctx|]. intros ? ? [= <-]. congruence.
    + eexists _, _. split; [reflexivity|]. split; [by intros ctx|]. done.
    + eexists _, _. split; [reflexivity|]. split; [by intros ctx|]. done.
  - intros w t ts rc Hinst Hlines Hrun Hrc. unfold Cli.main_async.
    rewrite Hinst, Hlines, Hrun. simpl.
    by rewrite bool_decide_eq_true_2.
Qed.

End OrchestratorFacts.

Section OrchestratorSamples.
Import Py Vulnerability NmapXml Orchestrator.

Lemma nmap_not_found_fails : primary_scan_fails nmap_not_found FileNotFoundError.
Proof. eexists _, _. split; reflexivity. Qed.

Lemma C1_witness :
  exists nikto_results line result rest,
    run_scan no_scores no_recommendations nmap_not_found ["10.0.0.0/24"]
    = (result,
       [Starting (List.length ["10.0.0.0/24"]); OutputDirectory; PhaseNmap;
        NmapFailed FileNotFoundError;
        PhaseNikto; line; PhaseExtract; Extracted 0;
        PhaseEnrich; NoVulnsToEnrich] ++ rest)
    /\ (forall ctx, result = Ok ctx ->
          nmap_results ctx = None /\ vulnerabilities ctx = [])
    /\ (forall scored recs,
          no_scores [] (context_without_hosts ["10.0.0.0/24"] nikto_results)
          = Ok scored ->
          no_recommendations scored = Ok recs ->
          ai_phase_ends nmap_not_found ->
          exists ctx, result = Ok ctx /\ In PhaseAI rest).
Proof.
  apply (C1_primary_failure_by_entry_point
           no_scores no_recommendations nmap_not_found ["10.0.0.0/24"]
           FileNotFoundError).
  - exact nmap_not_found_fails.
  - reflexivity.
Defined.

(** The primary scan fails, and the run goes through every later phase
    with an empty primary result and returns a context without error. *)
Lemma C1_counterexample :
  primary_scan_fails nmap_not_found FileNotFoundError
  /\ run_scan no_scores no_recommendations nmap_not_found ["10.0.0.0/24"]
     = (Ok {| targets := ["10.0.0.0/24"];
              nmap_results := None;
              nikto_results := Some Nikto.NoWebTargets;
              vulnerabilities := [];
              scored_vulnerabilities := [];
              recommendations := [];
              ai_analysis := None |},
        [Starting 1; OutputDirectory; PhaseNmap; NmapFailed FileNotFoundError;
         PhaseNikto; NoWebServices; PhaseExtract; Extracted 0;
         PhaseEnrich; NoVulnsToEnrich; PhaseAI; AINotConfigured]).
Proof. split; [exact nmap_not_found_fails|]. vm_compute. reflexivity. Qed.

Example main_async_stops :
  Cli.main_async Cli.nmap_exits_1
  = (Raise (SystemExit "[!] Nmap failed with exit code 1"), []).
Proof. vm_compute. reflexivity. Qed.

Example main_async_goes_on :
  snd (Cli.main_async
         {| Cli.nmap_installed := true; Cli.nikto_installed := true;
            Cli.no_nikto := false; Cli.dry_run := false; Cli.dursvuln := false;
            Cli.ai := false; Cli.target_lines := Some ["10.0.0.0/24"];
            Cli.nmap_run := Ok 0%Z; Cli.stage_result := fun _ => Ok tt |})
  = [Cli.Summaries; Cli.NiktoStage; Cli.WrapUp].
Proof. vm_compute. reflexivity. Qed.

Example findall_cve_sample :
  findall_cve "x CVE-2021-44228, CVE-2022-1234; CVE-20-1 CVE-12345-1"
  = ["CVE-2021-44228"; "CVE-2022-1234"].
Proof. vm_compute. reflexivity. Qed.

End OrchestratorSamples.

(** * Further properties *)

(** ** The web-scan fan-out: accounting and progress *)

Section FanoutFacts.
Import Py Nikto FanoutRuns.

(** X1: whenever [scan] returns, its summary accounts for every target:
    successful + failed = total = the number of targets, and the scans
    listed are the successful ones. *)
Theorem X1_scan_accounts_for_every_target
    (concurrency : Z) (world : nat -> attempt) (targets : list Target)
    (r : ScanSummary) :
  scan concurrency world targets = Ok r ->
  total r = List.length targets
  /\ successful r + failed r = total r
  /\ List.length (scans r) = successful r.
Proof.
  unfold scan. repeat case_match; try discriminate. intros [= <-]. simpl.
  split; [done|]. split; [|done].
  rewrite Nat.add_comm, List.filter_length.
  unfold gather_scans. by rewrite length_imap.
Qed.

Lemma X1_witness :
  total {| scans := gather_scans one_not_found sample_targets;
           total := 3; successful := 3; failed := 0 |}
  = List.length sample_targets
  /\ 3 + 0 = 3
  /\ List.length (gather_scans one_not_found sample_targets) = 3.
Proof.
  apply (X1_scan_accounts_for_every_target 2 one_not_found sample_targets).
  vm_compute. reflexivity.
Defined.

Lemma work_left_insert (ws : list worker) (i : nat) (a b : worker) :
  ws !! i = Some a ->
  list_sum (steps_left <$> <[i := b]> ws) + steps_left a
  = list_sum (steps_left <$> ws) + steps_left b.
Proof.
  revert i. induction ws as [|x ws IH]; intros [|i] Hi; simplify_eq/=.
  - lia.
  - specialize (IH i Hi). lia.
Qed.

(** Every step of the event loop uses up work. *)
Lemma fanout_step_work s s' : fanout_step s s' -> work_left s' < work_left s.
Proof.
  unfold work_left.
  intros [v ws i Hi|v ws i Hi|v ws i Hi|v ws i Hi|v ws i Hi]; simpl;
    match goal with
    | |- context [<[_ := ?b]> _] =>
        pose proof (work_left_insert ws i _ b Hi) as Hw
    end; simpl in Hw; lia.
Qed.

Lemma fanout_run_work s0 k s :
  fanout_run s0 k s -> k + work_left s <= work_left s0.
Proof.
  induction 1 as [|k s s' _ IH Hstep]; [lia|].
  apply fanout_step_work in Hstep. lia.
Qed.

Lemma fanout_run_reachable s0 k s : fanout_run s0 k s -> fanout_reachable s0 s.
Proof. induction 1; eauto using reach_init, reach_step. Qed.

Lemma count_workers_zero (w : worker) (ws : list worker) :
  count_workers w ws = 0 -> w ∉ ws.
Proof.
  unfold count_workers. induction ws as [|x ws IH]; simpl.
  - intros _ ?%elem_of_nil. done.
  - case_bool_decide; simpl; [done|].
    intros H0 [?|?]%elem_of_cons; [congruence|by apply IH].
Qed.

Lemma count_workers_pos (w : worker) (ws : list worker) :
  0 < count_workers w ws -> exists i, ws !! i = Some w.
Proof.
  unfold count_workers. induction ws as [|x ws IH]; simpl; [lia|].
  case_bool_decide as Hx; simpl.
  - intros _. exists 0. by subst.
  - intros Hpos. destruct (IH Hpos) as [i Hi]. by exists (S i).
Qed.

(** X2: with a cap of at least 1 the fan-out never gets stuck before every
    worker has finished, and no run takes more than four steps per
    target. *)
Theorem X2_fanout_completes
    (concurrency : Z) (n k : nat) (s0 s : fanout) :
  (1 <= concurrency)%Z ->
  fanout_init concurrency n = Some s0 ->
  fanout_run s0 k s ->
  k <= 4 * n /\ (all_finished s \/ exists s', fanout_step s s').
Proof.
  intros Hcap Hinit Hrun. split.
  - pose proof (fanout_run_work _ _ _ Hrun) as Hwork.
    assert (work_left s0 = 4 * n) as Hw0; [|lia].
    unfold fanout_init in Hinit. case_match; simplify_eq.
    unfold work_left. cbn [workers]. clear.
    induction n as [|n IH]; [done|].
    rewrite replicate_S, fmap_cons. cbn [list_sum fold_right steps_left].
    fold (list_sum (steps_left <$> replicate n Waiting)). rewrite IH. lia.
  - pose proof (permits_reachable _ _ _ (permits_init _ _ _ Hinit)
                  (fanout_run_reachable _ _ _ Hrun)) as Hinv.
    unfold permits_accounted, holders in Hinv. destruct s as [v ws].
    simpl in Hinv.
    destruct (Nat.eq_dec (count_workers Entered ws) 0) as [HE|HE].
    2:{ destruct (count_workers_pos Entered ws) as [i Hi]; [lia|].
        right. eexists. by apply step_spawn with (i := i). }
    destruct (Nat.eq_dec (count_workers ChildRunning ws) 0) as [HC|HC].
    2:{ destruct (count_workers_pos ChildRunning ws) as [i Hi]; [lia|].
        right. eexists. by apply step_child_exits with (i := i). }
    destruct (Nat.eq_dec (count_workers Leaving ws) 0) as [HL|HL].
    2:{ destruct (count_workers_pos Leaving ws) as [i Hi]; [lia|].
        right. eexists. by apply step_release with (i := i). }
    destruct (Nat.eq_dec (count_workers Waiting ws) 0) as [HW|HW].
    2:{ destruct (count_workers_pos Waiting ws) as [i Hi]; [lia|].
        right. destruct v as [|v]; [lia|].
        eexists. by apply step_acquire with (i := i). }
    left. unfold all_finished. simpl. apply Forall_forall. intros w Hw.
    apply count_workers_zero in HE, HC, HL, HW.
    destruct w; done.
Qed.

Lemma X2_witness :
  4 <= 4 * 5 /\ (all_finished two_of_five \/ exists s', fanout_step two_of_five s').
Proof.
  apply (X2_fanout_completes 2 5 4 (mkFanout 2 (replicate 5 Waiting))).
  - lia.
  - reflexivity.
  - pose (w1 := [Entered; Waiting; Waiting; Waiting; Waiting]).
    pose (w2 := [ChildRunning; Waiting; Waiting; Waiting; Waiting]).
    pose (w3 := [ChildRunning; Entered; Waiting; Waiting; Waiting]).
    apply (run_step _ 3 (mkFanout 0 w3)); [|exact (step_spawn 0 w3 1 eq_refl)].
    apply (run_step _ 2 (mkFanout 1 w2)); [|exact (step_acquire 0 w2 1 eq_refl)].
    apply (run_step _ 1 (mkFanout 1 w1)); [|exact (step_spawn 1 w1 0 eq_refl)].
    apply (run_step _ 0 (mkFanout 2 (replicate 5 Waiting)));
      [apply run_start|exact (step_acquire 1 (replicate 5 Waiting) 0 eq_refl)].
Defined.

End FanoutFacts.

(** ** Python text: stripping *)

Section PyTextFacts.
Import PyText.

Lemma lstrip_clean s :
  match lstrip s with
  | String c _ => py_isspace c = false
  | EmptyString => True
  end.
Proof.
  induction s as [|c s IH]; simpl; [done|].
  destruct (py_isspace c) eqn:Hc; [done|]. by rewrite Hc.
Qed.

Lemma lstrip_of_clean s :
  match s with String c _ => py_isspace c = false | EmptyString => True end ->
  lstrip s = s.
Proof. destruct s as [|c s]; simpl; [done|]. by intros ->. Qed.

Lemma rstrip_keeps_clean s :
  match s with String c _ => py_isspace c = false | EmptyString => True end ->
  match rstrip s with
  | String c _ => py_isspace c = false
  | EmptyString => True
  end.
Proof.
  destruct s as [|c s]; simpl; [done|]. intros Hc.
  destruct (rstrip s); [by rewrite Hc|done].
Qed.

Lemma rstrip_idem s : rstrip (rstrip s) = rstrip s.
Proof.
  induction s as [|c s IH]; simpl; [done|].
  destruct (rstrip s) as [|c' r] eqn:Hr.
  - destruct (py_isspace c) eqn:Hc; simpl; [done|]. by rewrite Hc.
  - remember (String c' r) as t eqn:Ht. simpl. rewrite IH. by subst t.
Qed.

(** [strip] leaves nothing more to strip. *)
Lemma strip_idem s : strip (strip s) = strip s.
Proof.
  unfold strip.
  rewrite (lstrip_of_clean (rstrip (lstrip s)))
    by apply rstrip_keeps_clean, lstrip_clean.
  apply rstrip_idem.
Qed.

End PyTextFacts.

(** ** The seen-set loop *)

Section SeenLoopFacts.
Import SeenLoop.
Context {A K : Type} `{Countable K} (key : A -> K).

Lemma fold_seen_step seen acc l :
  snd (fold_left (seen_step key) l (seen, acc)) = acc ++ keep_fresh key seen l.
Proof.
  revert seen acc. induction l as [|x l IH]; intros seen acc; simpl.
  - by rewrite app_nil_r.
  - case_decide; [apply IH|]. rewrite IH. by rewrite <- app_assoc.
Qed.

Lemma keep_fresh_sublist seen l : sublist (keep_fresh key seen l) l.
Proof.
  revert seen. induction l as [|x l IH]; intros seen; simpl; [done|].
  case_decide; [by apply sublist_cons | by apply sublist_skip].
Qed.

Lemma keep_fresh_not_seen seen l x :
  x ∈ keep_fresh key seen l -> key x ∉ seen.
Proof.
  revert seen. induction l as [|y l IH]; intros seen; simpl.
  - by intros ?%elem_of_nil.
  - case_decide as Hy; [apply IH|].
    intros [->|Hin]%elem_of_cons; [done|].
    apply IH in Hin. intros Hs. apply Hin. by apply elem_of_union_r.
Qed.

Lemma keep_fresh_NoDup seen l : NoDup (key <$> keep_fresh key seen l).
Proof.
  revert seen. induction l as [|x l IH]; intros seen; simpl.
  - constructor.
  - case_decide as Hx; [apply IH|].
    rewrite fmap_cons. constructor; [|apply IH].
    intros Hin. apply list_elem_of_fmap in Hin as (y & Hk & Hin).
    apply keep_fresh_not_seen in Hin. apply Hin.
    apply elem_of_union_l, elem_of_singleton. congruence.
Qed.

(** Every key of the input is seen already or kept. *)
Lemma keep_fresh_covers seen l x :
  x ∈ l -> key x ∈ seen \/ key x ∈ key <$> keep_fresh key seen l.
Proof.
  revert seen. induction l as [|y l IH]; intros seen; simpl.
  - by intros ?%elem_of_nil.
  - intros [->|Hin]%elem_of_cons.
    + case_decide; [by left|]. right. rewrite fmap_cons. by left.
    + case_decide as Hy; [by apply IH|].
      destruct (IH ({[key y]} ∪ seen) Hin) as [Hs|Hk].
      * apply elem_of_union in Hs as [Hs%elem_of_singleton|Hs]; [|by left].
        right. rewrite fmap_cons, Hs. by left.
      * right. rewrite fmap_cons. by right.
Qed.

End SeenLoopFacts.

(** ** The web scanner: targets and findings *)

Section NiktoReadingFacts.
Import PyText Py NmapXml Nikto NiktoReading SeenLoop.

Lemma _extract_web_targets_keep_fresh hosts :
  _extract_web_targets hosts
  = keep_fresh target_key ∅
      (flat_map (fun h => flat_map (web_target (ip h)) (ports h)) hosts).
Proof.
  unfold _extract_web_targets.
  change unique_step with (seen_step target_key).
  by rewrite fold_seen_step.
Qed.

Lemma web_target_shape ip0 p t :
  t ∈ web_target ip0 p ->
  target_host t = ip0
  /\ target_port t = pretty (port p)
  /\ (target_scheme t = "http" \/ target_scheme t = "https")
  /\ target_url t = url_of t.
Proof.
  unfold web_target, url_of.
  destruct (_ || _); [|by intros ?%elem_of_nil].
  intros ->%list_elem_of_singleton. simpl.
  destruct (_ || _); auto.
Qed.

(** X3: the web targets taken from an inventory carry pairwise different
    (host, port, scheme) keys; each one stems from a port of a host of the
    inventory, has scheme http or https, and its url is
    scheme://host:port; every port the selection accepts is represented by
    a target with its key. *)
Theorem X3_web_targets_unique_and_sound (hosts : list Host) :
  NoDup (target_key <$> _extract_web_targets hosts)
  /\ (forall t, t ∈ _extract_web_targets hosts ->
        (exists h p, h ∈ hosts /\ p ∈ ports h /\ t ∈ web_target (ip h) p)
        /\ (target_scheme t = "http" \/ target_scheme t = "https")
        /\ target_url t = url_of t)
  /\ (forall h p t, h ∈ hosts -> p ∈ ports h -> t ∈ web_target (ip h) p ->
        target_key t ∈ target_key <$> _extract_web_targets hosts).
Proof.
  rewrite _extract_web_targets_keep_fresh.
  split; [apply keep_fresh_NoDup|]. split.
  - intros t Hin.
    eapply elem_of_sublist in Hin; [|apply keep_fresh_sublist].
    apply list_elem_of_In, in_flat_map in Hin as (h & Hh & Hin).
    apply in_flat_map in Hin as (p & Hp & Hin).
    apply list_elem_of_In in Hh, Hp, Hin.
    destruct (web_target_shape _ _ _ Hin) as (_ & _ & Hs & Hu). eauto 10.
  - intros h p t Hh Hp Hin.
    destruct (keep_fresh_covers target_key ∅
                (flat_map (fun h => flat_map (web_target (ip h)) (ports h)) hosts)
                t) as [Hs|Hk]; [|by apply not_elem_of_empty in Hs|done].
    apply list_elem_of_In, in_flat_map. exists h.
    split; [by apply list_elem_of_In|].
    apply in_flat_map. exists p. by rewrite <- !list_elem_of_In.
Qed.

Lemma any_keyword_app ks1 ks2 text :
  any_keyword (ks1 ++ ks2) text = any_keyword ks1 text || any_keyword ks2 text.
Proof. unfold any_keyword. apply existsb_app. Qed.

Lemma assess_severity_levels description :
  assess_severity description ∈ ["high"; "medium"; "low"; "info"]
  /\ (assess_severity description = "high"
      <-> any_keyword ["critical"; "dangerous"; "exploit"]
                      (py_lower description) = true)
  /\ (assess_severity description = "info"
      <-> any_keyword all_keywords (py_lower description) = false).
Proof.
  unfold assess_severity, all_keywords.
  change ["critical"; "dangerous"; "exploit"; "vulnerable"; "security"; "risk";
          "warning"; "outdated"]
    with (["critical"; "dangerous"; "exploit"]
            ++ ["vulnerable"; "security"; "risk"] ++ ["warning"; "outdated"]).
  rewrite !any_keyword_app.
  destruct (any_keyword ["critical"; "dangerous"; "exploit"] _);
    destruct (any_keyword ["vulnerable"; "security"; "risk"] _);
    destruct (any_keyword ["warning"; "outdated"] _); simpl;
    (split; [set_solver|]); split; split; done.
Qed.

Lemma line_finding_stripped line f :
  f ∈ line_finding line ->
  strip (finding_type f) = finding_type f
  /\ strip (finding_description f) = finding_description f
  /\ severity f = assess_severity (finding_description f).
Proof.
  unfold line_finding. destruct (search_vuln_pattern line) as [[g1 g2]|].
  - intros ->%list_elem_of_singleton. simpl. by rewrite !strip_idem.
  - by intros ?%elem_of_nil.
Qed.

Lemma flat_map_length_le {X Y} (f : X -> list Y) (l : list X) :
  (forall x, List.length (f x) <= 1) ->
  List.length (flat_map f l) <= List.length l.
Proof.
  intros Hf. induction l as [|x l IH]; simpl; [done|].
  rewrite length_app. specialize (Hf x). lia.
Qed.

(** X4: the findings read from the output of nikto are at most one per
    line; type and description carry no surrounding white space; the
    severity is one of high, medium, low and info, is high exactly when the
    description mentions critical, dangerous or exploit in any letter case,
    and is info exactly when it mentions none of the eight keywords. *)
Theorem X4_nikto_findings (output : string) :
  List.length (_parse_nikto_output output)
  <= List.length (split_on newline output)
  /\ forall f, f ∈ _parse_nikto_output output ->
       strip (finding_type f) = finding_type f
       /\ strip (finding_description f) = finding_description f
       /\ severity f ∈ ["high"; "medium"; "low"; "info"]
       /\ (severity f = "high"
           <-> any_keyword ["critical"; "dangerous"; "exploit"]
                           (py_lower (finding_description f)) = true)
       /\ (severity f = "info"
           <-> any_keyword all_keywords
                           (py_lower (finding_description f)) = false).
Proof.
  unfold _parse_nikto_output. split.
  - apply flat_map_length_le. intros line. unfold line_finding.
    destruct (search_vuln_pattern line) as [[? ?]|]; simpl; lia.
  - intros f Hin. apply list_elem_of_In, in_flat_map in Hin as (line & _ & Hin).
    apply list_elem_of_In, line_finding_stripped in Hin as (Ht & Hd & ->).
    split; [done|]. split; [done|]. apply assess_severity_levels.
Qed.

End NiktoReadingFacts.

(** ** High-risk hosts *)

Section HighRiskFacts.
Import Py Vulnerability Correlate.

Lemma count_levels_le (vulns : list Vuln) :
  count_level "critical" vulns + count_level "high" vulns <= List.length vulns.
Proof.
  unfold count_level. induction vulns as [|v vulns IH]; simpl; [done|].
  repeat case_bool_decide; simpl; try lia. congruence.
Qed.

Lemma high_risk_sublist (by_host : list (option string * list Vuln)) :
  sublist (hr_host <$> _identify_high_risk_hosts by_host) by_host.*1.
Proof.
  unfold _identify_high_risk_hosts.
  induction by_host as [|[h vulns] m IH]; simpl; [done|].
  destruct (_ || _); simpl; [by apply sublist_skip|by apply sublist_cons].
Qed.

Lemma high_risk_entries (by_host : list (option string * list Vuln)) r :
  r ∈ _identify_high_risk_hosts by_host ->
  exists vulns,
    (hr_host r, vulns) ∈ by_host
    /\ critical_vulns r = count_level "critical" vulns
    /\ high_vulns r = count_level "high" vulns
    /\ total_vulns r = List.length vulns
    /\ (2 <= critical_vulns r \/ 1 <= critical_vulns r /\ 2 <= high_vulns r).
Proof.
  unfold _identify_high_risk_hosts.
  intros Hin. apply list_elem_of_In, in_flat_map in Hin as ([h vulns] & Hg & Hin).
  exists vulns.
  destruct (_ || _) eqn:Hc; [|done].
  destruct Hin as [<-|[]]. simpl.
  split; [by apply list_elem_of_In|]. repeat split.
  apply orb_true_iff in Hc as [Hc|Hc].
  - left. by apply Nat.leb_le in Hc.
  - right. apply andb_true_iff in Hc as [H1 H2].
    split; by apply Nat.leb_le.
Qed.

(** X5: the high-risk hosts reported for a list of vulnerabilities are
    hosts of that list, each reported once; an entry counts the
    vulnerabilities of its host, has at least one critical one, at least
    two critical ones or else at least two high ones, and its critical and
    high counts together do not exceed its total. *)
Theorem X5_high_risk_hosts (vulnerabilities : list Vuln) :
  NoDup (hr_host <$> _identify_high_risk_hosts (group_by_host vulnerabilities))
  /\ forall r, r ∈ _identify_high_risk_hosts (group_by_host vulnerabilities) ->
       let host_vulns := List.filter (same_host (hr_host r)) vulnerabilities in
       total_vulns r = List.length host_vulns
       /\ critical_vulns r = count_level "critical" host_vulns
       /\ high_vulns r = count_level "high" host_vulns
       /\ 1 <= critical_vulns r
       /\ (2 <= critical_vulns r \/ 2 <= high_vulns r)
       /\ critical_vulns r + high_vulns r <= total_vulns r.
Proof.
  destruct (group_by_host_grouped vulnerabilities) as (Hnd & Hall & _).
  split.
  - eapply sublist_NoDup; [exact Hnd|]. apply high_risk_sublist.
  - intros r Hin.
    destruct (high_risk_entries _ _ Hin) as (vulns & Hg & Hc & Hh & Ht & Hcond).
    eapply Forall_forall in Hall; [|exact Hg]. destruct Hall as [Hf _].
    simpl in Hf. subst vulns. simpl.
    split; [done|]. split; [done|]. split; [done|].
    pose proof (count_levels_le
                  (List.filter (same_host (hr_host r)) vulnerabilities)).
    lia.
Qed.

End HighRiskFacts.

(** ** Extraction of identifiers *)

Section ExtractFacts.
Import PyText Py Vulnerability NmapXml Dedup Orchestrator ExtractReading.

Lemma digits_run_take s :
  digits_run (Nikto.take_chars (digits_run s) s) = digits_run s
  /\ String.length (Nikto.take_chars (digits_run s) s) = digits_run s.
Proof.
  induction s as [|c s [IH1 IH2]]; simpl; [done|].
  destruct (is_digit c) eqn:Hc; simpl; [|done].
  rewrite Hc, IH1, IH2. done.
Qed.

Lemma prefix_cve s :
  String.prefix "CVE-" s = true ->
  exists y, s = String "C" (String "V" (String "E" (String "-" y))).
Proof.
  intros H%String.prefix_correct.
  destruct s as [|c1 [|c2 [|c3 [|c4 y]]]]; simpl in H; try discriminate.
  injection H as -> -> -> ->. eauto.
Qed.

Lemma four_digits y :
  (4 <=? digits_run (Nikto.take_chars 4 y)) = true ->
  exists d1 d2 d3 d4 y',
    y = String d1 (String d2 (String d3 (String d4 y')))
    /\ is_digit d1 = true /\ is_digit d2 = true
    /\ is_digit d3 = true /\ is_digit d4 = true.
Proof.
  destruct y as [|d1 y]; [done|]. simpl.
  destruct (is_digit d1) eqn:H1; [|done].
  destruct y as [|d2 y]; [done|]. simpl.
  destruct (is_digit d2) eqn:H2; [|done].
  destruct y as [|d3 y]; [done|]. simpl.
  destruct (is_digit d3) eqn:H3; [|done].
  destruct y as [|d4 y]; [done|]. simpl.
  destruct (is_digit d4) eqn:H4; [|done].
  intros _. eauto 10.
Qed.

Lemma prefix_dash s :
  String.prefix "-" s = true -> exists z, s = String "-" z.
Proof.
  intros H%String.prefix_correct.
  destruct s as [|c z]; simpl in H; try discriminate.
  injection H as ->. eauto.
Qed.

(** The shape of a text that starts with a match. *)
Lemma match_cve_shape s len :
  match_cve s = Some len ->
  exists d1 d2 d3 d4 z,
    s = String "C" (String "V" (String "E" (String "-"
          (String d1 (String d2 (String d3 (String d4 (String "-" z))))))))
    /\ is_digit d1 = true /\ is_digit d2 = true
    /\ is_digit d3 = true /\ is_digit d4 = true
    /\ 1 <= digits_run z /\ len = 9 + digits_run z.
Proof.
  unfold match_cve.
  destruct (String.prefix "CVE-" s) eqn:Hp; [|done].
  apply prefix_cve in Hp as [y ->]. cbn [drop_chars].
  destruct (4 <=? _) eqn:H4; [|done].
  apply four_digits in H4 as (d1 & d2 & d3 & d4 & y' & -> & H1 & H2 & H3 & H4).
  cbn [drop_chars andb].
  destruct (String.prefix "-" y') eqn:Hd; [|done].
  apply prefix_dash in Hd as [z ->]. cbn [drop_chars].
  destruct (Nat.leb_spec 1 (digits_run z)); [|done].
  intros [= <-]. eauto 15.
Qed.

(** A match, taken on its own, is one match in full. *)
Lemma match_cve_take s len :
  match_cve s = Some len -> is_cve_id (Nikto.take_chars len s).
Proof.
  intros (d1 & d2 & d3 & d4 & z & -> & H1 & H2 & H3 & H4 & Hz & ->)%match_cve_shape.
  destruct (digits_run_take z) as [Hrun Hlen].
  unfold is_cve_id, match_cve. cbn -[digits_run Nat.leb].
  cbn [digits_run]. rewrite H1, H2, H3, H4. cbn [Nat.leb andb].
  rewrite Hrun, Hlen.
  assert (String.prefix "" (Nikto.take_chars (digits_run z) z) = true) as ->
    by (by destruct (Nikto.take_chars _ z)).
  destruct (digits_run z); [lia|done].
Qed.

Lemma findall_cve_from_ids skip s m :
  m ∈ findall_cve_from skip s -> is_cve_id m.
Proof.
  revert skip. induction s as [|c s IH]; intros skip; simpl.
  - by intros ?%elem_of_nil.
  - destruct skip as [|k]; [|apply IH].
    destruct (match_cve (String c s)) as [len|] eqn:Hm; [|apply IH].
    intros [->|Hin]%elem_of_cons; [|by eapply IH].
    by apply match_cve_take.
Qed.

(** X6: every identifier found in a text is, on its own, one full match of
    the pattern: "CVE-", four digits, a dash and one digit or more. *)
Theorem X6_findall_cve_well_formed (text m : string) :
  m ∈ findall_cve text ->
  is_cve_id m
  /\ String.prefix "CVE-" m = true
  /\ 10 <= String.length m.
Proof.
  intros Hin. apply findall_cve_from_ids in Hin.
  split; [done|]. unfold is_cve_id in Hin.
  destruct (match_cve_shape _ _ Hin) as
    (d1 & d2 & d3 & d4 & z & -> & _ & _ & _ & _ & Hz & Hlen).
  split; [done|]. simpl in *. lia.
Qed.

Lemma X6_witness :
  is_cve_id "CVE-2021-44228"
  /\ String.prefix "CVE-" "CVE-2021-44228" = true
  /\ 10 <= String.length "CVE-2021-44228".
Proof.
  apply (X6_findall_cve_well_formed "Log4Shell (CVE-2021-44228) found").
  vm_compute. left.
Defined.

End ExtractFacts.

(** ** Extraction, enrichment and the phase boundaries *)

Section PhaseFacts.
Import PyText Py Vulnerability NmapXml Dedup Orchestrator ExtractReading
       PhaseReading.

Lemma flat_mapM_Forall {X Y} (P : Y -> Prop) (f : X -> exc (list Y)) l r :
  (forall x ys, x ∈ l -> f x = Ok ys -> Forall P ys) ->
  flat_mapM f l = Ok r -> Forall P r.
Proof.
  revert r. induction l as [|x l IH]; intros r Hf; simpl.
  - intros [= <-]. constructor.
  - destruct (f x) as [ys| |] eqn:Hx; simpl; [|done..].
    destruct (flat_mapM f l) as [more| |]; simpl; [|done..].
    intros [= <-]. apply Forall_app. split.
    + eapply Hf; [by left|done].
    + apply IH; [|done]. intros y zs Hy. apply Hf. by right.
Qed.

Lemma script_vulns_records h p script vs :
  script_vulns h p script = Ok vs ->
  Forall (fun v => extracted_record v /\ source v = Val "nmap_script") vs.
Proof.
  unfold script_vulns.
  destruct (script_id script) as [id|]; [|done].
  destruct (_ || _); [|intros [= <-]; constructor].
  destruct (output script) as [out|]; [|done]. intros [= <-].
  apply Forall_fmap, Forall_forall. intros cve Hin.
  apply findall_cve_from_ids in Hin. unfold extracted_record. simpl.
  repeat split; eauto. by destruct (ip h).
Qed.

Lemma nmap_vulns_records hosts vs :
  nmap_vulns hosts = Ok vs ->
  Forall (fun v => extracted_record v /\ source v = Val "nmap_script") vs.
Proof.
  unfold nmap_vulns. apply flat_mapM_Forall. intros h ys _.
  apply flat_mapM_Forall. intros p zs _.
  apply flat_mapM_Forall. intros script ws _. apply script_vulns_records.
Qed.

Lemma scan_vulns_records scan vs :
  scan_vulns scan = Ok vs -> Forall extracted_record vs.
Proof.
  unfold scan_vulns. destruct scan as [d| |]; [|done..]. intros [= <-].
  apply Forall_forall. intros v Hin.
  apply list_elem_of_In, in_flat_map in Hin as (f & _ & Hin).
  unfold finding_vulns in Hin.
  apply list_elem_of_In, list_elem_of_fmap in Hin as (cve & -> & Hin).
  apply findall_cve_from_ids in Hin. unfold extracted_record. simpl.
  repeat split; eauto. by destruct (Nikto.target_host _).
Qed.

Lemma first_with_app k l1 l2 :
  first_with k (l1 ++ l2)
  = match first_with k l1 with
    | Some v => Some v
    | None => first_with k l2
    end.
Proof.
  unfold first_with. induction l1 as [|x l1 IH]; simpl; [done|].
  by case_bool_decide.
Qed.

Lemma first_with_elem k l v :
  v ∈ l -> vuln_key v = k ->
  exists w, first_with k l = Some w /\ w ∈ l /\ vuln_key w = k.
Proof.
  unfold first_with. intros Hin Hk.
  destruct (List.find _ l) as [w|] eqn:Hf.
  - apply find_some in Hf as [Hw Hkw]. apply bool_decide_eq_true in Hkw.
    exists w. by rewrite list_elem_of_In.
  - apply list_elem_of_In in Hin. pose proof (find_none _ _ Hf v Hin) as Hn.
    by apply bool_decide_eq_false in Hn.
Qed.

(** X7: when the extraction phase returns, no two of its records share
    the key (cve_id, host); the count it prints is their number; each
    record carries a well-formed identifier, a host key and the source
    nmap_script or nikto; and a key reported by an nmap script is
    represented by a record whose source is nmap_script, whatever nikto
    reported for it. *)
Theorem X7_extraction_result
    (nmap_results : option (list Host))
    (nikto_results : option Nikto.NiktoResults)
    (vulns : list Vuln) (out : list event) :
  _extract_vulnerabilities nmap_results nikto_results = (Ok vulns, out) ->
  NoDup (vuln_key <$> vulns)
  /\ out = [PhaseExtract; Extracted (List.length vulns)]
  /\ Forall extracted_record vulns
  /\ exists from_nmap,
       nmap_vulns (hosts_of nmap_results) = Ok from_nmap
       /\ forall v, v ∈ from_nmap ->
            exists w, w ∈ vulns /\ vuln_key w = vuln_key v
                      /\ source w = Val "nmap_script".
Proof.
  unfold _extract_vulnerabilities. cbn [say bind_run lift app].
  destruct (nmap_vulns (hosts_of nmap_results)) as [from_nmap| |] eqn:Hn;
    cbn [bind_run]; [|done..].
  destruct (flat_mapM scan_vulns (nikto_scans nikto_results))
    as [from_nikto| |] eqn:Hk; cbn [bind_run ret say app]; [|done..].
  intros [= <- <-].
  pose proof (nmap_vulns_records _ _ Hn) as Hrec_n.
  pose proof (flat_mapM_Forall extracted_record scan_vulns _ _
                (fun x ys _ => scan_vulns_records x ys) Hk) as Hrec_k.
  rewrite deduplicate_keep_new.
  split; [apply keep_new_NoDup|]. split; [done|]. split.
  - apply Forall_forall. intros v Hin.
    eapply elem_of_sublist in Hin; [|apply keep_new_sublist].
    apply elem_of_app in Hin as [Hin|Hin].
    + eapply Forall_forall in Hrec_n; [|done]. by destruct Hrec_n.
    + by eapply Forall_forall in Hrec_k.
  - exists from_nmap. split; [done|]. intros v Hv.
    destruct (first_with_elem (vuln_key v) from_nmap v Hv eq_refl)
      as (w & Hfirst & Hw & Hkey).
    exists w. split; [|split; [done|]].
    + assert (first_with (vuln_key v) (keep_new ∅ (from_nmap ++ from_nikto))
              = Some w) as Hf.
      { rewrite keep_new_first, decide_False by apply not_elem_of_empty.
        by rewrite first_with_app, Hfirst. }
      unfold first_with in Hf. apply find_some in Hf as [Hf _].
      by apply list_elem_of_In.
    + eapply Forall_forall in Hrec_n; [|exact Hw]. by destruct Hrec_n.
Qed.

Lemma X7_witness :
  NoDup (vuln_key <$> [vulners_record "CVE-2021-44228";
                       vulners_record "CVE-2022-1234"])
  /\ [PhaseExtract; Extracted 2]
     = [PhaseExtract;
        Extracted (List.length [vulners_record "CVE-2021-44228";
                                vulners_record "CVE-2022-1234"])]
  /\ Forall extracted_record [vulners_record "CVE-2021-44228";
                              vulners_record "CVE-2022-1234"]
  /\ exists from_nmap,
       nmap_vulns (hosts_of (Some [vulners_host])) = Ok from_nmap
       /\ forall v, v ∈ from_nmap ->
            exists w, w ∈ [vulners_record "CVE-2021-44228";
                           vulners_record "CVE-2022-1234"]
                      /\ vuln_key w = vuln_key v
                      /\ source w = Val "nmap_script".
Proof.
  apply (X7_extraction_result (Some [vulners_host]) None).
  vm_compute. reflexivity.
Defined.

Lemma try_except_contained {A} (body : run A) (handler : exn -> run A) :
  (forall e, exists a out, handler e = (Ok a, out)) ->
  contained (try_except body handler).
Proof.
  intros Hh. unfold contained, try_except.
  destruct body as [[a|e|] out]; simpl; [done| |done].
  destruct (is_Exception e) eqn:He; [|done].
  destruct (Hh e) as (a & out' & ->). done.
Qed.





Example two_enrichers_run :
  _enrich_vulnerabilities two_enrichers [vulners_record "CVE-2021-44228"]
  = (Ok [vulners_record "CVE-2021-44228"],
     [PhaseEnrich; RunningEnricher "epss_enricher";
      RunningEnricher "exploitdb_enricher";
      EnricherFailed "exploitdb_enricher" (RuntimeError "connection refused");
      EnrichmentCompleted]).
Proof. vm_compute. reflexivity. Qed.

Lemma enrich_loop_contained es vulns : contained (enrich_loop es vulns).
Proof.
  revert vulns. induction es as [|e es IH]; intros vulns; simpl; [done|].
  unfold contained in *.
  destruct (enrich e vulns) as [l'|x|]; simpl.
  - specialize (IH l'). by destruct (enrich_loop es l') as [[?|?|] ?].
  - destruct (is_Exception x) eqn:Hx; simpl; [|done].
    specialize (IH vulns). by destruct (enrich_loop es vulns) as [[?|?|] ?].
  - done.
Qed.

(** X9: none of the phases wrapped in try/except lets an Exception out:
    the nmap, nikto, enrichment and AI phases return, block, or raise
    something that is not an instance of Exception. *)
Theorem X9_phases_contain_exceptions
    (plugins : Plugins) (nmap_results : option (list Host))
    (vulns : list Vuln) :
  contained (_run_nmap plugins)
  /\ contained (_run_nikto plugins nmap_results)
  /\ contained (_enrich_vulnerabilities plugins vulns)
  /\ contained (_run_ai_analysis plugins).
Proof.
  repeat split.
  - unfold _run_nmap. cbn [say bind_run].
    destruct (nmap_plugin plugins) as [w|]; [|done].
    pose proof (try_except_contained
      (bind_run (nmap_execute w) (fun hosts =>
         bind_run (say (NmapCompleted (List.length hosts)))
                  (fun _ => ret (Some hosts))))
      (fun e => bind_run (say (NmapFailed e)) (fun _ => ret None))) as Hc.
    unfold contained in *.
    destruct (try_except _ _) as [[?|?|] ?]; simpl in *; try done.
    apply Hc. intros x. cbn. eauto.
  - unfold _run_nikto. cbn [say bind_run].
    destruct (nikto_plugin plugins) as [w|]; [|done].
    match goal with
    | |- contained (let '(r, out') := try_except ?b ?h in _) =>
        pose proof (try_except_contained b h) as Hc;
        unfold contained in *; destruct (try_except b h) as [[?|?|] ?]
    end; simpl in *; try done.
    apply Hc. intros x. cbn. eauto.
  - unfold _enrich_vulnerabilities. cbn [say bind_run].
    destruct vulns as [|v vulns]; [done|].
    pose proof (enrich_loop_contained (enrichers plugins) (v :: vulns)) as Hc.
    unfold contained in *.
    by destruct (enrich_loop _ _) as [[?|?|] ?].
  - unfold _run_ai_analysis. cbn [say bind_run].
    destruct (ai_plugin plugins) as [execute|]; [|done].
    match goal with
    | |- contained (let '(r, out') := try_except ?b ?h in _) =>
        pose proof (try_except_contained b h) as Hc;
        unfold contained in *; destruct (try_except b h) as [[?|?|] ?]
    end; simpl in *; try done.
    apply Hc. intros x. cbn. eauto.
Qed.

End PhaseFacts.

(** ** Sorting into a set *)

Section SortedSetFacts.
Import SortedSet.

Lemma ascii_compare_refl a : Ascii.compare a a = Eq.
Proof. unfold Ascii.compare. apply N.compare_refl. Qed.

Lemma ascii_compare_trans a b c :
  Ascii.compare a b = Lt -> Ascii.compare b c = Lt -> Ascii.compare a c = Lt.
Proof.
  unfold Ascii.compare. rewrite !N.compare_lt_iff. apply N.lt_trans.
Qed.

Lemma string_compare_refl s : String.compare s s = Eq.
Proof. induction s as [|c s IH]; simpl; [done|]. by rewrite ascii_compare_refl. Qed.

Lemma string_compare_trans s1 s2 s3 :
  String.compare s1 s2 = Lt -> String.compare s2 s3 = Lt ->
  String.compare s1 s3 = Lt.
Proof.
  revert s2 s3. induction s1 as [|c1 s1 IH]; intros [|c2 s2] [|c3 s3];
    simpl; try done.
  destruct (Ascii.compare c1 c2) eqn:H12; [| |done];
    destruct (Ascii.compare c2 c3) eqn:H23; try done.
  - apply Ascii.compare_eq_iff in H12, H23. subst.
    rewrite ascii_compare_refl. apply IH.
  - apply Ascii.compare_eq_iff in H12. subst. by rewrite H23.
  - apply Ascii.compare_eq_iff in H23. subst. by rewrite H12.
  - by rewrite (ascii_compare_trans _ _ _ H12 H23).
Qed.

Lemma string_strict_compare : strict_compare String.compare.
Proof.
  split.
  - intros x y. split; [apply String.compare_eq_iff|].
    intros ->. apply string_compare_refl.
  - intros x y. apply String.compare_antisym.
  - apply string_compare_trans.
Qed.

Lemma pair_strict_compare {A B} (ca : A -> A -> comparison)
    (cb : B -> B -> comparison) :
  strict_compare ca -> strict_compare cb ->
  strict_compare (compare_pair ca cb).
Proof.
  intros [Ea Aa Ta] [Eb Ab Tb]. unfold compare_pair, lex. split.
  - intros [a b] [a' b']. simpl. split.
    + destruct (ca a a') eqn:Hc; try done. intros Hb.
      apply Ea in Hc. apply Eb in Hb. by subst.
    + intros [= -> ->]. rewrite (proj2 (Ea a' a') eq_refl). by apply Eb.
  - intros [a b] [a' b']. simpl. rewrite Aa, Ab.
    by destruct (ca a a').
  - intros [a1 b1] [a2 b2] [a3 b3]. simpl.
    destruct (ca a1 a2) eqn:H12; [| |done];
      destruct (ca a2 a3) eqn:H23; try done.
    + apply Ea in H12, H23. subst. rewrite (proj2 (Ea a3 a3) eq_refl). apply Tb.
    + apply Ea in H12. subst. by rewrite H23.
    + apply Ea in H23. subst. by rewrite H12.
    + by rewrite (Ta _ _ _ H12 H23).
Qed.

Section Insert.
Context {T : Type} (cmp : T -> T -> comparison) (Hcmp : strict_compare cmp).

Lemma cmp_gt_lt x y : cmp x y = Gt -> cmp y x = Lt.
Proof. intros H. rewrite (cmp_antisym _ Hcmp), H. done. Qed.

Lemma insert_by_elem r l x : x ∈ insert_by cmp r l <-> x = r \/ x ∈ l.
Proof.
  induction l as [|y l IH]; simpl.
  - rewrite list_elem_of_singleton, elem_of_nil. tauto.
  - destruct (cmp r y) eqn:Hc.
    + apply (cmp_eq _ Hcmp) in Hc. subst. rewrite elem_of_cons. tauto.
    + rewrite !elem_of_cons. tauto.
    + rewrite !elem_of_cons, IH. tauto.
Qed.

Lemma insert_by_sorted r l :
  StronglySorted (lt_by cmp) l -> StronglySorted (lt_by cmp) (insert_by cmp r l).
Proof.
  induction 1 as [|y l Hs IH Hall]; simpl; [repeat constructor|].
  destruct (cmp r y) eqn:Hc.
  - by constructor.
  - constructor; [by constructor|]. constructor; [done|].
    eapply Forall_impl; [exact Hall|]. intros z Hz.
    exact (cmp_trans _ Hcmp _ _ _ Hc Hz).
  - constructor; [done|]. apply Forall_forall. intros z Hz.
    apply insert_by_elem in Hz as [->|Hz].
    + by apply cmp_gt_lt.
    + by eapply Forall_forall in Hall.
Qed.

Lemma sorted_set_by_sorted xs : StronglySorted (lt_by cmp) (sorted_set_by cmp xs).
Proof.
  induction xs as [|x xs IH]; simpl; [constructor|]. by apply insert_by_sorted.
Qed.

Lemma sorted_set_by_elem xs x : x ∈ sorted_set_by cmp xs <-> x ∈ xs.
Proof.
  induction xs as [|y xs IH]; simpl; [done|].
  rewrite insert_by_elem, elem_of_cons, IH. done.
Qed.

Lemma strongly_sorted_NoDup l : StronglySorted (lt_by cmp) l -> NoDup l.
Proof.
  induction 1 as [|y l Hs IH Hall]; constructor; [|done].
  intros Hin. eapply Forall_forall in Hall; [|exact Hin].
  unfold lt_by in Hall. by rewrite (proj2 (cmp_eq _ Hcmp y y) eq_refl) in Hall.
Qed.

End Insert.

End SortedSetFacts.

(** ** The greppable summary: order and content *)

Section GnmapOrderFacts.
Import PyText Gnmap SortedSet.

Lemma row_compare_lex a b :
  row_compare a b
  = compare_pair
      (compare_pair (compare_pair String.compare String.compare) String.compare)
      String.compare a b.
Proof.
  destruct a as [[[h1 p1] pr1] s1], b as [[[h2 p2] pr2] s2].
  unfold compare_pair, lex. simpl.
  by destruct (String.compare h1 h2), (String.compare p1 p2),
    (String.compare pr1 pr2).
Qed.

Lemma row_strict_compare : strict_compare row_compare.
Proof.
  pose proof (pair_strict_compare _ _
    (pair_strict_compare _ _
       (pair_strict_compare _ _ string_strict_compare string_strict_compare)
       string_strict_compare) string_strict_compare) as [E A T].
  split; intros *; rewrite ?row_compare_lex; [apply E|apply A|apply T].
Qed.

Lemma sorted_set_by_rows rows : sorted_set rows = sorted_set_by row_compare rows.
Proof. reflexivity. Qed.

Lemma seg_rows_service host seg r : r ∈ seg_rows host seg -> r.2 <> "".
Proof.
  unfold seg_rows. repeat case_match; try (by intros ?%elem_of_nil).
  - intros ->%list_elem_of_singleton. done.
  - intros ->%list_elem_of_singleton. simpl. by apply String.eqb_neq.
Qed.

(** X10: the rows of the summary are in strictly ascending order of
    (host, port, proto, service), compared as text, so no row occurs twice;
    they are exactly the rows read from the lines; and no row has an empty
    service. *)
Theorem X10_summary_sorted_and_complete (lines : list string) :
  StronglySorted (lt_by row_compare) (summarize_gnmap lines)
  /\ NoDup (summarize_gnmap lines)
  /\ (forall r, r ∈ summarize_gnmap lines <-> r ∈ flat_map line_rows lines)
  /\ (forall r, r ∈ summarize_gnmap lines -> r.2 <> "").
Proof.
  unfold summarize_gnmap. rewrite sorted_set_by_rows.
  pose proof (sorted_set_by_sorted row_compare row_strict_compare
                (flat_map line_rows lines)) as Hs.
  split; [done|]. split; [by eapply strongly_sorted_NoDup, Hs; apply row_strict_compare|].
  split; [intros r; apply sorted_set_by_elem, row_strict_compare|].
  intros r Hin. apply sorted_set_by_elem in Hin; [|apply row_strict_compare].
  apply list_elem_of_In, in_flat_map in Hin as (line & _ & Hin).
  unfold line_rows in Hin. destruct (_ && _); [|done].
  apply in_flat_map in Hin as (seg & _ & Hin).
  by eapply seg_rows_service, list_elem_of_In.
Qed.

End GnmapOrderFacts.

(** ** The targets file *)

Section ScriptFacts.
Import PyText Script.

Lemma read_nonempty_lines_elem raws s :
  s ∈ read_nonempty_lines raws ->
  s <> "" /\ String.prefix "#" s = false /\ strip s = s
  /\ exists raw, raw ∈ raws /\ s = strip raw.
Proof.
  unfold read_nonempty_lines. intros Hin.
  apply list_elem_of_In, in_flat_map in Hin as (raw & Hraw & Hin).
  destruct (String.eqb (strip raw) "") eqn:He; [done|].
  destruct (String.prefix "#" (strip raw)) eqn:Hp; [done|].
  destruct Hin as [<-|[]].
  split; [by apply String.eqb_neq|]. split; [done|].
  split; [apply strip_idem|]. exists raw. by rewrite list_elem_of_In.
Qed.

Lemma read_nonempty_lines_fixed l :
  Forall (fun s => s <> "" /\ String.prefix "#" s = false /\ strip s = s) l ->
  read_nonempty_lines l = l.
Proof.
  unfold read_nonempty_lines.
  induction 1 as [|s l (Hne & Hp & Hs) _ IH]; simpl; [done|].
  rewrite Hs, Hp, IH. by apply String.eqb_neq in Hne as ->.
Qed.

(** X11: every line kept from the targets file is non-empty, has no
    surrounding white space and does not start with "#"; it is the
    stripped text of a line of the file; at most one line is kept per line;
    and reading the sanitised lines again returns them unchanged. *)
Theorem X11_targets_are_sanitised (raws : list string) :
  (forall s, s ∈ read_nonempty_lines raws ->
     s <> "" /\ String.prefix "#" s = false /\ strip s = s
     /\ exists raw, raw ∈ raws /\ s = strip raw)
  /\ List.length (read_nonempty_lines raws) <= List.length raws
  /\ read_nonempty_lines (read_nonempty_lines raws) = read_nonempty_lines raws.
Proof.
  split; [apply read_nonempty_lines_elem|]. split.
  - unfold read_nonempty_lines. apply flat_map_length_le. intros raw.
    destruct (_ || _); simpl; lia.
  - apply read_nonempty_lines_fixed, Forall_forall. intros s Hin.
    by destruct (read_nonempty_lines_elem _ _ Hin) as (? & ? & ? & _).
Qed.

Example read_nonempty_lines_sample :
  read_nonempty_lines
    ["# lab network"; "10.0.0.0/24 "; ""; "   "; "  scanme.nmap.org";
     "  # 10.0.0.9"]
  = ["10.0.0.0/24"; "scanme.nmap.org"].
Proof. vm_compute. reflexivity. Qed.

(** ** The chunks of the AI corpus *)

Lemma take_drop_chars n s : Nikto.take_chars n s +:+ drop_chars n s = s.
Proof.
  revert s. induction n as [|n IH]; intros [|c s]; simpl; try done.
  change (String c (Nikto.take_chars n s +:+ drop_chars n s) = String c s).
  by rewrite IH.
Qed.

Lemma drop_chars_add a b s : drop_chars (a + b) s = drop_chars b (drop_chars a s).
Proof.
  revert s. induction a as [|a IH]; intros s; simpl; [done|].
  destruct s as [|c s]; [by destruct b|]. apply IH.
Qed.

Lemma length_drop_chars n s :
  String.length (drop_chars n s) = String.length s - n.
Proof.
  revert s. induction n as [|n IH]; intros [|c s]; simpl; try done; lia.
Qed.

Lemma length_take_chars n s :
  String.length (Nikto.take_chars n s) = Nat.min n (String.length s).
Proof.
  revert s. induction n as [|n IH]; intros [|c s]; simpl; try done.
  by rewrite IH.
Qed.

Lemma string_length_zero s : String.length s = 0 -> s = "".
Proof. by destruct s. Qed.

Lemma append_empty_r s : s +:+ "" = s.
Proof.
  induction s as [|c s IH]; [done|].
  change (String c (s +:+ "") = String c s). by rewrite IH.
Qed.

Lemma concat_empty_cons h t :
  String.concat "" (h :: t) = h +:+ String.concat "" t.
Proof. destruct t; simpl; [by rewrite append_empty_r|done]. Qed.

(** The slices at the multiples of [chunk] below [m * chunk]. *)
Lemma chunks_concat chunk m s :
  String.length s <= m * chunk ->
  String.concat ""
    ((fun i => slice i (i + chunk) s) <$> ((fun k => k * chunk) <$> seq 0 m))
  = s.
Proof.
  revert s. induction m as [|m IH]; intros s Hlen.
  - simpl in *. symmetry. apply string_length_zero. lia.
  - rewrite <- cons_seq, <- fmap_S_seq, !fmap_cons, <- !list_fmap_compose.
    specialize (IH (drop_chars chunk s)).
    rewrite length_drop_chars in IH. specialize (IH ltac:(simpl in Hlen; lia)).
    assert (forall l : list nat,
              (fun i => slice i (i + chunk) s) ∘ (fun k => k * chunk) ∘ S <$> l
              = (fun i => slice i (i + chunk) (drop_chars chunk s))
                  <$> ((fun k => k * chunk) <$> l)) as Hshift.
    { intros l. rewrite <- list_fmap_compose. apply list_fmap_ext.
      intros _ k _. unfold slice. simpl.
      replace (chunk + k * chunk + chunk - (chunk + k * chunk)) with chunk by lia.
      replace (k * chunk + chunk - k * chunk) with chunk by lia.
      by rewrite drop_chars_add. }
    rewrite Hshift, concat_empty_cons, IH. unfold slice.
    change (0 * chunk) with 0. rewrite Nat.add_0_l, Nat.sub_0_r.
    apply take_drop_chars.
Qed.

End ScriptFacts.

Section ChunkFacts.
Import PyText Script.

Lemma range_count_bounds stop step :
  0 < step ->
  stop <= range_count stop step * step
  /\ (0 < stop -> (range_count stop step - 1) * step < stop).
Proof.
  intros Hstep. unfold range_count.
  pose proof (Nat.div_mod_eq (stop + step - 1) step) as Hdm.
  pose proof (Nat.mod_upper_bound (stop + step - 1) step ltac:(lia)) as Hub.
  set (q := (stop + step - 1) / step) in *.
  set (r := (stop + step - 1) mod step) in *.
  split; [nia|]. intros Hpos. destruct q as [|q]; simpl; nia.
Qed.

Lemma chunk_parts_concat chunk blob :
  0 < chunk -> String.concat "" (chunk_parts chunk blob) = blob.
Proof.
  intros Hc. unfold chunk_parts, range_step. apply chunks_concat.
  by apply range_count_bounds.
Qed.

Lemma chunk_parts_lengths chunk blob :
  0 < chunk ->
  Forall (fun p => 1 <= String.length p <= chunk) (chunk_parts chunk blob).
Proof.
  intros Hc. unfold chunk_parts, range_step.
  rewrite <- list_fmap_compose. apply Forall_fmap, Forall_forall.
  intros k Hk. apply elem_of_seq in Hk. simpl. unfold slice.
  rewrite length_take_chars, length_drop_chars.
  replace (k * chunk + chunk - k * chunk) with chunk by lia.
  destruct (range_count_bounds (String.length blob) chunk Hc) as [_ Hlt].
  assert (0 < String.length blob) as Hpos.
  { destruct (String.length blob) eqn:Hn; [|lia].
    unfold range_count in Hk. simpl in Hk.
    rewrite Nat.div_small in Hk by lia. lia. }
  specialize (Hlt Hpos). nia.
Qed.

Lemma chunk_parts_count chunk blob :
  0 < chunk ->
  String.length blob <= List.length (chunk_parts chunk blob) * chunk
  /\ (0 < String.length blob ->
      (List.length (chunk_parts chunk blob) - 1) * chunk < String.length blob).
Proof.
  intros Hc. unfold chunk_parts, range_step.
  rewrite !length_fmap, length_seq. by apply range_count_bounds.
Qed.

Lemma length_append s t :
  String.length (s +:+ t) = String.length s + String.length t.
Proof.
  induction s as [|c s IH]; [done|].
  change (S (String.length (s +:+ t)) = S (String.length s) + String.length t).
  by rewrite IH.
Qed.

Lemma CHUNK_pos : 0 < CHUNK.
Proof. unfold CHUNK. lia. Qed.

(** X12: the chunks sent to the model are the corpus cut in order: joined
    they give the corpus back, each has between one and [CHUNK]
    characters, there are as many as the length of the corpus divided by
    [CHUNK], rounded up, and there is always at least one, since the
    corpus starts with its heading. *)
Theorem X12_chunks_cover_the_corpus (nmap_normal durs_summary : option string) :
  let blob := corpus nmap_normal durs_summary in
  let parts := ai_parts nmap_normal durs_summary in
  String.concat "" parts = blob
  /\ Forall (fun p => 1 <= String.length p <= CHUNK) parts
  /\ parts <> []
  /\ (List.length parts - 1) * CHUNK < String.length blob
     <= List.length parts * CHUNK.
Proof.
  intros blob parts. subst parts. unfold ai_parts. fold blob.
  pose proof CHUNK_pos as Hc.
  assert (0 < String.length blob) as Hpos.
  { unfold blob, corpus. rewrite length_append. simpl. lia. }
  destruct (chunk_parts_count CHUNK blob Hc) as [Hle Hlt].
  split; [by apply chunk_parts_concat|].
  split; [by apply chunk_parts_lengths|].
  split; [|split; [by apply Hlt|done]].
  intros Hnil. rewrite Hnil in Hle. simpl in Hle. lia.
Qed.

Example chunk_parts_sample :
  chunk_parts 4 "0123456789" = ["0123"; "4567"; "89"]
  /\ chunk_parts 5 "0123456789" = ["01234"; "56789"]
  /\ chunk_parts 4 "" = [].
Proof. vm_compute. done. Qed.

End ChunkFacts.

(** ** The DursVuln summary *)

Section DursVulnFacts.
Import PyText DursVuln.

Lemma append_inj_suffix s1 s2 t : s1 +:+ t = s2 +:+ t -> s1 = s2.
Proof.
  revert s2. induction s1 as [|c s1 IH]; intros [|d s2] Heq; [done| | |].
  - apply (f_equal String.length) in Heq.
    change (("" +:+ t)) with t in Heq.
    change (String d s2 +:+ t) with (String d (s2 +:+ t)) in Heq.
    simpl in Heq. rewrite length_append in Heq. lia.
  - apply (f_equal String.length) in Heq.
    change (("" +:+ t)) with t in Heq.
    change (String c s1 +:+ t) with (String c (s1 +:+ t)) in Heq.
    simpl in Heq. rewrite length_append in Heq. lia.
  - change (String c (s1 +:+ t) = String d (s2 +:+ t)) in Heq.
    injection Heq as -> Heq. f_equal. by apply IH.
Qed.

Lemma with_newline_inj a b : with_newline a = with_newline b -> a = b.
Proof. apply append_inj_suffix. Qed.

(** A line copied into a block is not mistaken for a fence. *)
Lemma copied_line_no_fence line :
  mentions_dursvuln line = true \/ continues line = true ->
  String.eqb open_fence (with_newline line) = false
  /\ String.eqb close_fence (with_newline line) = false.
Proof.
  intros Hline. split; apply String.eqb_neq; intros Heq;
    apply with_newline_inj in Heq; subst line;
    by destruct Hline as [H|H]; vm_compute in H.
Qed.

Lemma header_no_fence h :
  String.eqb open_fence (markdown_header h) = false
  /\ String.eqb close_fence (markdown_header h) = false.
Proof. done. Qed.

Lemma occurrences_app x l1 l2 :
  occurrences x (l1 ++ l2) = occurrences x l1 + occurrences x l2.
Proof. unfold occurrences. by rewrite List.filter_app, length_app. Qed.

Lemma existsb_snoc {A} (f : A -> bool) l x :
  existsb f (l ++ [x]) = existsb f l || f x.
Proof. rewrite existsb_app. simpl. by rewrite orb_false_r. Qed.

Lemma invariant_start now : invariant now [] (start now) [].
Proof.
  unfold invariant. simpl. repeat split; try done.
  - intros ? Hin. by apply elem_of_nil in Hin.
Qed.

End DursVulnFacts.

Section DursVulnLoop.
Import PyText DursVuln.

Lemma occurrences_one x y :
  occurrences x [y] = if String.eqb x y then 1 else 0.
Proof. unfold occurrences. simpl. by destruct (String.eqb x y). Qed.

Lemma occurrences_cons x y l :
  occurrences x (y :: l) = (if String.eqb x y then 1 else 0) + occurrences x l.
Proof. unfold occurrences. simpl. by destruct (String.eqb x y). Qed.

Lemma step_invariant now seen st body line :
  invariant now seen st body ->
  exists body', invariant now (seen ++ [line]) (step st line) body'.
Proof.
  intros (Hbuf & Hopen & Hclose & Hsaw & Hblock & Hall & Hcopied & Hhdr).
  assert (Forall (fun x =>
            x = open_fence \/ x = close_fence
            \/ exists l, l ∈ seen ++ [line]
                 /\ (x = with_newline l
                     \/ x = markdown_header l /\ is_report l = true)) body)
    as Hall'.
  { eapply Forall_impl; [exact Hall|]. intros x [?|[?|(l & Hl & Hx)]]; auto.
    right; right. exists l. split; [|done]. apply elem_of_app. by left. }
  assert (forall h,
            (if is_report line then Some line else host_hdr st) = Some h ->
            h ∈ seen ++ [line] /\ is_report h = true) as Hhdr'.
  { intros h. destruct (is_report line) eqn:Hrep.
    - intros [= <-]. split; [|done]. apply elem_of_app. right. by left.
    - intros Hh. destruct (Hhdr h Hh). split; [|done].
      apply elem_of_app. by left. }
  unfold step.
  destruct (mentions_dursvuln line) eqn:Hm.
  - destruct (copied_line_no_fence line (or_introl Hm)) as [Ho Hc].
    set (hdr := if is_report line then Some line else host_hdr st) in *.
    exists (body ++ match hdr with Some h => [markdown_header h] | None => [] end
                 ++ [open_fence; with_newline line]).
    unfold invariant. simpl.
    split; [by rewrite Hbuf|].
    rewrite !occurrences_app, filter_snoc, Hm, length_app, existsb_snoc, Hm.
    assert (occurrences open_fence [open_fence; with_newline line] = 1) as ->.
    { by rewrite occurrences_cons, occurrences_one, String.eqb_refl, Ho. }
    assert (occurrences close_fence [open_fence; with_newline line] = 0) as ->.
    { by rewrite occurrences_cons, occurrences_one, Hc. }
    assert (occurrences open_fence
              match hdr with Some h => [markdown_header h] | None => [] end = 0
            /\ occurrences close_fence
              match hdr with Some h => [markdown_header h] | None => [] end = 0)
      as [-> ->] by (by destruct hdr).
    split; [simpl; lia|]. split; [destruct (inblock st); lia|].
    split; [by rewrite orb_true_r|]. split; [done|]. split; [|split].
    + apply Forall_app. split; [done|]. apply Forall_app. split.
      * destruct hdr as [h|] eqn:Hh; [|done]. apply Forall_singleton.
        destruct (Hhdr' h eq_refl). right; right. exists h. split; [done|].
        by right.
      * apply Forall_cons. split; [by left|]. apply Forall_singleton.
        right; right. exists line. split; [|by left].
        apply elem_of_app. right. by left.
    + intros l [Hl|Hl%list_elem_of_singleton]%elem_of_app Hml.
      * apply elem_of_app. left. by apply Hcopied.
      * subst l. apply elem_of_app. right. apply elem_of_app. right.
        right. by left.
    + done.
  - assert (List.filter mentions_dursvuln (seen ++ [line])
            = List.filter mentions_dursvuln seen) as Hf
      by (by rewrite filter_snoc, Hm, app_nil_r).
    assert (existsb mentions_dursvuln (seen ++ [line])
            = existsb mentions_dursvuln seen) as He
      by (by rewrite existsb_snoc, Hm, orb_false_r).
    assert (forall l, l ∈ seen ++ [line] -> mentions_dursvuln l = true ->
                      l ∈ seen) as Hseen.
    { intros l [Hl|Hl%list_elem_of_singleton]%elem_of_app Hml; [done|].
      subst l. congruence. }
    destruct (inblock st) eqn:Hin.
    + assert (continues line = true ->
              String.eqb open_fence (with_newline line) = false
              /\ String.eqb close_fence (with_newline line) = false) as Hcont.
      { intros Hc. apply copied_line_no_fence. by right. }
      destruct (String.eqb (strip line) "" || is_report line) eqn:Hend;
        [|destruct (continues line) eqn:Hc].
      * exists (body ++ [close_fence]). unfold invariant. simpl. rewrite Hf, He.
        split; [by rewrite Hbuf|]. rewrite !occurrences_app, !occurrences_one.
        simpl. split; [lia|]. split; [lia|]. split; [done|].
        split; [intros _; apply last_snoc|]. split; [|split].
        -- apply Forall_app. split; [done|]. apply Forall_singleton. auto.
        -- intros l Hl Hml. apply elem_of_app. left. apply Hcopied; auto.
        -- done.
      * destruct (Hcont eq_refl) as [Ho Hcl].
        exists (body ++ [with_newline line]). unfold invariant. simpl. rewrite Hf, He.
        split; [by rewrite Hbuf|]. rewrite !occurrences_app, !occurrences_one.
        rewrite Ho, Hcl. split; [lia|]. split; [lia|]. split; [done|].
        split; [done|]. split; [|split].
        -- apply Forall_app. split; [done|]. apply Forall_singleton.
           right; right. exists line. split; [|by left].
           apply elem_of_app. right. by left.
        -- intros l Hl Hml. apply elem_of_app. left. apply Hcopied; auto.
        -- done.
      * exists (body ++ [close_fence]). unfold invariant. simpl. rewrite Hf, He.
        split; [by rewrite Hbuf|]. rewrite !occurrences_app, !occurrences_one.
        simpl. split; [lia|]. split; [lia|]. split; [done|].
        split; [intros _; apply last_snoc|]. split; [|split].
        -- apply Forall_app. split; [done|]. apply Forall_singleton. auto.
        -- intros l Hl Hml. apply elem_of_app. left. apply Hcopied; auto.
        -- done.
    + exists body. unfold invariant. simpl. rewrite Hf, He.
      split; [done|]. split; [done|]. split; [lia|]. split; [done|].
      split; [done|]. split; [done|]. split; [|done].
      intros l Hl Hml. apply Hcopied; auto.
Qed.

Lemma loop_invariant now content :
  exists body,
    invariant now content (fold_left step content (start now)) body.
Proof.
  induction content as [|line content IH] using rev_ind.
  - exists []. apply invariant_start.
  - destruct IH as [body IH]. rewrite fold_left_app. simpl.
    by apply step_invariant with body.
Qed.

(** X13: when no line of the report mentions dursvuln, in any letter
    case, the summary is the single "no output" notice.  Otherwise it
    starts with the title and the time stamp, opens one fence per
    mentioning line and copies that line, closes no more fences than it
    opened, ends with a closing fence, and holds nothing but fences,
    headings made of report lines and copies of lines of the report. *)
Theorem X13_dursvuln_summary (now : string) (content : list string) :
  (existsb mentions_dursvuln content = false ->
     final_buf now content = [no_output])
  /\ (existsb mentions_dursvuln content = true ->
      exists body,
        final_buf now content = title :: generated_line now :: body
        /\ occurrences open_fence body
           = List.length (List.filter mentions_dursvuln content)
        /\ 1 <= occurrences close_fence body <= occurrences open_fence body
        /\ last body = Some close_fence
        /\ (forall line, line ∈ content -> mentions_dursvuln line = true ->
              with_newline line ∈ body)
        /\ Forall (fun x =>
                     x = open_fence \/ x = close_fence
                     \/ exists line, line ∈ content
                          /\ (x = with_newline line
                              \/ x = markdown_header line
                                 /\ is_report line = true))
                  body).
Proof.
  destruct (loop_invariant now content)
    as (body & Hbuf & Hopen & Hclose & Hsaw & Hblock & Hall & Hcopied & _).
  unfold final_buf. rewrite Hsaw. split; [by intros ->|]. intros Hex.
  rewrite Hex in *.
  assert (forall l, last l = Some close_fence -> 1 <= occurrences close_fence l)
    as Hlast.
  { intros l Hl. destruct (last_Some l close_fence) as [[l' ->] _]; [done|].
    rewrite occurrences_app, occurrences_one. simpl. lia. }
  destruct (inblock _) eqn:Hin.
  - exists (body ++ [close_fence]). rewrite Hbuf. split; [done|].
    rewrite !occurrences_app, !occurrences_one. simpl.
    split; [lia|]. split; [lia|]. split; [apply last_snoc|].
    split; [intros l Hl Hml; apply elem_of_app; left; by apply Hcopied|].
    apply Forall_app. split; [done|]. apply Forall_singleton. auto.
  - exists body. rewrite Hbuf. specialize (Hblock Hsaw).
    split; [done|]. split; [done|]. split; [|done].
    split; [by apply Hlast|lia].
Qed.

(** Two matching lines in a row open two fences; one is closed. *)
Example adjacent_matches_unbalanced :
  let body := drop 2 (final_buf "" adjacent_matches) in
  occurrences open_fence body = 2 /\ occurrences close_fence body = 1.
Proof. vm_compute. done. Qed.

End DursVulnLoop.

(** ** The targets of the script's nikto runner *)

Section NiktoRunnerFacts.
Import PyText SortedSet NmapXml.

Lemma py_lower_char_idem c : py_lower_char (py_lower_char c) = py_lower_char c.
Proof. by destruct c as [[] [] [] [] [] [] [] []]. Qed.

Lemma py_lower_idem s : py_lower (py_lower s) = py_lower s.
Proof.
  induction s as [|c s IH]; simpl; [done|].
  by rewrite py_lower_char_idem, IH.
Qed.

Lemma target_strict_compare : strict_compare NiktoRunner.target_compare.
Proof.
  apply pair_strict_compare; [|apply string_strict_compare].
  apply pair_strict_compare; apply string_strict_compare.
Qed.

Lemma row_targets_elem row t :
  t ∈ NiktoRunner.row_targets row ->
  py_lower t.2 = t.2
  /\ (py_in "http" t.2 = true \/ t.1.2 ∈ NiktoRunner.web_ports).
Proof.
  unfold NiktoRunner.row_targets.
  destruct row as [|host [|port [|proto [|svc0 rest]]]];
    try (by intros ?%elem_of_nil).
  simpl. destruct (py_in "http" (py_lower svc0)) eqn:Hhttp; simpl.
  - intros ->%list_elem_of_singleton. simpl. split; [apply py_lower_idem|auto].
  - case_bool_decide as Hport; [|by intros ?%elem_of_nil].
    intros ->%list_elem_of_singleton. simpl. split; [apply py_lower_idem|auto].
Qed.

(** X14: the targets of the script's nikto runner are in strictly
    ascending order of (host, port, service), so none occurs twice; they
    are exactly the targets read from the rows of the summary; the service
    of a target is in lower case, and it mentions http or the port is one
    of the eight web ports. *)
Theorem X14_runner_targets (rows : list (list string)) :
  let targets := NiktoRunner._detect_targets (Some rows) in
  StronglySorted (lt_by NiktoRunner.target_compare) targets
  /\ NoDup targets
  /\ (forall t, t ∈ targets
        <-> exists row, row ∈ rows /\ t ∈ NiktoRunner.row_targets row)
  /\ (forall t, t ∈ targets ->
        py_lower t.2 = t.2
        /\ (py_in "http" t.2 = true \/ t.1.2 ∈ NiktoRunner.web_ports)).
Proof.
  simpl.
  pose proof (sorted_set_by_sorted _ target_strict_compare
                (flat_map NiktoRunner.row_targets rows)) as Hsorted.
  assert (forall t,
            t ∈ sorted_set_by NiktoRunner.target_compare
                  (flat_map NiktoRunner.row_targets rows)
            <-> exists row, row ∈ rows /\ t ∈ NiktoRunner.row_targets row)
    as Helem.
  { intros t. rewrite (sorted_set_by_elem _ target_strict_compare).
    rewrite list_elem_of_In, in_flat_map. setoid_rewrite list_elem_of_In.
    done. }
  split; [done|].
  split; [by apply (strongly_sorted_NoDup _ target_strict_compare)|].
  split; [done|].
  intros t (row & _ & Ht)%Helem. by apply row_targets_elem with row.
Qed.




Example plugin_only_port :
  let p := mkPort 3000 (Some "tcp") (Some "open") None None in
  NiktoRunner.row_targets (NiktoRunner.row_of "10.0.0.5" "tcp" p) = []
  /\ Nikto.target_url <$> Nikto.web_target (Some "10.0.0.5") p
     = ["http://10.0.0.5:3000"].
Proof. vm_compute. done. Qed.

End NiktoRunnerFacts.

(** ** The nmap command line *)

Section NmapCommandFacts.
Import Py NmapCommand.

Lemma replace_char_fresh c s : c ∉ s -> replace_char c s = s.
Proof.
  unfold replace_char. induction s as [|x s IH]; intros Hc; [done|].
  apply not_elem_of_cons in Hc as [Hx Hs]. simpl.
  destruct (N.eqb_spec x c) as [->|_]; [done|]. by rewrite IH.
Qed.

Lemma replace_char_elem c s x :
  x ∈ replace_char c s -> x <> c /\ (x ∈ s \/ x = hyphen) \/ (x = hyphen /\ c ∈ s).
Proof.
  unfold replace_char. induction s as [|y s IH]; simpl.
  - by intros ?%elem_of_nil.
  - destruct (N.eqb_spec y c) as [->|Hne].
    + change ([hyphen; hyphen] ++ ?l) with (hyphen :: hyphen :: l).
      rewrite !elem_of_cons.
      intros [->|[->|Hx]]; [right; split; [done|by left]..|].
      destruct (IH Hx) as [[? [?|?]]|[? ?]]; [left|left|right];
        rewrite ?elem_of_cons; auto.
    + simpl. rewrite !elem_of_cons. intros [->|Hx].
      * left. split; [done|]. left. by left.
      * destruct (IH Hx) as [[? [?|?]]|[? ?]]; [left|left|right];
          rewrite ?elem_of_cons; auto.
Qed.

Lemma replace_char_removes c s : c <> hyphen -> c ∉ replace_char c s.
Proof.
  intros Hc Hin. apply replace_char_elem in Hin as [[? _]|[? _]]; done.
Qed.

Lemma replace_char_keeps_out c d s :
  d <> hyphen -> d ∉ s -> d ∉ replace_char c s.
Proof.
  intros Hd Hs Hin. apply replace_char_elem in Hin as [[_ [?|?]]|[? _]]; done.
Qed.

Lemma replace_char_length c s :
  List.length (replace_char c s)
  = List.length s + List.length (List.filter (N.eqb c) s).
Proof.
  unfold replace_char. induction s as [|x s IH]; [done|]. simpl.
  rewrite (N.eqb_sym c x). destruct (N.eqb x c); simpl; rewrite IH; lia.
Qed.

(** X16: after [normalize_dashes] no em dash and no en dash is left; a
    text without them is returned as it is, so normalising twice changes
    nothing more; and a text with such a dash gets longer. *)
Theorem X16_normalize_dashes (s : text) :
  Forall (fun x => is_dash x = false) (normalize_dashes s)
  /\ (Forall (fun x => is_dash x = false) s -> normalize_dashes s = s)
  /\ normalize_dashes (normalize_dashes s) = normalize_dashes s
  /\ (Exists (fun x => is_dash x = true) s ->
      List.length s < List.length (normalize_dashes s)).
Proof.
  assert (forall t, Forall (fun x => is_dash x = false) t ->
                    normalize_dashes t = t) as Hfixed.
  { intros t Ht. unfold normalize_dashes.
    assert ((em_dash ∉ t) /\ (en_dash ∉ t)) as [Hem Hen].
    { split; intros Hin; by apply (proj1 (Forall_forall _ _) Ht) in Hin. }
    by rewrite (replace_char_fresh em_dash), (replace_char_fresh en_dash). }
  assert (Forall (fun x => is_dash x = false) (normalize_dashes s)) as Hclean.
  { apply Forall_forall. intros x Hx. unfold is_dash.
    destruct (N.eqb_spec x em_dash) as [->|_];
      [|destruct (N.eqb_spec x en_dash) as [->|_]; [|done]]; exfalso.
    - revert Hx. apply replace_char_keeps_out; [done|].
      by apply replace_char_removes.
    - revert Hx. by apply replace_char_removes. }
  split; [exact Hclean|]. split; [exact (Hfixed s)|].
  split; [exact (Hfixed _ Hclean)|].
  intros (x & Hx & Hd)%Exists_exists. unfold normalize_dashes.
  rewrite !replace_char_length.
  unfold is_dash in Hd. apply orb_true_iff in Hd as [Hd|Hd];
    apply N.eqb_eq in Hd; subst x.
  - assert (0 < List.length (List.filter (N.eqb em_dash) s)); [|lia].
    assert (em_dash ∈ List.filter (N.eqb em_dash) s) as Hin.
    { apply list_elem_of_In, filter_In. by rewrite <- list_elem_of_In. }
    destruct (List.filter _ s); [by apply elem_of_nil in Hin|simpl; lia].
  - assert (0 < List.length (List.filter (N.eqb en_dash)
                               (replace_char em_dash s))); [|lia].
    assert (en_dash ∈ List.filter (N.eqb en_dash) (replace_char em_dash s))
      as Hin.
    { apply list_elem_of_In, filter_In. split; [|done].
      apply list_elem_of_In. unfold replace_char.
      apply list_elem_of_In, in_flat_map. exists en_dash.
      split; [by apply list_elem_of_In|]. simpl. by left. }
    destruct (List.filter _ (replace_char _ _));
      [by apply elem_of_nil in Hin|simpl; lia].
Qed.

Section Build.
Context (shlex_split : text -> exc (list string)).

Lemma truthy_path (p : option string) : p <> Some "" -> truthy p = p.
Proof. by destruct p as [[|]|]. Qed.

(** X17: whenever the script builds its nmap command, the plugin, given
    the same parameters and settings, builds the same command but for the
    name of the targets file. *)
Theorem X17_plugin_builds_the_same_command
    (params : text) (r : NmapRunner) (targets_temp : string)
    (cmd : list string) :
  durs_script r <> Some "" ->
  durs_db r <> Some "" ->
  build_cmd shlex_split (with_params (Some params) r) = Ok cmd ->
  exists rest,
    cmd = ["nmap"; "-iL"; targets_file r] ++ rest
    /\ _build_command shlex_split targets_temp params (plugin_config r)
         (out_normal r) (out_grep r) (out_xml r)
       = Ok (["nmap"; "-iL"; targets_temp] ++ rest).
Proof.
  intros Hscript Hdb. unfold build_cmd, _build_command, with_params. simpl.
  destruct (shlex_split (normalize_dashes params)) as [extra| |]; simpl;
    [|done..].
  destruct (enable_durs r); [|intros [= <-]; by eexists].
  rewrite (truthy_path _ Hscript), (truthy_path _ Hdb).
  destruct (use_global_script r); simpl.
  - intros [= <-]. eexists. split; [done|]. by rewrite <- !app_assoc.
  - destruct (durs_script r) as [path|]; [|done].
    destruct (script_exists r); [|done]. simpl.
    intros [= <-]. eexists. split; [done|]. by rewrite <- !app_assoc.
Qed.

End Build.

Lemma X17_witness :
  exists rest,
    build_cmd words (with_params (Some sample_params) sample_runner)
    = Ok (["nmap"; "-iL"; "out/targets_clean.txt"] ++ rest)
    /\ _build_command words "out/targets_temp.txt" sample_params
         (plugin_config sample_runner) "out/nmap_results.nmap"
         "out/nmap_results.gnmap" "out/nmap_results.xml"
       = Ok (["nmap"; "-iL"; "out/targets_temp.txt"] ++ rest).
Proof.
  destruct (X17_plugin_builds_the_same_command words sample_params
              sample_runner "out/targets_temp.txt"
              (["nmap"; "-iL"; "out/targets_clean.txt"; "-sV"; "--open";
                "--stats-every"; "2s"; "-oN"; "out/nmap_results.nmap";
                "-oG"; "out/nmap_results.gnmap"; "-oX";
                "out/nmap_results.xml"; "-v"; "--script"; "dursvuln.nse";
                "--script-args";
                "db_path=cve-main.json,min_severity=HIGH,dursvuln.output=concise"]))
    as (rest & Hcmd & Hplugin).
  - simpl. congruence.
  - simpl. congruence.
  - vm_compute. reflexivity.
  - exists rest. split; [|exact Hplugin].
    change (targets_file sample_runner) with "out/targets_clean.txt" in Hcmd.
    rewrite <- Hcmd. vm_compute. reflexivity.
Defined.

(** A script that is missing stops the script, not the plugin. *)
Example missing_script :
  let r := mkRunner "t" "n" "g" "x" [] true false None false None None "" in
  build_cmd words r = Raise (SystemExit not_found)
  /\ _build_command words "t" [] (plugin_config r) "n" "g" "x"
     = Ok ["nmap"; "-iL"; "t"; "--stats-every"; "2s"; "-oN"; "n"; "-oG"; "g";
           "-oX"; "x"; "-v"].
Proof. vm_compute. done. Qed.

End NmapCommandFacts.

(** ** The NVD enricher *)

Section NvdFacts.
Import Py Vulnerability Dedup Enrichers.

Lemma nvd_outcome_mono c1 c2 e e' :
  c1 ⊆ c2 -> nvd_outcome c1 e e' -> nvd_outcome c2 e e'.
Proof.
  intros Hsub [->|(c & d & Hw & Hc & He)]; [by left|].
  right. exists c, d. split; [done|]. split; [|done].
  by eapply lookup_weaken.
Qed.

Lemma nvd_outcome_key final e e' :
  nvd_outcome final e e' -> vuln_key (vuln e') = vuln_key (vuln e).
Proof. by intros [->|(c & d & _ & _ & [->| ->])]. Qed.

Lemma answered_snoc log c b :
  answered (log ++ [(c, b)]) = answered log ++ (if b then [c] else []).
Proof.
  unfold answered. rewrite filter_snoc. simpl.
  destruct b; [by rewrite fmap_app|by rewrite !app_nil_r].
Qed.

Lemma dom_no_answer (m : gmap string NvdData) (log : list (string * bool)) :
  answered log = [] -> dom m = dom m ∪ list_to_set (answered log).
Proof. intros ->. simpl. by rewrite (right_id_L ∅ (∪)). Qed.

Lemma dom_one_answer (m : gmap string NvdData) c d :
  dom (<[c := d]> m) = dom m ∪ list_to_set (answered [(c, true)]).
Proof.
  rewrite dom_insert_L. unfold answered. simpl.
  by rewrite (right_id_L ∅ (∪)), (comm_L (∪)).
Qed.

(** What one iteration does to the cache and to the log. *)
Lemma nvd_step_spec w st e st1 r :
  nvd_step w st e = (st1, r) ->
  cache st ⊆ cache st1
  /\ (exists new, requests st1 = requests st ++ new
        /\ List.length new <= 1
        /\ (forall c b, (c, b) ∈ new ->
              wanted e = Some c /\ cache st !! c = None
              /\ (b = true -> is_Some (cache st1 !! c)))
        /\ dom (cache st1) = dom (cache st) ∪ list_to_set (answered new))
  /\ (forall e', r = Ok e' -> nvd_outcome (cache st1) e e')
  /\ (forall e' c d, r = Ok e' -> wanted e = Some c -> cache st !! c = Some d ->
        e' = with_cached d e).
Proof.
  unfold nvd_step. destruct (wanted e) as [cve|] eqn:Hw.
  2:{ intros [= <- <-]. split; [done|]. split; [|split].
      - exists []. rewrite app_nil_r. split; [done|]. split; [simpl; lia|].
        split; [by intros ? ? ?%elem_of_nil|by apply dom_no_answer].
      - intros e' [= <-]. by left.
      - done. }
  destruct (cache st !! cve) as [d|] eqn:Hc.
  { intros [= <- <-]. split; [done|]. split; [|split].
    - exists []. rewrite app_nil_r. split; [done|]. split; [simpl; lia|].
      split; [by intros ? ? ?%elem_of_nil|by apply dom_no_answer].
    - intros e' [= <-]. right. exists cve, d. auto.
    - intros e' c d' [= <-] [= <-] Hd. by simplify_eq. }
  assert (forall b (cache1 : gmap string NvdData),
            (b = true -> is_Some (cache1 !! cve)) ->
            dom cache1 = dom (cache st) ∪ list_to_set (answered [(cve, b)]) ->
            exists new, requests st ++ [(cve, b)] = requests st ++ new
              /\ List.length new <= 1
              /\ (forall c b0, (c, b0) ∈ new ->
                    Some cve = Some c /\ cache st !! c = None
                    /\ (b0 = true -> is_Some (cache1 !! c)))
              /\ dom cache1 = dom (cache st) ∪ list_to_set (answered new))
    as Hlog.
  { intros b cache1 Hb Hdom. exists [(cve, b)]. split; [done|].
    split; [simpl; lia|]. split; [|done].
    intros c b0 [= -> ->]%list_elem_of_singleton. auto. }
  assert (forall c d, Some cve = Some c -> cache st !! c = Some d -> False)
    as Hfresh by (intros c d [= <-]; congruence).
  assert (exists new, requests st ++ [(cve, false)] = requests st ++ new
              /\ List.length new <= 1
              /\ (forall c b0, (c, b0) ∈ new ->
                    Some cve = Some c /\ cache st !! c = None
                    /\ (b0 = true -> is_Some (cache st !! c)))
              /\ dom (cache st) = dom (cache st) ∪ list_to_set (answered new))
    as Hnone by (by apply Hlog; [|apply dom_no_answer]).
  destruct (fetch w _ cve) as [[d|]|err|] eqn:Hf.
  - intros [= <- <-]. simpl. split; [by apply insert_subseteq|].
    split; [|split].
    + apply Hlog; [|apply dom_one_answer].
      intros _. rewrite lookup_insert_eq. by eexists.
    + intros e' He'. right. exists cve, d. split; [done|].
      split; [by rewrite lookup_insert_eq|]. right.
      by destruct (sleep w _); simplify_eq/=.
    + intros e' c d' _ Hc' Hd. by destruct (Hfresh c d').
  - intros [= <- <-]. simpl. split; [done|]. split; [done|]. split.
    + intros e' He'. left. by destruct (sleep w _); simplify_eq/=.
    + intros e' c d' _ Hc' Hd. by destruct (Hfresh c d').
  - destruct (is_Exception err); intros [= <- <-]; simpl;
      (split; [done|]); (split; [done|]); split.
    + intros e' [= <-]. by left.
    + intros e' c d' _ Hc' Hd. by destruct (Hfresh c d').
    + done.
    + done.
  - intros [= <- <-]. simpl. by repeat split.
Qed.

End NvdFacts.

Section NvdLoopFacts.
Import Py Vulnerability Dedup Enrichers.

Lemma answered_app l1 l2 : answered (l1 ++ l2) = answered l1 ++ answered l2.
Proof. unfold answered. by rewrite List.filter_app, fmap_app. Qed.

Lemma answered_elem log c : c ∈ answered log <-> (c, true) ∈ log.
Proof.
  unfold answered. rewrite list_elem_of_fmap. split.
  - intros ([c' b] & -> & Hin). apply list_elem_of_In, filter_In in Hin.
    destruct Hin as [Hin Hb]. simpl in *. subst b. by apply list_elem_of_In.
  - intros Hin. exists (c, true). split; [done|].
    apply list_elem_of_In, filter_In. split; [by apply list_elem_of_In|done].
Qed.

Lemma answered_short log : List.length log <= 1 -> NoDup (answered log).
Proof.
  destruct log as [|[c b] [|? ?]]; simpl; [constructor| |lia].
  intros _. unfold answered. simpl. destruct b; simpl; [|constructor].
  apply NoDup_singleton.
Qed.

Lemma wanted_prefix e c : wanted e = Some c -> String.prefix "CVE-" c = true.
Proof.
  unfold wanted. destruct (cve_of e) as [c'|]; [|done].
  destruct (String.prefix "CVE-" c') eqn:Hp; [|done]. by intros [= <-].
Qed.

(** What a run of [enrich] does to the cache and to the log, whatever its
    outcome, and how it leaves the entries when it returns. *)
Lemma nvd_enrich_spec w es :
  forall st st' r,
    nvd_enrich w st es = (st', r) ->
    cache st ⊆ cache st'
    /\ (exists new, requests st' = requests st ++ new
          /\ List.length new <= List.length es
          /\ (forall c b, (c, b) ∈ new ->
                cache st !! c = None
                /\ (exists e, e ∈ es /\ wanted e = Some c)
                /\ (b = true -> is_Some (cache st' !! c)))
          /\ NoDup (answered new)
          /\ dom (cache st') = dom (cache st) ∪ list_to_set (answered new))
    /\ (forall out, r = Ok out ->
          Forall2 (nvd_outcome (cache st')) es out
          /\ Forall2 (fun e e' => forall c d,
                        wanted e = Some c -> cache st !! c = Some d ->
                        e' = with_cached d e) es out).
Proof.
  induction es as [|e es IH]; intros st st' r; simpl.
  - intros [= <- <-]. split; [done|]. split.
    + exists []. rewrite app_nil_r. split; [done|]. split; [done|].
      split; [by intros ? ? ?%elem_of_nil|]. split; [constructor|].
      by apply dom_no_answer.
    + intros out [= <-]. split; constructor.
  - destruct (nvd_step w st e) as [st1 r1] eqn:Hstep.
    destruct (nvd_step_spec _ _ _ _ _ Hstep)
      as (Hsub1 & (new1 & Hreq1 & Hlen1 & Hnew1 & Hdom1) & Hout1 & Hcached1).
    assert (forall c b, (c, b) ∈ new1 ->
              cache st !! c = None
              /\ (exists e0, e0 ∈ e :: es /\ wanted e0 = Some c)
              /\ (b = true -> is_Some (cache st1 !! c))) as Hnew1'.
    { intros c b Hin. destruct (Hnew1 c b Hin) as (Hw & Hc & Hb).
      split; [done|]. split; [|done]. exists e. split; [by left|done]. }
    destruct r1 as [e'|err|].
    2,3: intros [= <- <-]; (split; [done|]); (split; [|done]);
         exists new1; (split; [done|]); (split; [simpl; lia|]);
         (split; [done|]); (split; [by apply answered_short|done]).
    destruct (nvd_enrich w st1 es) as [st2 r2] eqn:Hrest.
    destruct (IH _ _ _ Hrest)
      as (Hsub2 & (new2 & Hreq2 & Hlen2 & Hnew2 & Hnd2 & Hdom2) & Hout2).
    assert (st' = st2 ->
            cache st ⊆ cache st'
            /\ (exists new, requests st' = requests st ++ new
                  /\ List.length new <= S (List.length es)
                  /\ (forall c b, (c, b) ∈ new ->
                        cache st !! c = None
                        /\ (exists e0, e0 ∈ e :: es /\ wanted e0 = Some c)
                        /\ (b = true -> is_Some (cache st' !! c)))
                  /\ NoDup (answered new)
                  /\ dom (cache st')
                     = dom (cache st) ∪ list_to_set (answered new)))
      as Hstate.
    { intros ->. split; [by etrans|]. exists (new1 ++ new2).
      split; [by rewrite Hreq2, Hreq1, app_assoc|].
      split; [rewrite length_app; lia|]. split; [|split].
      - intros c b [Hin|Hin]%elem_of_app.
        + destruct (Hnew1' c b Hin) as (Hc & He & Hb).
          split; [done|]. split; [done|]. intros Hb'.
          destruct (Hb Hb') as [d Hd]. exists d. by eapply lookup_weaken.
        + destruct (Hnew2 c b Hin) as (Hc & (e0 & He0 & Hw0) & Hb).
          split; [by eapply lookup_weaken_None|]. split; [|done].
          exists e0. split; [by right|done].
      - rewrite answered_app. apply NoDup_app.
        split; [by apply answered_short|]. split; [|done].
        intros c Hc1%answered_elem Hc2%answered_elem.
        destruct (Hnew1' c true Hc1) as (_ & _ & Hsome).
        destruct (Hnew2 c true Hc2) as (Hnone & _).
        destruct (Hsome eq_refl) as [d Hd]. congruence.
      - rewrite Hdom2, Hdom1, answered_app, list_to_set_app_L.
        by rewrite (assoc_L (∪)). }
    destruct r2 as [enriched|err|]; intros [= <- <-];
      (split; [by apply Hstate|]); (split; [by apply Hstate|]); [|done..].
    intros out [= <-]. destruct (Hout2 enriched eq_refl) as [Hall Hserved].
    split; constructor; try done.
    + eapply nvd_outcome_mono; [exact Hsub2|]. by apply Hout1.
    + intros c d Hw Hc. by apply (Hcached1 e' c d).
    + eapply Forall2_impl; [exact Hserved|]. intros e0 e0' H0 c d Hw Hc.
      apply (H0 c d Hw). by eapply lookup_weaken.
Qed.

(** X18: when the NVD enricher returns, it returns one entry per entry it
    was given, in order and under the same key (cve_id, host); an entry is
    left as it is, or carries the data the cache holds for its identifier
    at the end; and an entry whose identifier was in the cache from the
    start gets that data as [nvd_data] and nothing else: no CVSS score, no
    severity and no description are set for it. *)
Theorem X18_nvd_enrich_result
    (w : NvdWorld) (st st' : NvdState) (es out : list Entry) :
  nvd_enrich w st es = (st', Ok out) ->
  List.length out = List.length es
  /\ (vuln_key ∘ vuln) <$> out = (vuln_key ∘ vuln) <$> es
  /\ Forall2 (nvd_outcome (cache st')) es out
  /\ Forall2 (fun e e' => forall c d,
                wanted e = Some c -> cache st !! c = Some d ->
                nvd_data e' = Val d /\ vuln e' = vuln e
                /\ severity e' = severity e) es out.
Proof.
  intros Hrun.
  destruct (nvd_enrich_spec _ _ _ _ _ Hrun) as (_ & _ & Hout).
  destruct (Hout out eq_refl) as [Hall Hserved].
  split; [symmetry; by eapply Forall2_length|]. split; [|split; [done|]].
  - clear Hserved Hout Hrun.
    induction Hall as [|e e' es out He _ IH]; [done|].
    rewrite !fmap_cons, IH. f_equal. simpl. by eapply nvd_outcome_key.
  - eapply Forall2_impl; [exact Hserved|]. intros e e' He c d Hw Hc.
    by rewrite (He c d Hw Hc).
Qed.

Lemma X18_witness :
  List.length (with_cached log4shell_data <$> two_hosts) = List.length two_hosts
  /\ (vuln_key ∘ vuln) <$> (with_cached log4shell_data <$> two_hosts)
     = (vuln_key ∘ vuln) <$> two_hosts
  /\ Forall2 (nvd_outcome (cache cached_state)) two_hosts
             (with_cached log4shell_data <$> two_hosts)
  /\ Forall2 (fun e e' => forall c d,
                wanted e = Some c -> cache cached_state !! c = Some d ->
                nvd_data e' = Val d /\ vuln e' = vuln e
                /\ severity e' = severity e)
             two_hosts (with_cached log4shell_data <$> two_hosts).
Proof.
  apply (X18_nvd_enrich_result log4shell_only cached_state cached_state).
  vm_compute. reflexivity.
Defined.

(** X19: whatever the outcome of a run of the NVD enricher, the cache only
    grows; at most one request is sent per entry; every request is for an
    identifier that starts with "CVE-" and was not in the cache at the
    start; no identifier is answered with data twice; and the cache at the
    end holds the identifiers it held at the start and those answered with
    data. *)
Theorem X19_nvd_cache_discipline
    (w : NvdWorld) (st : NvdState) (es : list Entry) :
  let st' := fst (nvd_enrich w st es) in
  cache st ⊆ cache st'
  /\ exists new,
       requests st' = requests st ++ new
       /\ List.length new <= List.length es
       /\ (forall c b, (c, b) ∈ new ->
             cache st !! c = None /\ String.prefix "CVE-" c = true)
       /\ NoDup (answered new)
       /\ dom (cache st') = dom (cache st) ∪ list_to_set (answered new).
Proof.
  simpl. destruct (nvd_enrich w st es) as [st' r] eqn:Hrun.
  destruct (nvd_enrich_spec _ _ _ _ _ Hrun)
    as (Hsub & (new & Hreq & Hlen & Hnew & Hnd & Hdom) & _).
  split; [done|]. exists new. repeat (split; [done|]). split; [|done].
  intros c b Hin. destruct (Hnew c b Hin) as (Hc & (e & _ & Hw) & _).
  split; [done|]. by eapply wanted_prefix.
Qed.

(** The same identifier on two hosts: one request; the first host gets the
    score, the second the data only. *)
Example second_host_gets_no_score :
  let '(st', r) := nvd_enrich log4shell_only empty_state two_hosts in
  requests st' = [("CVE-2021-44228", true)]
  /\ exists e1 e2,
       r = Ok [e1; e2]
       /\ cvss_score (vuln e1) = Val (10 # 1)
       /\ cvss_score (vuln e2) = Missing
       /\ nvd_data e1 = nvd_data e2.
Proof. vm_compute. split; [done|]. by eexists _, _. Qed.

End NvdLoopFacts.

(** ** The NVD enricher in the enrichment phase *)

Section NvdPluginFacts.
Import Py Vulnerability Enrichers Orchestrator PhaseReading NvdPlugin.





(** A service that cannot be reached leaves the vulnerabilities as they
    are, with one warning each. *)
Example unreachable_service :
  let '(st', r) := nvd_enrich unreachable empty_state two_hosts in
  r = Ok two_hosts /\ List.length (warnings st') = 2.
Proof. vm_compute. done. Qed.

End NvdPluginFacts.

(** ** The EPSS enricher *)

Section EpssFacts.
Import Py Vulnerability Dedup Enrichers Epss.

(** The slices at the multiples of [size] below [m * size]. *)
Lemma slices_concat {A} size m (l : list A) :
  List.length l <= m * size ->
  concat ((fun i => take size (drop i l)) <$> ((fun k => k * size) <$> seq 0 m))
  = l.
Proof.
  revert l. induction m as [|m IH]; intros l Hlen.
  - simpl in *. symmetry. apply nil_length_inv. lia.
  - rewrite <- cons_seq, <- fmap_S_seq, !fmap_cons, <- !list_fmap_compose.
    specialize (IH (drop size l)).
    rewrite length_drop in IH. specialize (IH ltac:(simpl in Hlen; lia)).
    assert ((fun i => take size (drop i l)) ∘ (fun k => k * size) ∘ S <$> seq 0 m
            = (fun i => take size (drop i (drop size l)))
                <$> ((fun k => k * size) <$> seq 0 m)) as ->.
    { rewrite <- list_fmap_compose. apply list_fmap_ext.
      intros _ k _. simpl. by rewrite drop_drop. }
    simpl. rewrite IH. apply take_drop.
Qed.

Lemma batches_concat {A} size (l : list A) :
  0 < size -> concat (batches size l) = l.
Proof.
  intros Hs. unfold batches, Script.range_step. apply slices_concat.
  by apply range_count_bounds.
Qed.

Lemma batches_lengths {A} size (l : list A) :
  0 < size ->
  Forall (fun b => 1 <= List.length b <= size) (batches size l).
Proof.
  intros Hs. unfold batches, Script.range_step.
  rewrite <- list_fmap_compose. apply Forall_fmap, Forall_forall.
  intros k Hk. apply elem_of_seq in Hk. simpl.
  rewrite length_take, length_drop.
  destruct (range_count_bounds (List.length l) size Hs) as [_ Hlt].
  assert (0 < List.length l) as Hpos.
  { destruct (List.length l) eqn:Hn; [|lia].
    unfold Script.range_count in Hk. simpl in Hk.
    rewrite Nat.div_small in Hk by lia. lia. }
  specialize (Hlt Hpos). nia.
Qed.

(** The batches requested are the first of the batches to do; all of them
    when the loop returns. *)
Lemma fetch_batches_log w todo :
  forall i all_data,
    fst (fetch_batches w i all_data todo) `prefix_of` todo
    /\ (forall data, snd (fetch_batches w i all_data todo) = Ok data ->
          fst (fetch_batches w i all_data todo) = todo).
Proof.
  induction todo as [|batch rest IH]; intros i all_data; simpl.
  - split; [done|]. done.
  - assert (forall data,
              (let '(log, r) := fetch_batches w (S i) data rest in
               (batch :: log, r)).1 `prefix_of` batch :: rest
              /\ (forall data',
                    (let '(log, r) := fetch_batches w (S i) data rest in
                     (batch :: log, r)).2 = Ok data' ->
                    (let '(log, r) := fetch_batches w (S i) data rest in
                     (batch :: log, r)).1 = batch :: rest)) as Hcont.
    { intros data. destruct (IH (S i) data) as [Hpre Hall].
      destruct (fetch_batches w (S i) data rest) as [log r]. simpl in *.
      split; [by apply prefix_cons|]. intros data' Hr. f_equal. by eapply Hall. }
    assert ([batch] `prefix_of` batch :: rest) as Hone
      by (apply prefix_cons, prefix_nil).
    destruct (respond w i batch) as [code|scores|err|]; [done| | |done].
    + destruct (store_scores all_data scores) as [stored [|]]; [|done].
      by destruct (epss_sleep w i).
    + by destruct (is_Exception err).
Qed.

Lemma with_epss_vuln data e :
  vuln (with_epss data e) = vuln e /\ nvd_data (with_epss data e) = nvd_data e
  /\ severity (with_epss data e) = severity e.
Proof.
  unfold with_epss. destruct (cve_of e) as [c|]; [|done].
  by destruct (data !! c).
Qed.

(** X21: when the EPSS enricher returns, it returns one entry per entry it
    was given with every key of the vulnerability, the NVD data and the
    severity as they were; the identifiers it asked for are those of the
    entries that start with "CVE-", in order and as often as they occur,
    in batches of one to thirty; and when no entry has such an identifier
    it returns the list as it is without asking, whatever the service. *)
Theorem X21_epss_enrich_result
    (w : EpssWorld) (es out : list Entry) (log : list (list string)) :
  epss_enrich w es = (log, Ok out) ->
  vuln <$> out = vuln <$> es
  /\ nvd_data <$> out = nvd_data <$> es
  /\ severity <$> out = severity <$> es
  /\ concat log = omap wanted es
  /\ Forall (fun b => 1 <= List.length b <= batch_size) log
  /\ (omap wanted es = [] -> log = [] /\ out = es).
Proof.
  unfold epss_enrich. destruct (omap wanted es) as [|c ids] eqn:Hids.
  { intros [= <- <-]. by repeat split. }
  rewrite <- Hids. unfold _fetch_epss_batch.
  destruct (fetch_batches_log w (batches batch_size (omap wanted es)) 0 ∅)
    as [_ Hall].
  destruct (fetch_batches w 0 ∅ _) as [log' r] eqn:Hfetch. simpl in Hall.
  destruct r as [data| |]; simpl; [|done..]. intros [= <- <-].
  rewrite (Hall data eq_refl).
  assert (forall (T : Type) (f : Entry -> T),
            (forall e, f (with_epss data e) = f e) ->
            f <$> (with_epss data <$> es) = f <$> es) as Hkeep.
  { intros T f Hf. rewrite <- list_fmap_compose. apply list_fmap_ext.
    intros _ e _. apply Hf. }
  split; [apply Hkeep; intros e; apply with_epss_vuln|].
  split; [apply Hkeep; intros e; apply with_epss_vuln|].
  split; [apply Hkeep; intros e; apply with_epss_vuln|].
  split; [apply batches_concat; unfold batch_size; lia|].
  split; [apply batches_lengths; unfold batch_size; lia|].
  rewrite Hids. done.
Qed.

Lemma X21_witness :
  vuln <$> (with_epss {[ "CVE-2021-44228" := mkEpssInfo (97 # 100) (99 # 100)
                                               (Some "2024-01-01") ]}
              <$> two_hosts)
  = vuln <$> two_hosts.
Proof.
  apply (X21_epss_enrich_result log4shell_scores two_hosts _
           [["CVE-2021-44228"; "CVE-2021-44228"]]).
  vm_compute. reflexivity.
Defined.

End EpssFacts.

(** ** The plugins of the manager *)

Section InitializeFacts.
Import Py PyText Initialize.
Context (exploitdb_name : string).
Context (Hsuffix : py_endswith "_enricher" exploitdb_name = true).
Context (Hprovider : py_in "provider" exploitdb_name = false).

Lemma exploitdb_not_a_scanner n :
  py_endswith "_enricher" n = false -> String.eqb exploitdb_name n = false.
Proof.
  intros Hn. apply String.eqb_neq. intros <-. congruence.
Qed.

Lemma validate_all_warned validate ps warned :
  validate_all validate ps = Ok warned ->
  warned = List.filter (fun p => invalid (validate p)) ps.
Proof.
  revert warned. induction ps as [|p ps IH]; intros warned; simpl.
  - by intros [= <-].
  - destruct (validate p) as [[|]| |] eqn:Hp; simpl; [| |done..];
      (destruct (validate_all validate ps) as [ws| |]; simpl; [|done..]);
      intros [= <-]; by rewrite (IH ws eq_refl).
Qed.

(** X22: the phases find by name the plugins the configuration asks for:
    the nmap and nikto scanners exactly when they are enabled, which they
    are unless the configuration says otherwise; as provider the one named
    by the configuration when AI is enabled, and none when the name is not
    one of openai, anthropic and ollama; as enrichers the enabled ones, in
    the order NVD, EPSS, ExploitDB.  A plugin that fails validation is
    warned about and kept. *)
Theorem X22_plugins_found_by_name (c : Config) :
  let ps := plugins c in
  find_named exploitdb_name "nmap_scanner" ps
  = as_option (default true (nmap_enabled c)) NmapScanner
  /\ find_named exploitdb_name "nikto_scanner" ps
     = as_option (default true (nikto_enabled c)) NiktoScanner
  /\ find_provider exploitdb_name ps = provider_of c
  /\ find_enrichers exploitdb_name ps
     = when (default true (nvd_enabled c)) NVDEnricher
       ++ when (default true (epss_enabled c)) EPSSEnricher
       ++ when (default true (exploitdb_enabled c)) ExploitDBEnricher
  /\ forall validate ps' warned,
       initialize c validate = Ok (ps', warned) ->
       ps' = ps
       /\ warned = List.filter (fun p => invalid (validate p)) ps.
Proof.
  simpl.
  pose proof (exploitdb_not_a_scanner "nmap_scanner" eq_refl) as Hnmap.
  pose proof (exploitdb_not_a_scanner "nikto_scanner" eq_refl) as Hnikto.
  split; [|split; [|split; [|split]]].
  - unfold find_named, plugins, provider_of, when, as_option.
    destruct (default true (nmap_enabled c)),
             (default true (nikto_enabled c)),
             (default false (ai_enabled c)),
             (String.eqb (default "openai" (ai_provider c)) "openai"),
             (String.eqb (default "openai" (ai_provider c)) "anthropic"),
             (String.eqb (default "openai" (ai_provider c)) "ollama"),
             (default true (nvd_enabled c)),
             (default true (epss_enabled c)),
             (default true (exploitdb_enabled c));
      simpl; rewrite ?Hnmap; reflexivity.
  - unfold find_named, plugins, provider_of, when, as_option.
    destruct (default true (nmap_enabled c)),
             (default true (nikto_enabled c)),
             (default false (ai_enabled c)),
             (String.eqb (default "openai" (ai_provider c)) "openai"),
             (String.eqb (default "openai" (ai_provider c)) "anthropic"),
             (String.eqb (default "openai" (ai_provider c)) "ollama"),
             (default true (nvd_enabled c)),
             (default true (epss_enabled c)),
             (default true (exploitdb_enabled c));
      simpl; rewrite ?Hnikto; reflexivity.
  - unfold find_provider, plugins, provider_of, when.
    destruct (default true (nmap_enabled c)),
             (default true (nikto_enabled c)),
             (default false (ai_enabled c)),
             (String.eqb (default "openai" (ai_provider c)) "openai"),
             (String.eqb (default "openai" (ai_provider c)) "anthropic"),
             (String.eqb (default "openai" (ai_provider c)) "ollama"),
             (default true (nvd_enabled c)),
             (default true (epss_enabled c)),
             (default true (exploitdb_enabled c));
      cbn -[py_in]; rewrite ?Hprovider; reflexivity.
  - unfold find_enrichers, plugins, provider_of, when.
    destruct (default true (nmap_enabled c)),
             (default true (nikto_enabled c)),
             (default false (ai_enabled c)),
             (String.eqb (default "openai" (ai_provider c)) "openai"),
             (String.eqb (default "openai" (ai_provider c)) "anthropic"),
             (String.eqb (default "openai" (ai_provider c)) "ollama"),
             (default true (nvd_enabled c)),
             (default true (epss_enabled c)),
             (default true (exploitdb_enabled c));
      cbn -[py_endswith]; rewrite ?Hsuffix; reflexivity.
  - intros validate ps' warned. unfold initialize.
    destruct (validate_all validate (plugins c))
      as [ws| |] eqn:Hv; simpl; [|done..].
    intros [= <- <-]. split; [done|]. by apply validate_all_warned.
Qed.

End InitializeFacts.

Section InitializeSamples.
Import Py PyText Initialize.

Lemma X22_witness :
  find_provider "exploitdb_enricher" (plugins unknown_provider) = None
  /\ find_enrichers "exploitdb_enricher"
       (plugins unknown_provider)
     = [NVDEnricher; ExploitDBEnricher].
Proof.
  destruct (X22_plugins_found_by_name "exploitdb_enricher" eq_refl eq_refl
              unknown_provider) as (_ & _ & Hp & He & _).
  split; [exact Hp|exact He].
Defined.

End InitializeSamples.

(** ** The AI providers *)

Section AiProviderFacts.
Import Py PyText Vulnerability NmapXml Enrichers AiProviders Orchestrator.

Lemma flat_mapM_returns {A B} (f : A -> exc (list B)) l :
  returns (flat_mapM f l) <-> Forall (fun x => returns (f x)) l.
Proof.
  induction l as [|x l IH]; simpl.
  - split; [constructor|by eexists].
  - rewrite Forall_cons, <- IH. unfold returns.
    destruct (f x) as [ys|e|]; simpl.
    + destruct (flat_mapM f l) as [more|e|]; simpl;
        split; try (intros [a [=]]); try (by intros [_ [a [=]]]);
        try (by intros [[a [=]] _]).
      * split; by eexists.
      * by eexists.
    + split; [by intros [a [=]]|by intros [[a [=]] _]].
    + split; [by intros [a [=]]|by intros [[a [=]] _]].
Qed.

Lemma flat_mapM_fails {A B} (f : A -> exc (list B)) l :
  Forall (fun x => returns_or_fails (f x)) l -> returns_or_fails (flat_mapM f l).
Proof.
  induction 1 as [|x l Hx _ IH]; simpl; [done|].
  destruct (f x) as [ys|e|]; simpl; [|done..].
  by destruct (flat_mapM f l).
Qed.

Lemma section_returns {A} heading (f : A -> exc (list string)) items shown :
  (items = [] -> shown = []) ->
  returns (section heading f items shown) <-> Forall (fun x => returns (f x)) shown.
Proof.
  intros Hshown. unfold section. destruct items as [|x items].
  - rewrite (Hshown eq_refl). split; [constructor|by eexists].
  - rewrite <- flat_mapM_returns. unfold returns.
    destruct (flat_mapM f shown) as [ls|e|]; simpl;
      split; try (by intros [a [=]]); by eexists.
Qed.

Lemma section_fails {A} heading (f : A -> exc (list string)) items shown :
  Forall (fun x => returns_or_fails (f x)) shown ->
  returns_or_fails (section heading f items shown).
Proof.
  intros Hall. unfold section. destruct items; [done|].
  pose proof (flat_mapM_fails f shown Hall) as Hf.
  by destruct (flat_mapM f shown).
Qed.

(** Three sections in a row. *)
Lemma three_sections_return (a b c : exc (list string)) (k : list string -> string) :
  returns (x <~ a ;; y <~ b ;; z <~ c ;; Ok (k (x ++ y ++ z)))
  <-> returns a /\ returns b /\ returns c.
Proof.
  unfold returns.
  destruct a as [x|e|], b as [y|e'|], c as [z|e''|]; simpl;
    split; try (by intros [? [=]]);
    try (by intros ([? [=]] & _)); try (by intros (_ & [? [=]] & _));
    try (by intros (_ & _ & [? [=]])).
  - intros _. repeat split; by eexists.
  - intros _. by eexists.
Qed.

Lemma three_sections_fail (a b c : exc (list string)) (k : list string -> string) :
  returns_or_fails a -> returns_or_fails b -> returns_or_fails c ->
  returns_or_fails (x <~ a ;; y <~ b ;; z <~ c ;; Ok (k (x ++ y ++ z))).
Proof. by destruct a, b, c. Qed.

Lemma script_line_returns s :
  returns (openai_script_line s) <-> is_Some (output s).
Proof.
  unfold openai_script_line, returns. destruct (output s) as [out|]; simpl.
  - split; [by eexists|by eexists].
  - split; [by intros [? [=]]|by intros [? [=]]].
Qed.

Lemma port_lines_returns p :
  returns (openai_port_lines p)
  <-> forall s, s ∈ default [] (scripts p) -> is_Some (output s).
Proof.
  unfold openai_port_lines. destruct (service_text p) as [[name prod] ver].
  rewrite <- Forall_forall.
  rewrite <- (Forall_iff _ _ _ (fun s => script_line_returns s)).
  rewrite <- flat_mapM_returns. unfold returns.
  destruct (flat_mapM openai_script_line _) as [ls|e|]; simpl;
    split; try (by intros [? [=]]); by eexists.
Qed.

Lemma host_lines_returns h :
  returns (openai_host_lines h) <-> scripts_have_output h.
Proof.
  unfold openai_host_lines, scripts_have_output.
  assert (returns (flat_mapM openai_port_lines (ports h))
          <-> forall p s, p ∈ ports h -> s ∈ default [] (scripts p) ->
                          is_Some (output s)) as Hports.
  { rewrite flat_mapM_returns, Forall_forall. split.
    - intros Hall p s Hp. by apply port_lines_returns, Hall.
    - intros Hall p Hp. apply port_lines_returns. intros s. by apply Hall. }
  destruct (ports h) as [|p ps] eqn:Hps.
  - split; [by intros _ p s ?%elem_of_nil|by eexists].
  - rewrite <- Hports. unfold returns.
    destruct (flat_mapM openai_port_lines (p :: ps)) as [ls|e|]; simpl;
      split; try (by intros [? [=]]); by eexists.
Qed.

Lemma script_line_fails s : returns_or_fails (openai_script_line s).
Proof. unfold openai_script_line. by destruct (output s). Qed.

Lemma port_lines_fails p : returns_or_fails (openai_port_lines p).
Proof.
  unfold openai_port_lines. destruct (service_text p) as [[name prod] ver].
  pose proof (flat_mapM_fails openai_script_line (default [] (scripts p)))
    as Hf.
  destruct (flat_mapM openai_script_line _); simpl; [done| |];
    apply Hf, Forall_forall; intros s _; apply script_line_fails.
Qed.

Lemma host_lines_fails h : returns_or_fails (openai_host_lines h).
Proof.
  unfold openai_host_lines. destruct (ports h) as [|p ps]; [done|].
  pose proof (flat_mapM_fails openai_port_lines (p :: ps)) as Hf.
  destruct (flat_mapM openai_port_lines (p :: ps)); simpl; [done| |];
    apply Hf, Forall_forall; intros q _; apply port_lines_fails.
Qed.

Lemma scan_lines_returns scan :
  returns (openai_scan_lines scan) <-> is_dictionary scan.
Proof.
  unfold openai_scan_lines, returns, is_dictionary.
  destruct scan as [d|e|]; split; try (by intros [? [=]]); by eexists.
Qed.

Lemma anthropic_scan_lines_returns scan :
  returns (anthropic_scan_lines scan) <-> is_dictionary scan.
Proof.
  unfold anthropic_scan_lines, returns, is_dictionary.
  destruct scan as [d|e|]; split; try (by intros [? [=]]); by eexists.
Qed.

Lemma vuln_lines_returns show_float e :
  returns (openai_vuln_lines show_float e) <-> description_is_text e.
Proof.
  unfold openai_vuln_lines, returns, description_is_text, get_slice.
  destruct (description (vuln e)); simpl;
    split; try done; try (by intros [? [=]]); by eexists.
Qed.

Lemma anthropic_vuln_lines_returns show_float e :
  returns (anthropic_vuln_lines show_float e) <-> description_is_text e.
Proof.
  unfold anthropic_vuln_lines, returns, description_is_text, get_slice.
  destruct (description (vuln e)); simpl;
    split; try done; try (by intros [? [=]]); by eexists.
Qed.

Lemma take_of_nil {A} n (l : list A) : l = [] -> take n l = [].
Proof. intros ->. by destruct n. Qed.

(** X23: through the manager a provider never falls back on its default
    prompt: the context always carries the key, so the prompt is the one
    of the configuration, and without one the text sent starts with
    "None". *)
Theorem X23_default_prompt_unused
    (configured : option string) (default_prompt context : string) :
  prompt_of (context_prompt configured) default_prompt = configured
  /\ content_sent None default_prompt context = "None" +:+ nl +:+ nl +:+ context
  /\ forall p, configured = Some p ->
       content_sent configured default_prompt context = p +:+ nl +:+ nl +:+ context.
Proof.
  split; [by destruct configured|]. split; [done|]. by intros p ->.
Qed.

(** X24: the context of the OpenAI provider is built exactly when every
    script of every port has an output, every nikto scan is a dictionary
    and none of the first fifteen vulnerabilities holds [None] as its
    description; otherwise building it raises an Exception. *)
Theorem X24_openai_context
    (show_float : Q -> string) (hosts : list Host)
    (scans : list (exc Nikto.ScanDict)) (vulns : list Entry) :
  (returns (openai_context show_float hosts scans vulns)
   <-> Forall scripts_have_output hosts
       /\ Forall is_dictionary scans
       /\ Forall description_is_text (take 15 vulns))
  /\ returns_or_fails (openai_context show_float hosts scans vulns).
Proof.
  unfold openai_context. split.
  - rewrite three_sections_return, !section_returns by (by auto using take_of_nil).
    rewrite (Forall_iff _ _ _ host_lines_returns).
    rewrite (Forall_iff _ _ _ scan_lines_returns).
    by rewrite (Forall_iff _ _ _ (vuln_lines_returns show_float)).
  - apply three_sections_fail; apply section_fails, Forall_forall.
    + intros h _. apply host_lines_fails.
    + intros scan _. by destruct scan.
    + intros e _. unfold openai_vuln_lines, get_slice.
      by destruct (description (vuln e)).
Qed.

Lemma length_take_chars_le n s : String.length (Nikto.take_chars n s) <= n.
Proof. rewrite length_take_chars. lia. Qed.

(** X25: the Anthropic provider does not read the output of scripts: its
    context is built exactly when every nikto scan is a dictionary and
    none of the first fifteen vulnerabilities holds [None] as its
    description, and otherwise raises an Exception; the context of the
    Ollama provider has at most 2000 characters. *)
Theorem X25_anthropic_and_ollama_context
    (show_float : Q -> string) (hosts : list Host)
    (scans : list (exc Nikto.ScanDict)) (vulns : list Entry) :
  (returns (anthropic_context show_float hosts scans vulns)
   <-> Forall is_dictionary scans
       /\ Forall description_is_text (take 15 vulns))
  /\ returns_or_fails (anthropic_context show_float hosts scans vulns)
  /\ String.length (ollama_context hosts) <= 2000.
Proof.
  unfold anthropic_context. split; [|split].
  - rewrite three_sections_return, !section_returns by (by auto using take_of_nil).
    rewrite (Forall_iff _ _ _ anthropic_scan_lines_returns).
    rewrite (Forall_iff _ _ _ (anthropic_vuln_lines_returns show_float)).
    split; [tauto|]. intros [? ?]. split; [|done].
    apply Forall_forall. intros h _. by eexists.
  - apply three_sections_fail; apply section_fails, Forall_forall.
    + done.
    + intros scan _. by destruct scan.
    + intros e _. unfold anthropic_vuln_lines, get_slice.
      by destruct (description (vuln e)).
  - apply length_take_chars_le.
Qed.

End AiProviderFacts.

Section AiPhaseFacts.
Import Py PyText Vulnerability NmapXml Enrichers AiProviders Orchestrator AiPhase.

(** A script without output stops the OpenAI provider, whatever the
    service would answer, and the AI phase ends without analysis; the
    Anthropic provider builds its context for the same scan. *)
Example silent_script_stops_openai :
  forall show_float respond,
    _run_ai_analysis
      (with_openai show_float respond None (Some [silent_script_host]) None [])
    = (Ok None, [PhaseAI; AIFailed TypeError])
    /\ returns (anthropic_context show_float [silent_script_host] [] []).
Proof. intros show_float respond. split; [done|by eexists]. Qed.

End AiPhaseFacts.

(** ** Merging configurations *)

Section ConfigMergeFacts.
Import ConfigMerge.
Context {A : Type}.
Implicit Types (d bd od base override : dict A) (v : value A).

Lemma merge_value_dicts bd od :
  merge_value (Some (Dict bd)) (Dict od) = Dict (merge_configs bd od).
Proof.
  simpl. f_equal. unfold merge_configs.
  revert bd. induction od as [|[k v] od IH]; intros bd; [done|].
  simpl. by rewrite IH.
Qed.

Lemma merge_value_no_base v : merge_value None v = v.
Proof. by destruct v. Qed.

Lemma lookup_set_item k k' v d :
  lookup k (set_item k' v d) = if String.eqb k' k then Some v else lookup k d.
Proof.
  induction d as [|[k0 v0] d IH]; simpl.
  - done.
  - destruct (String.eqb_spec k0 k') as [->|Hne]; simpl.
    + by destruct (String.eqb k' k).
    + rewrite IH. destruct (String.eqb_spec k0 k) as [->|Hne']; [|done].
      destruct (String.eqb_spec k' k) as [->|_]; [done|done].
Qed.

Lemma lookup_None k d : lookup k d = None <-> k ∉ keys d.
Proof.
  induction d as [|[k0 v0] d IH]; simpl.
  - split; [by intros _ ?%elem_of_nil|done].
  - rewrite not_elem_of_cons. destruct (String.eqb_spec k0 k) as [->|Hne].
    + split; [done|by intros [? _]].
    + rewrite IH. split; [by intros ?|by intros [_ ?]].
Qed.

Lemma set_item_new k v d : k ∉ keys d -> set_item k v d = d ++ [(k, v)].
Proof.
  induction d as [|[k0 v0] d IH]; simpl; [done|].
  rewrite not_elem_of_cons. intros [Hne Hd].
  destruct (String.eqb_spec k0 k) as [->|_]; [done|]. by rewrite IH.
Qed.

Lemma keys_set_item k v d :
  keys (set_item k v d) = if bool_decide (k ∈ keys d) then keys d else keys d ++ [k].
Proof.
  induction d as [|[k0 v0] d IH]; simpl; [done|].
  destruct (String.eqb_spec k0 k) as [->|Hne]; simpl.
  - rewrite bool_decide_eq_true_2; [done|by left].
  - rewrite IH. case_bool_decide as Hin.
    + rewrite bool_decide_eq_true_2; [done|by right].
    + rewrite bool_decide_eq_false_2; [done|].
      rewrite not_elem_of_cons. split; [by intros ->|done].
Qed.

(** What the loop leaves under a key. *)
Lemma lookup_merge_configs base override k :
  NoDup (keys override) ->
  lookup k (merge_configs base override)
  = match lookup k override with
    | Some v => Some (merge_value (lookup k base) v)
    | None => lookup k base
    end.
Proof.
  unfold merge_configs. revert base.
  induction override as [|[k0 v0] override IH]; intros base Hnd; [done|].
  change (NoDup (k0 :: keys override)) in Hnd.
    apply NoDup_cons in Hnd as [Hk0 Hnd]. simpl.
  rewrite (IH _ Hnd). unfold merge_step. simpl. rewrite lookup_set_item.
  destruct (String.eqb_spec k0 k) as [->|Hne]; [|done].
  by apply lookup_None in Hk0 as ->.
Qed.

Lemma filter_ext_elem {B} (P Q : B -> Prop)
    `{forall x, Decision (P x)} `{forall x, Decision (Q x)} (l : list B) :
  (forall x, x ∈ l -> P x <-> Q x) -> filter P l = filter Q l.
Proof.
  induction l as [|x l IH]; intros Hl; [done|].
  rewrite !filter_cons.
  assert (filter P l = filter Q l) as ->.
  { apply IH. intros y Hy. apply Hl. by right. }
  destruct (decide (P x)) as [Hp|Hp], (decide (Q x)) as [Hq|Hq]; try done;
    exfalso; specialize (Hl x ltac:(by left)); tauto.
Qed.

Lemma keys_merge_configs base override :
  NoDup (keys override) ->
  keys (merge_configs base override)
  = keys base ++ filter (fun k => k ∉ keys base) (keys override).
Proof.
  unfold merge_configs. revert base.
  induction override as [|[k0 v0] override IH]; intros base Hnd; simpl.
  - by rewrite app_nil_r.
  - change (NoDup (k0 :: keys override)) in Hnd.
    apply NoDup_cons in Hnd as [Hk0 Hnd].
    rewrite (IH _ Hnd). unfold merge_step. simpl. rewrite keys_set_item.
    rewrite filter_cons. case_bool_decide as Hin.
    + rewrite decide_False by (by intros ?). done.
    + rewrite decide_True by done. rewrite <- app_assoc. simpl. f_equal. f_equal.
      apply filter_ext_elem. intros k Hk.
      rewrite elem_of_app, list_elem_of_singleton.
      split; [tauto|]. intros Hnot [?| ->]; done.
Qed.

Lemma merge_configs_empty_base override :
  NoDup (keys override) -> merge_configs [] override = override.
Proof.
  intros Hnd. unfold merge_configs.
  assert (forall base,
            (forall k, k ∈ keys override -> k ∉ keys base) ->
            fold_left merge_step override base = base ++ override) as Hgen.
  { induction override as [|[k0 v0] override IH]; intros base Hfresh; simpl.
    - by rewrite app_nil_r.
    - change (NoDup (k0 :: keys override)) in Hnd.
    apply NoDup_cons in Hnd as [Hk0 Hnd]. unfold merge_step at 2. simpl.
      assert (k0 ∉ keys base) as Hnew by (apply Hfresh; by left).
      rewrite (proj2 (lookup_None k0 base) Hnew), merge_value_no_base.
      rewrite set_item_new by done. rewrite (IH Hnd).
      + by rewrite <- app_assoc.
      + intros k Hk. unfold keys. rewrite fmap_app, elem_of_app.
        intros [?| ->%list_elem_of_singleton]; [|done].
        apply (Hfresh k); [by right|done]. }
  apply (Hgen []). by intros k _ ?%elem_of_nil.
Qed.

Lemma lookup_elem k d v : lookup k d = Some v -> (k, v) ∈ d.
Proof.
  induction d as [|[k0 v0] d IH]; simpl; [done|].
  destruct (String.eqb_spec k0 k) as [->|_].
  - intros [= ->]. by left.
  - intros Hl. right. by apply IH.
Qed.

(** A setting of [override] that is not a dictionary is found under the
    same path, whatever was there in [base]. *)
Lemma lookup_path_merge_value path :
  forall v b a,
    well_formed v ->
    lookup_path path v = Some (Atom a) ->
    lookup_path path (merge_value b v) = Some (Atom a).
Proof.
  induction path as [|k path IH]; intros v b a Hwf; simpl.
  - intros [= ->]. done.
  - destruct v as [a'|od]; [done|].
    destruct (lookup k od) as [v'|] eqn:Hk; [|done]. intros Hpath.
    inversion Hwf as [|d Hnd Hall]; subst.
    assert (well_formed v') as Hwf'.
    { apply lookup_elem in Hk.
      by apply (proj1 (Forall_forall _ _) Hall (k, v')). }
    destruct b as [[ab|bd]|].
    + change (merge_value (Some (Atom ab)) (Dict od)) with (Dict od).
      cbn beta iota. by rewrite Hk.
    + rewrite merge_value_dicts. cbn beta iota.
      rewrite lookup_merge_configs, Hk by done. by apply IH.
    + change (merge_value None (Dict od)) with (Dict od).
      cbn beta iota. by rewrite Hk.
Qed.

(** X26: for an override that holds every key once at every level, the
    merged configuration holds under a key of the override the value of
    the override, merged with the value of the base when both are
    dictionaries, and under any other key the value of the base; its keys
    are those of the base, in their order, followed by the new keys of the
    override; a setting of the override that is not a dictionary is found
    under the same path in the result, whatever the base held there; and
    merging into the empty configuration gives the override back. *)
Theorem X26_merge_configs base override :
  well_formed (Dict override) ->
  (forall k,
     lookup k (merge_configs base override)
     = match lookup k override with
       | Some v => Some (merge_value (lookup k base) v)
       | None => lookup k base
       end)
  /\ keys (merge_configs base override)
     = keys base ++ filter (fun k => k ∉ keys base) (keys override)
  /\ (forall path a,
        lookup_path path (Dict override) = Some (Atom a) ->
        lookup_path path (Dict (merge_configs base override)) = Some (Atom a))
  /\ merge_configs [] override = override
  /\ merge_configs base [] = base.
Proof.
  intros Hwf. inversion Hwf as [|d Hnd Hall]; subst.
  split; [intros k; by apply lookup_merge_configs|].
  split; [by apply keys_merge_configs|].
  split; [|split; [by apply merge_configs_empty_base|done]].
  intros path a Hpath. rewrite <- merge_value_dicts.
  by apply lookup_path_merge_value.
Qed.

End ConfigMergeFacts.

Section ConfigMergeSamples.
Import ConfigMerge.

Lemma sample_override_well_formed : well_formed (Dict user_override).
Proof.
  assert (forall l : list string, bool_decide (NoDup l) = true -> NoDup l)
    as Hnd by (intros l; apply bool_decide_eq_true_1).
  assert (forall k a, well_formed (Dict [(k, Atom a)] : value string)) as Hone.
  { intros k a. apply wf_dict; [by apply Hnd|].
    apply Forall_singleton, wf_atom. }
  apply wf_dict; [by apply Hnd|].
  apply Forall_cons; split; [apply Hone|]. apply Forall_singleton, Hone.
Qed.

Lemma X26_witness :
  lookup_path ["nmap"; "nmap_params"]
              (Dict (merge_configs quick_nmap user_override))
  = Some (Atom "-sV -p-")
  /\ keys (merge_configs quick_nmap user_override) = ["nmap"; "nikto"; "ai"].
Proof.
  destruct (X26_merge_configs quick_nmap user_override
              sample_override_well_formed) as (_ & Hkeys & Hpath & _).
  split; [by apply Hpath|]. rewrite Hkeys. vm_compute. reflexivity.
Defined.

(** The merge is deep, and not associative: a setting that is no
    dictionary cuts the merge. *)
Example merge_configs_not_associative :
  let a := [("nmap", Dict [("enabled", Atom "True")])] in
  let b := [("nmap", Atom "off")] in
  let c := [("nmap", Dict [("adaptive_mode", Atom "True")])] in
  merge_configs (merge_configs a b) c <> merge_configs a (merge_configs b c).
Proof. vm_compute. discriminate. Qed.

End ConfigMergeSamples.

(** ** The stages of the script *)

Section CliFacts.
Import Py Cli.

Lemma enter_entered w st k x :
  x ∈ (enter w st k).2 -> x = st \/ x ∈ k.2.
Proof.
  unfold enter. destruct (stage_result w st), k as [r entered]; simpl;
    rewrite ?elem_of_cons, ?elem_of_nil; tauto.
Qed.

Lemma enter_if_entered b w st k x :
  x ∈ (enter_if b w st k).2 -> (x = st /\ b = true) \/ x ∈ k.2.
Proof.
  destruct b; simpl; [|tauto]. intros [->|?]%enter_entered; auto.
Qed.

Lemma enter_sublist w st k l :
  k.2 `sublist_of` l -> (enter w st k).2 `sublist_of` st :: l.
Proof.
  intros Hk. unfold enter. destruct (stage_result w st), k as [r entered];
    simpl in *.
  - by apply sublist_skip.
  - apply sublist_skip, sublist_nil_l.
  - apply sublist_skip, sublist_nil_l.
Qed.

Lemma enter_if_sublist b w st k l :
  k.2 `sublist_of` l -> (enter_if b w st k).2 `sublist_of` st :: l.
Proof.
  destruct b; simpl; [apply enter_sublist|apply sublist_cons].
Qed.

(** A run that returns has entered the last stage. *)
Lemma enter_ends w st k x :
  (k.1 = Ok tt -> last k.2 = Some x) ->
  (enter w st k).1 = Ok tt -> last (enter w st k).2 = Some x.
Proof.
  unfold enter. destruct (stage_result w st), k as [r entered]; simpl;
    [|done..].
  intros Hk Hr. specialize (Hk Hr). by destruct entered.
Qed.

Lemma enter_if_ends b w st k x :
  (k.1 = Ok tt -> last k.2 = Some x) ->
  (enter_if b w st k).1 = Ok tt -> last (enter_if b w st k).2 = Some x.
Proof. destruct b; simpl; [apply enter_ends|done]. Qed.

Lemma later_stages_spec w no_nikto' :
  let entered := (later_stages w no_nikto').2 in
  entered `sublist_of`
    [Summaries; NiktoStage; DursVulnExtraction; AIAnalysis; WrapUp]
  /\ (NiktoStage ∈ entered -> no_nikto' = false /\ dry_run w = false)
  /\ (DursVulnExtraction ∈ entered -> dursvuln w = true /\ dry_run w = false)
  /\ (AIAnalysis ∈ entered -> ai w = true /\ dry_run w = false)
  /\ head entered = Some Summaries
  /\ ((later_stages w no_nikto').1 = Ok tt -> last entered = Some WrapUp).
Proof.
  unfold later_stages. simpl. split; [|split; [|split; [|split; [|split]]]].
  - repeat first [apply enter_sublist | apply enter_if_sublist]. done.
  - intros [?|[[_ Hb]|[[? _]|[[? _]|[?|?%elem_of_nil]%enter_entered
      ]%enter_if_entered]%enter_if_entered]%enter_if_entered]%enter_entered;
      try done.
    apply andb_true_iff in Hb as [?%negb_true_iff ?%negb_true_iff]. done.
  - intros [?|[[? _]|[[_ Hb]|[[? _]|[?|?%elem_of_nil]%enter_entered
      ]%enter_if_entered]%enter_if_entered]%enter_if_entered]%enter_entered;
      try done.
    apply andb_true_iff in Hb as [? ?%negb_true_iff]. done.
  - intros [?|[[? _]|[[? _]|[[_ Hb]|[?|?%elem_of_nil]%enter_entered
      ]%enter_if_entered]%enter_if_entered]%enter_if_entered]%enter_entered;
      try done.
    apply andb_true_iff in Hb as [? ?%negb_true_iff]. done.
  - unfold enter at 1. destruct (stage_result w Summaries); [|done..].
    by destruct (enter_if _ w NiktoStage _).
  - apply enter_ends. repeat apply enter_if_ends.
    unfold enter. by destruct (stage_result w WrapUp).
Qed.

(** X27: the later stages of the script are entered in the order
    summaries, nikto, DursVulnExtraction, AI, wrap-up, each at most once;
    the nikto stage only when nikto is installed, not switched off, and the
    run is not a dry run; the DursVuln extraction and the AI analysis only
    when asked for and not in a dry run; a run that returns has begun with
    the summaries and ended with the wrap-up; and no stage is entered
    unless nmap is installed, the targets file holds a target and nmap
    exited with code 0. *)
Theorem X27_stages_of_a_run (w : CliWorld) :
  let entered := (main_async w).2 in
  entered `sublist_of`
    [Summaries; NiktoStage; DursVulnExtraction; AIAnalysis; WrapUp]
  /\ (NiktoStage ∈ entered ->
      no_nikto w = false /\ nikto_installed w = true /\ dry_run w = false)
  /\ (DursVulnExtraction ∈ entered -> dursvuln w = true /\ dry_run w = false)
  /\ (AIAnalysis ∈ entered -> ai w = true /\ dry_run w = false)
  /\ ((main_async w).1 = Ok tt ->
      head entered = Some Summaries /\ last entered = Some WrapUp)
  /\ (entered <> [] ->
      nmap_installed w = true /\ nmap_run w = Ok 0%Z
      /\ exists t ts, target_lines w = Some (t :: ts)).
Proof.
  simpl. unfold main_async.
  assert (forall r : exc unit,
            r <> Ok tt ->
            [] `sublist_of`
              [Summaries; NiktoStage; DursVulnExtraction; AIAnalysis; WrapUp]
            /\ (NiktoStage ∈ @nil stage ->
                no_nikto w = false /\ nikto_installed w = true
                /\ dry_run w = false)
            /\ (DursVulnExtraction ∈ @nil stage ->
                dursvuln w = true /\ dry_run w = false)
            /\ (AIAnalysis ∈ @nil stage -> ai w = true /\ dry_run w = false)
            /\ (r = Ok tt ->
                head (@nil stage) = Some Summaries
                /\ last (@nil stage) = Some WrapUp)
            /\ (@nil stage <> [] ->
                nmap_installed w = true /\ nmap_run w = Ok 0%Z
                /\ exists t ts, target_lines w = Some (t :: ts))) as Hstop.
  { intros r Hr. split; [apply sublist_nil_l|].
    repeat (split; [by intros ?%elem_of_nil|]). split; done. }
  destruct (nmap_installed w) eqn:Hnmap; simpl; [|by apply Hstop].
  destruct (target_lines w) as [[|t ts]|] eqn:Htargets;
    [by apply Hstop| |by apply Hstop].
  destruct (nmap_run w) as [rc|e|] eqn:Hrun; [|by apply Hstop..].
  case_bool_decide as Hrc; [by apply Hstop|].
  assert (rc = 0%Z) as -> by (by destruct (decide (rc = 0%Z)); [|done]).
  destruct (later_stages_spec w (no_nikto w || negb (nikto_installed w)))
    as (Hsub & Hnikto & Hdurs & Hai & Hhead & Hlast).
  split; [done|]. split; [|split; [done|split; [done|split]]].
  - intros Hin. destruct (Hnikto Hin) as [Hoff Hdry].
    apply orb_false_iff in Hoff as [? ?%negb_false_iff]. done.
  - intros Hr. split; [done|by apply Hlast].
  - intros _. split; [done|]. split; [done|]. by eexists _, _.
Qed.

End CliFacts.

(** ** The Markdown summary *)

Section GnmapMarkdownFacts.
Import PyText Gnmap SortedSet GnmapMarkdown.

Lemma strongly_sorted_snoc {T} (R : T -> T -> Prop) l x :
  StronglySorted R (l ++ [x]) ->
  StronglySorted R l /\ Forall (fun y => R y x) l.
Proof.
  induction l as [|y l IH]; simpl; intros Hs.
  - split; constructor.
  - apply StronglySorted_inv in Hs as [Hs Hy]. destruct (IH Hs) as [Hl Hx].
    apply Forall_app in Hy as [Hy Hyx]. split.
    + by constructor.
    + constructor; [|done]. exact (Forall_inv Hyx).
Qed.

Lemma add_row_new r g :
  row_host r ∉ g.*1 -> add_row r g = g ++ [(row_host r, [r])].
Proof.
  induction g as [|[h items] g IH]; simpl; [done|].
  rewrite not_elem_of_cons. intros [Hne Hg].
  destruct (String.eqb_spec h (row_host r)) as [->|_]; [done|].
  by rewrite IH.
Qed.

Lemma add_row_last r g items :
  row_host r ∉ g.*1 ->
  add_row r (g ++ [(row_host r, items)]) = g ++ [(row_host r, items ++ [r])].
Proof.
  induction g as [|[h items'] g IH]; simpl.
  - intros _. by rewrite String.eqb_refl.
  - rewrite not_elem_of_cons. intros [Hne Hg].
    destruct (String.eqb_spec h (row_host r)) as [->|_]; [done|].
    by rewrite IH.
Qed.

(** In the order of the rows the host never decreases. *)
Lemma row_compare_host a b :
  row_compare a b = Lt -> String.compare (row_host a) (row_host b) <> Gt.
Proof.
  destruct a as [[[h1 p1] pr1] s1], b as [[[h2 p2] pr2] s2]. simpl.
  unfold row_host. simpl. by destruct (String.compare h1 h2).
Qed.

Lemma host_between h0 hl :
  String.compare h0 hl <> Gt -> String.compare hl h0 <> Gt -> hl = h0.
Proof.
  intros H1 H2. apply (cmp_eq _ string_strict_compare).
  rewrite (cmp_antisym _ string_strict_compare) in H1.
  destruct (String.compare hl h0); simpl in *; done.
Qed.

Lemma grouped_step seen g r :
  StronglySorted (lt_by row_compare) (seen ++ [r]) ->
  grouped seen g -> grouped (seen ++ [r]) (add_row r g).
Proof.
  intros Hsorted (Hconcat & Hnd & Hall & Hlast).
  apply strongly_sorted_snoc in Hsorted as [Hseen Hbefore].
  destruct (decide (row_host r ∈ g.*1)) as [Hin|Hnew].
  - (* the host of [r] has a section: it is the last one *)
    assert (exists r0, r0 ∈ seen /\ row_host r0 = row_host r) as (r0 & Hr0 & Hh0).
    { apply list_elem_of_fmap in Hin as ([h items] & Hh & Hx). simpl in Hh.
      subst h. pose proof (proj1 (Forall_forall _ _) Hall _ Hx) as [Hne Hitems].
      simpl in *. destruct items as [|r0 items]; [done|]. exists r0. split.
      - rewrite <- Hconcat. apply list_elem_of_In, in_concat.
        exists (r0 :: items). split; [|by left].
        apply list_elem_of_In, list_elem_of_fmap.
        by exists (row_host r, r0 :: items).
      - by apply Forall_cons in Hitems as [? _]. }
    destruct (last seen) as [rl|] eqn:Hrl;
      [|apply last_None in Hrl; rewrite Hrl in Hr0; by apply elem_of_nil in Hr0].
    apply last_Some in Hrl as [seen' ->].
    assert (row_host rl = row_host r) as Hhl.
    { rewrite <- Hh0. apply host_between.
      - apply elem_of_app in Hr0 as [Hr0| ->%list_elem_of_singleton].
        + apply strongly_sorted_snoc in Hseen as [_ Hrl].
          by apply row_compare_host, (proj1 (Forall_forall _ _) Hrl).
        + by rewrite string_compare_refl.
      - rewrite Hh0. apply row_compare_host.
        apply (proj1 (Forall_forall _ _) Hbefore). apply elem_of_app. right.
        by left. }
    simpl in Hlast.
    apply last_Some in Hlast as [keys' Hkeys].
    destruct (last g) as [[h items]|] eqn:Hg;
      [|apply last_None in Hg; subst g; by destruct keys'].
    apply last_Some in Hg as [g' ->].
    rewrite fmap_app in Hkeys. simpl in Hkeys.
    apply app_inj_tail in Hkeys as [_ Hh]. rewrite Hhl in Hh. subst h.
    rewrite fmap_app in Hnd. apply NoDup_app in Hnd as (Hnd' & Hfresh & _).
    assert (row_host r ∉ g'.*1) as Hg'.
    { intros Hin'. apply (Hfresh _ Hin'). by left. }
    rewrite add_row_last by done.
    apply Forall_app in Hall as [Hall' Hlastg].
    apply Forall_singleton in Hlastg as [Hne Hitems]. simpl in *.
    split; [|split; [|split]].
    + rewrite fmap_app, concat_app in Hconcat |- *. simpl in *.
      rewrite app_nil_r in Hconcat |- *. by rewrite app_assoc, Hconcat.
    + rewrite fmap_app. simpl. apply NoDup_app. split; [done|].
      split; [done|apply NoDup_singleton].
    + apply Forall_app. split; [done|]. apply Forall_singleton. simpl.
      split; [by destruct items|]. apply Forall_app. split; [done|].
      by apply Forall_singleton.
    + rewrite fmap_app. simpl. by rewrite !last_snoc.
  - rewrite add_row_new by done. split; [|split; [|split]].
    + rewrite fmap_app, concat_app. simpl. by rewrite ?app_nil_r, Hconcat.
    + rewrite fmap_app. simpl. apply NoDup_app. split; [done|].
      split; [|apply NoDup_singleton].
      by intros h Hh ->%list_elem_of_singleton.
    + apply Forall_app. split; [done|]. apply Forall_singleton. simpl.
      split; [done|]. by apply Forall_singleton.
    + rewrite fmap_app. simpl. by rewrite !last_snoc.
Qed.

Lemma group_rows_grouped rows :
  StronglySorted (lt_by row_compare) rows -> grouped rows (group_rows rows).
Proof.
  unfold group_rows. induction rows as [|r rows IH] using rev_ind; intros Hs.
  - repeat split; simpl; constructor.
  - rewrite fold_left_app. simpl. apply grouped_step; [done|].
    apply IH. by apply strongly_sorted_snoc in Hs as [? _].
Qed.

Lemma summarize_gnmap_sorted lines :
  StronglySorted (lt_by row_compare) (summarize_gnmap lines).
Proof.
  unfold summarize_gnmap. rewrite sorted_set_by_rows.
  apply sorted_set_by_sorted, row_strict_compare.
Qed.

(** X28: the Markdown summary lists every row of the summary once, in
    order, under the heading of its host: the sections, read one after
    the other, give the rows back; no host has two sections; no section is
    empty, and each holds rows of its host only; and the notice that no
    port is open is written exactly when there is no row. *)
Theorem X28_markdown_sections (now : string) (lines : list string) :
  let rows := summarize_gnmap lines in
  let sections := group_rows rows in
  concat (snd <$> sections) = rows
  /\ NoDup (fst <$> sections)
  /\ Forall (fun x => x.2 <> [] /\ Forall (fun r => row_host r = x.1) x.2)
            sections
  /\ (rows = []
      <-> DursVuln.with_newline "_No open ports found._"
          ∈ summary_markdown now rows).
Proof.
  simpl.
  pose proof (summarize_gnmap_sorted lines) as Hsorted.
  destruct (group_rows_grouped _ Hsorted) as (Hconcat & Hnd & Hall & _).
  split; [done|]. split; [done|]. split; [done|].
  unfold summary_markdown.
  destruct (summarize_gnmap lines) as [|r rows] eqn:Hrows.
  - split; [intros _|done]. apply elem_of_app. right. by left.
  - split; [done|]. intros Hin. exfalso.
    apply elem_of_app in Hin as [Hin|Hin].
    + repeat (apply elem_of_cons in Hin as [Hin|Hin]; [by vm_compute in Hin|]).
      by apply elem_of_nil in Hin.
    + apply list_elem_of_In, in_flat_map in Hin as ([h items] & _ & Hin).
      apply list_elem_of_In in Hin. unfold host_section in Hin. simpl in Hin.
      rewrite !elem_of_cons, elem_of_app, list_elem_of_fmap,
        list_elem_of_singleton in Hin.
      destruct Hin as [Hin|[Hin|[(r' & Hin & _)|Hin]]];
        try (by vm_compute in Hin).
      destruct r' as [[[? ?] ?] ?]. unfold row_line in Hin.
      by apply with_newline_inj in Hin.
Qed.

End GnmapMarkdownFacts.

(** ** From the extraction to the enrichers *)

Section ExtractionToEnrichers.
Import Py Vulnerability Dedup NmapXml Orchestrator ExtractReading PhaseReading
  Enrichers Epss.

Lemma extraction_records nmap_results nikto_results vulns out :
  _extract_vulnerabilities nmap_results nikto_results = (Ok vulns, out) ->
  Forall extracted_record vulns.
Proof.
  unfold _extract_vulnerabilities. cbn [say bind_run lift app].
  destruct (nmap_vulns (hosts_of nmap_results)) as [from_nmap| |] eqn:Hn;
    cbn [bind_run]; [|done..].
  destruct (flat_mapM scan_vulns (nikto_scans nikto_results))
    as [from_nikto| |] eqn:Hk; cbn [bind_run ret say app]; [|done..].
  intros [= <- <-].
  pose proof (nmap_vulns_records _ _ Hn) as Hrec_n.
  pose proof (flat_mapM_Forall extracted_record scan_vulns _ _
                (fun x ys _ => scan_vulns_records x ys) Hk) as Hrec_k.
  rewrite deduplicate_keep_new. apply Forall_forall. intros v Hin.
  eapply elem_of_sublist in Hin; [|apply keep_new_sublist].
  apply elem_of_app in Hin as [Hin|Hin].
  - eapply Forall_forall in Hrec_n; [|done]. by destruct Hrec_n.
  - by eapply Forall_forall in Hrec_k.
Qed.

Lemma wanted_extracted v :
  extracted_record v -> Val <$> wanted (entry_of v) = Some (cve_id v).
Proof.
  intros [(cve & Hcve & Hid) _]. unfold wanted, cve_of. simpl. rewrite Hcve.
  simpl. destruct (match_cve_shape _ _ Hid)
    as (d1 & d2 & d3 & d4 & z & -> & _). done.
Qed.

Lemma wanted_all_extracted vulns :
  Forall extracted_record vulns ->
  Val <$> omap wanted (entry_of <$> vulns) = cve_id <$> vulns.
Proof.
  induction 1 as [|v vulns Hv _ IH]; [done|]. simpl.
  pose proof (wanted_extracted v Hv) as Hw.
  destruct (wanted (entry_of v)) as [c|]; [|done]. simpl in *.
  injection Hw as Hw. f_equal; [done|exact IH].
Qed.

Lemma batches_of_nil {A} size : batches size (@nil A) = [].
Proof.
  unfold batches, Script.range_step, Script.range_count. simpl.
  destruct size as [|size]; [done|].
  rewrite Nat.div_small by lia. done.
Qed.

(** The batches a run of [enrich] asks for, when it returns. *)
Lemma epss_enrich_log w es log out :
  epss_enrich w es = (log, Ok out) ->
  log = batches batch_size (omap wanted es)
  /\ vuln <$> out = vuln <$> es.
Proof.
  unfold epss_enrich. destruct (omap wanted es) as [|c ids] eqn:Hids.
  { intros [= <- <-]. by rewrite batches_of_nil. }
  unfold _fetch_epss_batch.
  destruct (fetch_batches_log w (batches batch_size (c :: ids)) 0 ∅)
    as [_ Hall].
  destruct (fetch_batches w 0 ∅ _) as [log' r] eqn:Hfetch. simpl in Hall.
  destruct r as [data| |]; simpl; [|done..]. intros [= <- <-].
  split; [by apply (Hall data)|].
  rewrite <- list_fmap_compose. apply list_fmap_ext.
  intros _ e _. apply with_epss_vuln.
Qed.

(** X29: every record the extraction returns is looked up by the
    enrichers under its own identifier: the identifiers wanted are those
    of the records, in order; and when the EPSS enricher returns for these
    records, it has asked for each of them, in as many requests as the
    number of records divided by thirty, rounded up, and hands the records
    back as they were. *)
Theorem X29_extracted_records_are_looked_up
    (nmap_results : option (list Host))
    (nikto_results : option Nikto.NiktoResults)
    (vulns : list Vuln) (out : list event) :
  _extract_vulnerabilities nmap_results nikto_results = (Ok vulns, out) ->
  Val <$> omap wanted (entry_of <$> vulns) = cve_id <$> vulns
  /\ forall w log enriched,
       epss_enrich w (entry_of <$> vulns) = (log, Ok enriched) ->
       Val <$> concat log = cve_id <$> vulns
       /\ List.length log = Script.range_count (List.length vulns) batch_size
       /\ vuln <$> enriched = vulns.
Proof.
  intros Hrecords%extraction_records.
  pose proof (wanted_all_extracted vulns Hrecords) as Hwanted.
  split; [done|]. intros w log enriched Hrun.
  destruct (epss_enrich_log _ _ _ _ Hrun) as [-> Hvuln].
  split; [|split].
  - rewrite batches_concat by (unfold batch_size; lia). done.
  - unfold batches, Script.range_step. rewrite !length_fmap, length_seq.
    f_equal. apply (f_equal List.length) in Hwanted.
    by rewrite !length_fmap in Hwanted.
  - rewrite Hvuln, <- list_fmap_compose. by apply list_fmap_id.
Qed.

Lemma X29_witness :
  Val <$> omap wanted (entry_of <$> [vulners_record "CVE-2021-44228";
                                     vulners_record "CVE-2022-1234"])
  = cve_id <$> [vulners_record "CVE-2021-44228";
                vulners_record "CVE-2022-1234"].
Proof.
  apply (X29_extracted_records_are_looked_up (Some [vulners_host]) None _
           [PhaseExtract; Extracted 2]).
  vm_compute. reflexivity.
Defined.

End ExtractionToEnrichers.

(** ** The targets file of the script *)

Section CliTargetsFacts.
Import PyText Py Cli Script CliTargets.

Lemma read_nonempty_lines_nil raws :
  read_nonempty_lines raws = [] <-> Forall (fun raw => dropped raw = true) raws.
Proof.
  unfold read_nonempty_lines, dropped. induction raws as [|raw raws IH]; simpl.
  - split; [constructor|done].
  - rewrite Forall_cons, <- IH.
    destruct (String.eqb (strip raw) "" || String.prefix "#" (strip raw));
      simpl; [tauto|]. split; [done|by intros [? _]].
Qed.

(** X30: no line of the targets file is kept exactly when every line is
    blank or a comment; the script then stops with "No valid targets in
    file." before any stage, whatever nmap would have done; with a line
    that is kept, it goes on to nmap. *)
Theorem X30_targets_file_of_comments (w : CliWorld) (raws : list string) :
  nmap_installed w = true ->
  target_lines w = Some (read_nonempty_lines raws) ->
  (read_nonempty_lines raws = []
   <-> Forall (fun raw => dropped raw = true) raws)
  /\ (Forall (fun raw => dropped raw = true) raws ->
      main_async w = (Raise (SystemExit "[!] No valid targets in file."), []))
  /\ (Exists (fun raw => dropped raw = false) raws ->
      nmap_run w = Ok 0%Z ->
      main_async w = later_stages w (no_nikto w || negb (nikto_installed w))).
Proof.
  intros Hnmap Htargets. split; [apply read_nonempty_lines_nil|].
  unfold main_async. rewrite Hnmap, Htargets. simpl. split.
  - intros Hall%read_nonempty_lines_nil. by rewrite Hall.
  - intros Hex Hrun.
    destruct (read_nonempty_lines raws) as [|t ts] eqn:Hlines.
    + apply read_nonempty_lines_nil in Hlines.
      apply Exists_exists in Hex as (raw & Hin & Hraw).
      apply (proj1 (Forall_forall _ _) Hlines) in Hin. congruence.
    + by rewrite Hrun.
Qed.

Lemma X30_witness :
  main_async comments_only
  = (Raise (SystemExit "[!] No valid targets in file."), []).
Proof.
  apply (X30_targets_file_of_comments comments_only
           ["# staging"; ""; "  # 10.0.0.5"]).
  - reflexivity.
  - reflexivity.
  - repeat constructor.
Defined.

End CliTargetsFacts.
